(** * Just the Fields: record and template engine of [app.js]

    A shallow embedding of the record extractor, the type classifier, the
    path resolver, the template matcher and the template-driven renderer
    of [src/app.js], with the properties the specification states about
    them.

    Conventions of the embedding.
    - A JavaScript value is a [Value]: the JSON values plus [undefined].
      Numbers are the integral ones ([Z]); every number the engine
      inspects (templateVersion, maxItems, lengths, counts, scores) is.
    - An object is its list of own properties in insertion order, the
      first binding of a key being the one a read finds.  Property reads
      see own properties only.  The members a value inherits from the
      built-in prototypes (constructor, toString, map, ...) are functions
      and prototype objects, which no [Value] is: [inheritedMemberNames]
      lists their names, and what is stated about the value a path
      resolves to is stated for paths that name none of them.
    - Strings are byte strings; [trim] and [toLowerCase] act on ASCII.
    - Code that can raise runs in [Result]: reading a property of
      [null]/[undefined] and converting to a string an object that shadows
      [toString] raise a [TypeError], as they do in the engine.
    - Markup is a tree: a [Markup] node stands for the string the source
      assembles at that point, and the empty string has no node. *)

From Stdlib Require Import List String Ascii ZArith NArith Lia Bool Arith.
From Stdlib Require Import DecimalString DecimalN.
Import ListNotations.

Local Open Scope string_scope.
Local Open Scope list_scope.

(* ------------------------------------------------------------------ *)
(** ** Completions: a value or a raised error *)

Inductive JsError : Type :=
| TypeError.

Inductive Result (A : Type) : Type :=
| Ok (a : A)
| Throw (e : JsError).

Arguments Ok {A} a.
Arguments Throw {A} e.

Definition bind {A B : Type} (c : Result A) (k : A -> Result B) : Result B :=
  match c with
  | Ok a => k a
  | Throw e => Throw e
  end.

Notation "x <- c ;; k" := (bind c (fun x => k))
  (at level 61, c at next level, right associativity).

(** The computation raises nothing. *)
Definition total {A : Type} (c : Result A) : Prop := exists a, c = Ok a.

(** [for (const x of xs) acc = step(acc, x)] with a body that may raise. *)
Fixpoint foldM {A B : Type} (step : B -> A -> Result B) (xs : list A) (acc : B)
  : Result B :=
  match xs with
  | [] => Ok acc
  | x :: rest => acc' <- step acc x ;; foldM step rest acc'
  end.

(** [xs.map(f)] with an [f] that may raise. *)
Fixpoint mapM {A B : Type} (f : A -> Result B) (xs : list A) : Result (list B) :=
  match xs with
  | [] => Ok []
  | x :: rest => y <- f x ;; ys <- mapM f rest ;; Ok (y :: ys)
  end.

(* ------------------------------------------------------------------ *)
(** ** Values *)

#[local] Set Warnings "-register-all".

Inductive Value : Type :=
| VUndefined
| VNull
| VBool (b : bool)
| VNum (n : Z)
| VStr (s : string)
| VArr (items : list Value)
| VObj (props : list (string * Value)).

Inductive JsType : Type :=
| TyUndefined | TyObject | TyBoolean | TyNumber | TyString.

Definition JsType_eqb (a b : JsType) : bool :=
  match a, b with
  | TyUndefined, TyUndefined | TyObject, TyObject | TyBoolean, TyBoolean
  | TyNumber, TyNumber | TyString, TyString => true
  | _, _ => false
  end.

(** [typeof v] *)
Definition typeof (v : Value) : JsType :=
  match v with
  | VUndefined => TyUndefined
  | VNull | VArr _ | VObj _ => TyObject
  | VBool _ => TyBoolean
  | VNum _ => TyNumber
  | VStr _ => TyString
  end.

(** [Boolean(v)], the test of [if (v)], [!v], [a && b], [a || b]. *)
Definition truthy (v : Value) : bool :=
  match v with
  | VUndefined | VNull | VBool false | VNum 0 | VStr "" => false
  | _ => true
  end.

(** [v == null] *)
Definition nullish (v : Value) : bool :=
  match v with
  | VUndefined | VNull => true
  | _ => false
  end.

(** [Array.isArray(v)] *)
Definition isArray (v : Value) : bool :=
  match v with
  | VArr _ => true
  | _ => false
  end.

(** [v && typeof v === 'object'] *)
Definition isObjectLike (v : Value) : bool :=
  truthy v && JsType_eqb (typeof v) TyObject.

(** [v && typeof v === 'object' && !Array.isArray(v)]: a string-keyed mapping. *)
Definition isMapping (v : Value) : bool :=
  isObjectLike v && negb (isArray v).

(** [a || b] *)
Definition js_or (a b : Value) : Value := if truthy a then a else b.

(** [a ?? b] *)
Definition js_coalesce (a b : Value) : Value := if nullish a then b else a.

(* ------------------------------------------------------------------ *)
(** ** Strings *)

Definition is_ws (c : ascii) : bool :=
  let n := nat_of_ascii c in
  (n =? 32)%nat || ((9 <=? n)%nat && (n <=? 13)%nat).

Fixpoint trimStart (s : string) : string :=
  match s with
  | String c rest => if is_ws c then trimStart rest else s
  | EmptyString => EmptyString
  end.

(** Drops the trailing white space: a character stays when something
    other than white space follows it or it is not white space itself. *)
Fixpoint trimEnd (s : string) : string :=
  match s with
  | String c rest =>
      match trimEnd rest with
      | EmptyString => if is_ws c then EmptyString else String c EmptyString
      | kept => String c kept
      end
  | EmptyString => EmptyString
  end.

(** [s.trim()] *)
Definition trim (s : string) : string := trimEnd (trimStart s).

Definition nonEmpty (s : string) : bool :=
  match s with
  | EmptyString => false
  | String _ _ => true
  end.

Definition lower_ascii (c : ascii) : ascii :=
  let n := nat_of_ascii c in
  if (65 <=? n)%nat && (n <=? 90)%nat then ascii_of_nat (n + 32) else c.

(** [s.toLowerCase()] *)
Fixpoint toLowerCase (s : string) : string :=
  match s with
  | String c rest => String (lower_ascii c) (toLowerCase rest)
  | EmptyString => EmptyString
  end.

(** [s.includes(needle)] *)
Fixpoint includes (s needle : string) : bool :=
  String.prefix needle s ||
  match s with
  | String _ rest => includes rest needle
  | EmptyString => false
  end.

(** [parts.join(sep)] *)
Fixpoint join (sep : string) (parts : list string) : string :=
  match parts with
  | [] => EmptyString
  | [p] => p
  | p :: rest => p ++ sep ++ join sep rest
  end.

(** Decimal notation of a natural number and of an integer. *)
Definition N_toString (n : N) : string :=
  NilEmpty.string_of_uint (N.to_uint n).

Definition Z_toString (z : Z) : string :=
  NilEmpty.string_of_int (Z.to_int z).

(** [Number(digits)] for a run of decimal digits.  The value is exact;
    the double the engine computes differs from it only above 2^53, where
    no array has an element. *)
Definition Number_of_digits (digits : string) : N :=
  match NilEmpty.uint_of_string digits with
  | Some u => N.of_uint u
  | None => 0%N
  end.

(* ------------------------------------------------------------------ *)
(** ** Property reads and conversions *)

Fixpoint lookup (k : string) (props : list (string * Value)) : option Value :=
  match props with
  | [] => None
  | (k', v) :: rest => if String.eqb k k' then Some v else lookup k rest
  end.

(** The array index a property key denotes, if it is the canonical decimal
    notation of one. *)
Definition arrayIndex (k : string) : option N :=
  match NilEmpty.uint_of_string k with
  | Some u =>
      let n := N.of_uint u in
      if nonEmpty k && String.eqb (N_toString n) k then Some n else None
  | None => None
  end.

Definition charAt (s : string) (i : nat) : Value :=
  match String.get i s with
  | Some c => VStr (String c EmptyString)
  | None => VUndefined
  end.

(** The own property [k] of a value that has properties: a key of a
    mapping; [length] and the elements of an array or of a string. *)
Definition ownProperty (v : Value) (k : string) : Value :=
  match v with
  | VObj props =>
      match lookup k props with Some x => x | None => VUndefined end
  | VArr items =>
      if String.eqb k "length" then VNum (Z.of_nat (List.length items))
      else match arrayIndex k with
           | Some i => nth (N.to_nat i) items VUndefined
           | None => VUndefined
           end
  | VStr s =>
      if String.eqb k "length" then VNum (Z.of_nat (String.length s))
      else match arrayIndex k with
           | Some i => charAt s (N.to_nat i)
           | None => VUndefined
           end
  | _ => VUndefined
  end.

(** [v[k]]: raises on [null] and [undefined].  The read finds own
    properties.  Under a key that names an inherited member
    ([inheritedMemberNames]) and is no own property, the engine finds that
    member, a function or a prototype object, which no [Value] stands
    for; the keys the engine fixes itself ([layout], [fields], [path],
    ...) name none on the values they are read from. *)
Definition get (v : Value) (k : string) : Result Value :=
  if nullish v then Throw TypeError else Ok (ownProperty v k).

(** [v[n]] for a numeric key: the key is the number's decimal notation. *)
Definition getIndex (v : Value) (n : N) : Result Value :=
  get v (N_toString n).

(** [Object.prototype.hasOwnProperty.call(v, k)] *)
Definition hasOwnProperty (v : Value) (k : string) : Result bool :=
  match v with
  | VUndefined | VNull => Throw TypeError
  | VObj props => Ok (match lookup k props with Some _ => true | None => false end)
  | VArr items =>
      Ok (String.eqb k "length" ||
          match arrayIndex k with
          | Some i => (N.to_nat i <? List.length items)%nat
          | None => false
          end)
  | VStr s =>
      Ok (String.eqb k "length" ||
          match arrayIndex k with
          | Some i => (N.to_nat i <? String.length s)%nat
          | None => false
          end)
  | VBool _ | VNum _ => Ok false
  end.

(** [Object.keys(o)] of a mapping: each own key once, in insertion order. *)
Fixpoint dedup (seen : list string) (ks : list string) : list string :=
  match ks with
  | [] => []
  | k :: rest =>
      if existsb (String.eqb k) seen then dedup seen rest
      else k :: dedup (k :: seen) rest
  end.

Definition Object_keys (props : list (string * Value)) : list string :=
  dedup [] (map fst props).

(** [String(v)].  An array is its elements joined by commas, [null] and
    [undefined] elements contributing nothing; a mapping is
    ["[object Object]"] unless an own [toString] property (never callable
    in JSON data) shadows the built-in conversion, which raises. *)
Fixpoint js_String (v : Value) : Result string :=
  match v with
  | VUndefined => Ok "undefined"
  | VNull => Ok "null"
  | VBool true => Ok "true"
  | VBool false => Ok "false"
  | VNum n => Ok (Z_toString n)
  | VStr s => Ok s
  | VArr items =>
      parts <- (fix elems (xs : list Value) : Result (list string) :=
                  match xs with
                  | [] => Ok []
                  | x :: rest =>
                      p <- (if nullish x then Ok EmptyString else js_String x) ;;
                      ps <- elems rest ;;
                      Ok (p :: ps)
                  end) items ;;
      Ok (join "," parts)
  | VObj props =>
      match lookup "toString" props with
      | Some _ => Throw TypeError
      | None => Ok "[object Object]"
      end
  end.

(* ------------------------------------------------------------------ *)
(** ** Path resolver: [getValueAtPath] *)

Inductive Token : Type :=
| TName (s : string)     (* [m[0]], pushed as a string *)
| TIndex (n : N).        (* [Number(m[1])] for a [[digits]] match *)

Definition isDigit (c : ascii) : bool :=
  let n := nat_of_ascii c in (48 <=? n)%nat && (n <=? 57)%nat.

(** The characters the first alternative of the pattern excludes. *)
Definition isDelimiter (c : ascii) : bool :=
  Ascii.eqb c "." || Ascii.eqb c "[" || Ascii.eqb c "]".

Definition snoc (s : string) (c : ascii) : string := s ++ String c EmptyString.

Definition flush (pending : string) : list Token :=
  if nonEmpty pending then [TName pending] else [].

(** The successive matches of [/[^.[\]]+|\[(\d+)\]/g] against the path.
    [pending] is the text of the match in progress.  Outside a bracket it
    is a run of non-delimiters, closed by the next delimiter.  After a
    ["["] ([inBracket]) it is the digits read so far: a ["]"] after at
    least one digit completes an index match; anything else makes the
    second alternative fail, the ["["] is passed over, and the digits
    already read open a name match.  Every match consumes at least one
    character, so the [while] loop over [re.exec] ends. *)
Fixpoint scan (path : string) (inBracket : bool) (pending : string) : list Token :=
  match path with
  | EmptyString => flush pending
  | String c rest =>
      if inBracket then
        if isDigit c then scan rest true (snoc pending c)
        else if Ascii.eqb c "]" then
          if nonEmpty pending
          then TIndex (Number_of_digits pending) :: scan rest false EmptyString
          else scan rest false EmptyString
        else if Ascii.eqb c "[" then flush pending ++ scan rest true EmptyString
        else if Ascii.eqb c "." then flush pending ++ scan rest false EmptyString
        else scan rest false (snoc pending c)
      else
        if Ascii.eqb c "[" then flush pending ++ scan rest true EmptyString
        else if isDelimiter c then flush pending ++ scan rest false EmptyString
        else scan rest false (snoc pending c)
  end.

Definition tokenize (path : string) : list Token := scan path false EmptyString.

(** The loop [for (const t of tokens)] of [getValueAtPath]. *)
Fixpoint walk (tokens : list Token) (cur : Value) : Result Value :=
  match tokens with
  | [] => Ok cur
  | t :: rest =>
      if nullish cur then Ok VUndefined
      else match t with
           | TIndex n =>
               if negb (isArray cur) then Ok VUndefined
               else next <- getIndex cur n ;; walk rest next
           | TName s =>
               if negb (JsType_eqb (typeof cur) TyObject) then Ok VUndefined
               else next <- get cur s ;; walk rest next
           end
  end.

Definition getValueAtPath (obj : Value) (path : string) : Result Value :=
  if negb (nonEmpty path) then Ok VUndefined
  else if nullish obj then Ok VUndefined
  else walk (tokenize path) obj.

(* ------------------------------------------------------------------ *)
(** ** Record extractor: [extractRecords] *)

Record Extraction : Type := {
  records : list Value;
  sourcePath : option string    (* [None] is [null] *)
}.

Definition candidateKeys : list string :=
  [ "items"; "results"; "data"; "value"; "records"; "issues"; "rfis";
    "submittals"; "Issues"; "RFIs"; "Submittals"; "Items"; "Results";
    "Data"; "Value"; "Records" ].

(** The loop [for (const key of candidateKeys)]: the first key whose value
    is an array, with that array. *)
Fixpoint findContainer (json : Value) (keys : list string)
  : Result (option (string * list Value)) :=
  match keys with
  | [] => Ok None
  | key :: rest =>
      v <- get json key ;;
      match v with
      | VArr arr => Ok (Some (key, arr))
      | _ => findContainer json rest
      end
  end.

Definition extractRecords (json : Value) : Result Extraction :=
  match json with
  | VArr items =>
      Ok {| records := filter isObjectLike items; sourcePath := Some "$" |}
  | _ =>
      if isObjectLike json then
        found <- findContainer json candidateKeys ;;
        match found with
        | Some (key, arr) =>
            Ok {| records := filter isObjectLike arr;
                  sourcePath := Some ("$." ++ key)%string |}
        | None => Ok {| records := [json]; sourcePath := Some "$" |}
        end
      else Ok {| records := []; sourcePath := None |}
  end.

(* ------------------------------------------------------------------ *)
(** ** Type classifier: [detectRecordTypeFromObject], [detectRecordType] *)

Inductive RecordType : Type :=
| Issue | RFI | Submittal | Generic.

Definition RecordType_eqb (a b : RecordType) : bool :=
  match a, b with
  | Issue, Issue | RFI, RFI | Submittal, Submittal | Generic, Generic => true
  | _, _ => false
  end.

(** [None] is the [null] of the source. *)
Fixpoint firstString (obj : Value) (keys : list string) : Result (option string) :=
  match keys with
  | [] => Ok None
  | k :: rest =>
      if isObjectLike obj then
        v <- get obj k ;;
        match v with
        | VStr s =>
            if nonEmpty (trim s) then Ok (Some (trim s)) else firstString obj rest
        | _ => firstString obj rest
        end
      else firstString obj rest
  end.

(** [keys.some((k) => Object.prototype.hasOwnProperty.call(obj, k))] *)
Fixpoint hasAny (obj : Value) (keys : list string) : Result bool :=
  match keys with
  | [] => Ok false
  | k :: rest =>
      b <- hasOwnProperty obj k ;;
      if b then Ok true else hasAny obj rest
  end.

(** [a && b] and [a || b] on operands that may raise: the right operand
    runs only when the left one does not decide. *)
Definition andM (a b : Result bool) : Result bool :=
  x <- a ;; if x then b else Ok false.

Definition orM (a b : Result bool) : Result bool :=
  x <- a ;; if x then Ok true else b.

Definition hintFields : list string :=
  [ "type"; "Type"; "entity"; "Entity"; "resource"; "Resource";
    "recordType"; "RecordType" ].

(** The explicit hint, step 1 of the classifier: [None] when no marker is
    recognised and the shape heuristics decide. *)
Definition typeOfHint (hint : option string) : option RecordType :=
  match hint with
  | Some h =>
      let norm := toLowerCase h in
      if includes norm "issue" then Some Issue
      else if String.eqb norm "rfi" || includes norm "request for information"
      then Some RFI
      else if includes norm "submittal" then Some Submittal
      else None
  | None => None
  end.

Definition detectRecordTypeFromObject (obj : Value) : Result RecordType :=
  if negb (isMapping obj) then Ok Generic
  else
    hint <- firstString obj hintFields ;;
    match typeOfHint hint with
    | Some ty => Ok ty
    | None =>
        let has k := hasOwnProperty obj k in
        issueSignals <-
          andM (orM (has "Title") (has "title"))
            (andM (orM (has "Status") (has "status"))
               (andM (orM (has "Priority") (has "priority"))
                  (orM (has "AssignedTo")
                     (orM (has "assignedTo")
                        (orM (has "Author") (has "author")))))) ;;
        issueExtraSignals <-
          orM (has "Viewpoints")
            (orM (has "viewpoints")
               (orM (has "Disciplines")
                  (orM (has "disciplines")
                     (orM (has "History") (has "history"))))) ;;
        if issueSignals && issueExtraSignals then Ok Issue
        else
          rfiSignals <-
            orM (hasAny obj ["Question"; "question"; "RfiQuestion"; "rfiQuestion"])
              (orM (hasAny obj ["Answer"; "answer"; "Response"; "response"])
                 (andM (hasAny obj ["BallInCourt"; "ballInCourt"; "DueDate"; "dueDate"])
                       (hasAny obj ["RfiNumber"; "rfiNumber"; "RfiId"; "rfiId"]))) ;;
          if rfiSignals then Ok RFI
          else
            submittalSignals <-
              orM (hasAny obj ["SpecSection"; "specSection"; "SpecificationSection"])
                (orM (hasAny obj ["Revision"; "revision"; "RevisionNumber"])
                   (orM (hasAny obj ["SubmittalNumber"; "submittalNumber";
                                     "SubmittalId"; "submittalId"])
                      (andM (hasAny obj ["ReviewStatus"; "reviewStatus";
                                         "ReviewDate"; "reviewDate"])
                            (hasAny obj ["DueDate"; "dueDate"])))) ;;
            if submittalSignals then Ok Submittal else Ok Generic
    end.

(** The members of [new Set(types)], in insertion order. *)
Fixpoint distinctTypes (seen : list RecordType) (types : list RecordType)
  : list RecordType :=
  match types with
  | [] => []
  | t :: rest =>
      if existsb (RecordType_eqb t) seen then distinctTypes seen rest
      else t :: distinctTypes (t :: seen) rest
  end.

Definition detectRecordType (json : Value) : Result RecordType :=
  ex <- extractRecords json ;;
  match records ex with
  | [] => Ok Generic
  | recs =>
      types <- mapM detectRecordTypeFromObject recs ;;
      match distinctTypes [] types with
      | [t] => Ok t
      | _ => Ok Generic
      end
  end.

(* ------------------------------------------------------------------ *)
(** ** Dataset detection: [isLargeFlatArrayDataset] *)

(** [Object.keys(v)]: raises on [null] and [undefined]. *)
Definition Object_keys_of (v : Value) : Result (list string) :=
  match v with
  | VUndefined | VNull => Throw TypeError
  | VObj props => Ok (Object_keys props)
  | VArr items => Ok (map (fun i => N_toString (N.of_nat i)) (seq 0 (List.length items)))
  | VStr s => Ok (map (fun i => N_toString (N.of_nat i)) (seq 0 (String.length s)))
  | VBool _ | VNum _ => Ok []
  end.

(** [num / den >= p / q] and [num / den <= p / q] for positive [den] and
    [q].  The source compares the double nearest to [num / den] with the
    double nearest to [p / q] (0.6, or 0.25 which is exact); rounding is
    monotone and no quotient of counts below 2^53 lies strictly between a
    bound and its double, so the comparison of the exact quotients decides
    the same. *)
Definition ratio_geb (num den p q : nat) : bool := (p * den <=? q * num)%nat.
Definition ratio_leb (num den p q : nat) : bool := (q * num <=? p * den)%nat.

(** [s.has(k)] for the key set of one sampled object. *)
Definition setHas (s : list string) (k : string) : bool := existsb (String.eqb k) s.

(** Number of key sets holding [k]: the inner loop [for (const s of keySets)]. *)
Definition keyHits (keySets : list (list string)) (k : string) : nat :=
  List.length (filter (fun s => setHas s k) keySets).

(** The loops over the sample counting fields and nested fields. *)
Fixpoint countNested (o : Value) (keys : list string) (acc : nat * nat)
  : Result (nat * nat) :=
  match keys with
  | [] => Ok acc
  | k :: rest =>
      v <- get o k ;;
      let '(totalVals, nestedVals) := acc in
      countNested o rest
        (S totalVals, if isObjectLike v then S nestedVals else nestedVals)
  end.

Definition countValues (sample : list Value) : Result (nat * nat) :=
  foldM (fun acc o => keys <- Object_keys_of o ;; countNested o keys acc)
        sample (0, 0)%nat.

Definition isLargeFlatArrayDataset (json : Value) : Result bool :=
  match json with
  | VArr items =>
      if (List.length items <? 80)%nat then Ok false
      else
        let sample := firstn 25 (filter isMapping items) in
        if (List.length sample <? 10)%nat then Ok false
        else
          keySets <- mapM Object_keys_of sample ;;
          let allKeys := dedup [] (List.concat keySets) in
          if (List.length allKeys =? 0)%nat then Ok false
          else
            let commonCount :=
              List.length
                (filter (fun k => ratio_geb (keyHits keySets k)
                                            (List.length keySets) 3 5)
                        allKeys) in
            counts <- countValues sample ;;
            let '(totalVals, nestedVals) := counts in
            let nestedOk :=
              if (totalVals =? 0)%nat then false   (* nestedRatio = 1 *)
              else ratio_leb nestedVals totalVals 1 4 in
            Ok (ratio_geb commonCount (List.length allKeys) 1 4 && nestedOk)
  | _ => Ok false
  end.

(* ------------------------------------------------------------------ *)
(** ** Template validation: [validateTemplate] *)

Record Validation : Type := {
  ok : bool;
  error : option string       (* [None] is [null] *)
}.

Definition valid : Validation := {| ok := true; error := None |}.
Definition invalid (msg : string) : Validation := {| ok := false; error := Some msg |}.

(** [typeof v === 'string' && v.trim()] as a condition. *)
Definition isNonBlankString (v : Value) : bool :=
  match v with
  | VStr s => nonEmpty (trim s)
  | _ => false
  end.

Definition idx (i : nat) : string := N_toString (N.of_nat i).

(** The loop over [section.fields.entries()]: the error of the first
    offending field, if any. *)
Fixpoint validateFields (si fi : nat) (fields : list Value) : Result (option string) :=
  match fields with
  | [] => Ok None
  | f :: rest =>
      let here := ("layout[" ++ idx si ++ "].fields[" ++ idx fi ++ "]")%string in
      if negb (isMapping f) then Ok (Some (here ++ " must be an object.")%string)
      else
        p <- get f "path" ;;
        if negb (isNonBlankString p)
        then Ok (Some (here ++ ".path must be a string.")%string)
        else
          l <- get f "label" ;;
          if negb (isNonBlankString l)
          then Ok (Some (here ++ ".label must be a string.")%string)
          else validateFields si (S fi) rest
  end.

(** The loop over [t.layout.entries()]. *)
Fixpoint validateSections (si : nat) (layout : list Value) : Result (option string) :=
  match layout with
  | [] => Ok None
  | section :: rest =>
      let here := ("layout[" ++ idx si ++ "]")%string in
      if negb (isMapping section) then Ok (Some (here ++ " must be an object.")%string)
      else
        s <- get section "section" ;;
        if negb (isNonBlankString s)
        then Ok (Some (here ++ ".section must be a string.")%string)
        else
          fs <- get section "fields" ;;
          match fs with
          | VArr fields =>
              e <- validateFields si 0 fields ;;
              match e with
              | Some msg => Ok (Some msg)
              | None => validateSections (S si) rest
              end
          | _ => Ok (Some (here ++ ".fields must be an array.")%string)
          end
  end.

(** The check of an optional block ([match], [recordLabel]) and of the one
    array it may carry. *)
Definition validateBlock (t : Value) (block inner : string) : Result (option string) :=
  b <- get t block ;;
  if nullish b then Ok None
  else if negb (JsType_eqb (typeof b) TyObject) || isArray b
  then Ok (Some (block ++ " must be an object if provided.")%string)
  else
    a <- get b inner ;;
    if negb (nullish a) && negb (isArray a)
    then Ok (Some (block ++ "." ++ inner ++ " must be an array if provided.")%string)
    else Ok None.

Definition validateTemplate (t : Value) : Result Validation :=
  if negb (isMapping t) then Ok (invalid "Template must be a JSON object.")
  else
    ver <- get t "templateVersion" ;;
    match ver with
    | VNum 1 =>
        nm <- get t "templateName" ;;
        if negb (isNonBlankString nm)
        then Ok (invalid "templateName must be a non-empty string.")
        else
          lay <- get t "layout" ;;
          match lay with
          | VArr layout =>
              e <- validateSections 0 layout ;;
              match e with
              | Some msg => Ok (invalid msg)
              | None =>
                  em <- validateBlock t "match" "requiredKeys" ;;
                  match em with
                  | Some msg => Ok (invalid msg)
                  | None =>
                      el <- validateBlock t "recordLabel" "fields" ;;
                      match el with
                      | Some msg => Ok (invalid msg)
                      | None => Ok valid
                      end
                  end
              end
          | _ => Ok (invalid "layout must be an array of sections.")
          end
    | _ => Ok (invalid "templateVersion must be 1.")
    end.

(* ------------------------------------------------------------------ *)
(** ** Template matcher: [templateMatchesRecord] *)

(** The loop [for (const k of m.requiredKeys)]: [false] is the early
    [return false]. *)
Fixpoint hasRequiredKeys (record : Value) (keys : list Value) : Result bool :=
  match keys with
  | [] => Ok true
  | k :: rest =>
      match k with
      | VStr s =>
          if negb (nonEmpty (trim s)) then hasRequiredKeys record rest
          else
            b <- hasOwnProperty record s ;;
            if b then hasRequiredKeys record rest else Ok false
      | _ => hasRequiredKeys record rest
      end
  end.

Definition templateMatchesRecord (tpl record : Value) : Result bool :=
  if negb (isObjectLike tpl) then Ok false
  else if negb (isObjectLike record) then Ok false
  else
    m <- get tpl "match" ;;
    if negb (isObjectLike m) then Ok true     (* no match block *)
    else
      rk <- get m "requiredKeys" ;;
      keysOk <- match rk with
                | VArr keys => hasRequiredKeys record keys
                | _ => Ok true
                end ;;
      if negb keysOk then Ok false
      else
        tf <- get m "typeField" ;;
        tv <- get m "typeValue" ;;
        match tf with
        | VStr typeField =>
            if nonEmpty (trim typeField) && negb (nullish tv) then
              let field := trim typeField in
              s <- js_String tv ;;
              let expected := trim s in
              actual <- get record field ;;
              if nullish actual then Ok false
              else
                a <- js_String actual ;;
                if negb (String.eqb (trim a) expected) then Ok false
                else Ok true
            else Ok true
        | _ => Ok true
        end.

(* ------------------------------------------------------------------ *)
(** ** Markup *)

(** One [<div class="kvlist-row">]: the label, the text, whether the label
    carries a [title] attribute and whether the text has class [is-empty]. *)
Record KvRow : Type := {
  rowKey : string;
  rowText : string;
  rowTitled : bool;
  rowIsEmpty : bool
}.

(** The markup the renderers build, as a tree.  A node stands for the
    string the source assembles at that point; the text a node carries is
    the text before [escapeHtml].  A helper whose result is tested for
    the empty string returns an [option Markup], [None] being the empty
    string; a body that may be empty is a node without parts. *)
Inductive Markup : Type :=
| KvList (rows : list KvRow)
    (* [<div class="kvlist">rows</div>] *)
| NullBadge
    (* [<span class="badge">null</span>] *)
| Badge (text : string)
    (* [<span class="badge">text</span>] *)
| Text (s : string)
    (* [escapeHtml(s)], [s] not empty *)
| Anchor (url : string)
    (* [<a href="url" target="_blank" rel="noreferrer">url</a>] *)
| DateText (s : string)
    (* [escapeHtml(formatDateTime(s))] for a string [s] that is not empty:
       [s] itself, or the local date and time it denotes *)
| SummaryText (value : Value)
    (* [escapeHtml(summarizeTopLevel(value))] *)
| JsonText (value : Value)
    (* [escapeHtml(JSON.stringify(value, null, 2))] *)
| EmptyState (text : string)
    (* [<div class="empty-state">text</div>] *)
| CollapsedArray (items : list Value) (body : Markup)
    (* the closed block of an array: the button [Expand array (n)], the
       preview of [items] and the hidden [body] *)
| CollapsedObject (props : list (string * Value)) (body : Markup)
    (* the closed block of an object: the button [Expand object (n keys)],
       the preview of [props] and the hidden [body] *)
| ObjectKv (preferred others : list Markup)
    (* the rows of [renderObjectAsKv]: those of the preferred keys, then
       those of the other keys; [others] lists the latter in key order
       and stands for them laid out in [localeCompare] order of the keys *)
| ArrayList (count : nat) (items : list Markup)
    (* the meta row of an array of [count] elements, the note on the cap
       when [count] exceeds it, and the items shown *)
| ArrayItem (row : option Markup)
    (* [<div class="array-item">row</div>] *)
| ArrayItemCard (summary : string) (body : Markup)
    (* the closed card of an object item, titled [summary] *)
| KV (key : string) (value : Markup)
    (* the row [<div class="kv">] of [renderKV] and [renderKVHtml] *)
| Card (title chevron : string) (body : list Markup)
    (* a static [<div class="card">] *)
| CollapsibleCard (title : string) (open : bool) (bodyParts : list Markup)
    (* [renderCollapsibleCard(title, open, bodyParts)], the empty strings
       of [bodyParts] dropped *)
| Joined (parts : list Markup).
    (* [parts.join('')] *)

(* ------------------------------------------------------------------ *)
(** ** kvlist shaping: [renderKvListValue]

    The source declares [renderKvListValue] four times.  The script is a
    classic one, so the last declaration (line 2690) is the function every
    call reaches; the three before it agree with each other and differ
    from the last in the [showEmpty] handling.  [renderKvListValue] is the
    last declaration, [renderKvListValue_overridden] the one at line 2590. *)

(** [String(c.itemKeyPath || 'Name').trim() || 'Name'] *)
Definition kvItemKeyPath (c : Value) : Result string :=
  v <- get c "itemKeyPath" ;;
  s <- js_String (js_or v (VStr "Name")) ;;
  Ok (if nonEmpty (trim s) then trim s else "Name").

Definition defaultValuePaths : list string :=
  [ "TextValue"; "PredefinedValues.Name"; "PredefinedValues[0].Name" ].

Definition kvValuePaths (c : Value) : Result (list string) :=
  v <- get c "valuePaths" ;;
  match v with
  | VArr (p :: ps) =>
      trimmed <- mapM (fun p => s <- js_String (js_or p (VStr "")) ;; Ok (trim s))
                      (p :: ps) ;;
      Ok (filter nonEmpty trimmed)
  | _ => Ok defaultValuePaths
  end.

(** [Number.isFinite(c.maxItems) ? Math.max(1, c.maxItems) : 6]; the
    overridden declarations floor the number first, which changes nothing
    on an integer. *)
Definition kvMaxItems (c : Value) : Result Z :=
  v <- get c "maxItems" ;;
  match v with
  | VNum n => Ok (Z.max 1 n)
  | _ => Ok 6%Z
  end.

(** [x && typeof x === 'object' ? x.Name ?? x.name : x] *)
Definition nameOf (x : Value) : Result Value :=
  if isObjectLike x then
    n <- get x "Name" ;;
    if nullish n then get x "name" else Ok n
  else Ok x.

(** The names of an array value, trimmed, the empty ones dropped. *)
Definition namesOf (v : list Value) : Result (list string) :=
  picked <- mapM nameOf v ;;
  texts <- mapM (fun x => s <- js_String x ;; Ok (trim s))
                (filter (fun x => negb (nullish x)) picked) ;;
  Ok (filter nonEmpty texts).

(** The loop [for (const vp of valuePaths)]: the final [val], [VNull] when
    no path yields content. *)
Fixpoint findValue (item : Value) (valuePaths : list string) : Result Value :=
  match valuePaths with
  | [] => Ok VNull
  | vp :: rest =>
      v <- getValueAtPath item vp ;;
      match v with
      | VArr xs =>
          names <- namesOf xs ;;
          match names with
          | [] => findValue item rest
          | _ => Ok (VStr (join ", " names))
          end
      | _ =>
          if nullish v then findValue item rest
          else
            s <- js_String v ;;
            if nonEmpty (trim s) then Ok v else findValue item rest
      end
  end.

(** [kRaw == null ? '' : String(kRaw).trim()] *)
Definition kvKey (item : Value) (itemKeyPath : string) : Result string :=
  kRaw <- getValueAtPath item itemKeyPath ;;
  if nullish kRaw then Ok EmptyString
  else s <- js_String kRaw ;; Ok (trim s).

(** [val == null || String(val).trim() === ''] *)
Definition isBlank (val : Value) : Result bool :=
  if nullish val then Ok true
  else s <- js_String val ;; Ok (negb (nonEmpty (trim s))).

(** The loop [for (const item of arrValue)] of the last declaration. *)
Fixpoint kvRows (itemKeyPath : string) (valuePaths : list string) (maxItems : Z)
    (items : list Value) (rows : list KvRow) : Result (list KvRow) :=
  match items with
  | [] => Ok rows
  | item :: rest =>
      if negb (isMapping item) then kvRows itemKeyPath valuePaths maxItems rest rows
      else
        key <- kvKey item itemKeyPath ;;
        if negb (nonEmpty key) then kvRows itemKeyPath valuePaths maxItems rest rows
        else
          val <- findValue item valuePaths ;;
          blank <- isBlank val ;;
          if blank then kvRows itemKeyPath valuePaths maxItems rest rows
          else
            text <- js_String val ;;
            let rows' := rows ++ [ {| rowKey := key; rowText := text;
                                      rowTitled := false; rowIsEmpty := false |} ] in
            if (maxItems <=? Z.of_nat (List.length rows'))%Z then Ok rows'
            else kvRows itemKeyPath valuePaths maxItems rest rows'
  end.

Definition renderKvListValue (arrValue cfg : Value) : Result (option Markup) :=
  match arrValue with
  | VArr (item :: more) =>
      let c := js_or cfg (VObj []) in
      itemKeyPath <- kvItemKeyPath c ;;
      valuePaths <- kvValuePaths c ;;
      maxItems <- kvMaxItems c ;;
      rows <- kvRows itemKeyPath valuePaths maxItems (item :: more) [] ;;
      match rows with
      | [] => Ok None
      | _ => Ok (Some (KvList rows))
      end
  | _ => Ok None
  end.

(** The loop of the declaration at line 2590, with [showEmpty] and
    [emptyText]. *)
Fixpoint kvRows_overridden (itemKeyPath : string) (valuePaths : list string)
    (maxItems : Z) (showEmpty : bool) (emptyText : string)
    (items : list Value) (rows : list KvRow) : Result (list KvRow) :=
  match items with
  | [] => Ok rows
  | item :: rest =>
      let continue :=
        kvRows_overridden itemKeyPath valuePaths maxItems showEmpty emptyText rest in
      if negb (isMapping item) then continue rows
      else
        key <- kvKey item itemKeyPath ;;
        if negb (nonEmpty key) then continue rows
        else
          val <- findValue item valuePaths ;;
          blank <- isBlank val ;;
          finalText <- (if blank
                        then Ok (if showEmpty then emptyText else EmptyString)
                        else js_String val) ;;
          if negb (nonEmpty finalText) then continue rows
          else
            let rows' := rows ++ [ {| rowKey := key; rowText := finalText;
                                      rowTitled := true;
                                      rowIsEmpty := String.eqb finalText emptyText |} ] in
            if (maxItems <=? Z.of_nat (List.length rows'))%Z then Ok rows'
            else continue rows'
  end.

Definition renderKvListValue_overridden (arrValue cfg : Value)
  : Result (option Markup) :=
  match arrValue with
  | VArr (item :: more) =>
      let c := js_or cfg (VObj []) in
      itemKeyPath <- kvItemKeyPath c ;;
      valuePaths <- kvValuePaths c ;;
      maxItems <- kvMaxItems c ;;
      se <- get c "showEmpty" ;;
      let showEmpty := truthy se in
      et <- get c "emptyText" ;;
      let emptyText :=
        match et with
        | VStr s => if nonEmpty (trim s) then trim s else "(empty)"
        | _ => "(empty)"
        end in
      rows <- kvRows_overridden itemKeyPath valuePaths maxItems showEmpty emptyText
                (item :: more) [] ;;
      match rows with
      | [] => Ok None
      | _ => Ok (Some (KvList rows))
      end
  | _ => Ok None
  end.

(* ------------------------------------------------------------------ *)
(** ** Field hits: [countTemplateFieldHits] *)

(** The loop [for (const f of fields)]. *)
Fixpoint countFieldHits (record : Value) (fields : list Value) (hits : nat)
  : Result nat :=
  match fields with
  | [] => Ok hits
  | f :: rest =>
      if negb (isObjectLike f) then countFieldHits record rest hits
      else
        fp <- get f "path" ;;
        s <- js_String (js_or fp (VStr "")) ;;
        let p := trim s in
        if negb (nonEmpty p) then countFieldHits record rest hits
        else
          v <- getValueAtPath record p ;;
          match v with
          | VUndefined => countFieldHits record rest hits
          | _ =>
              ff <- get f "format" ;;
              fs <- js_String (js_or ff (VStr "text")) ;;
              let fmt := toLowerCase (trim fs) in
              if String.eqb fmt "kvlist" then
                html <- renderKvListValue v f ;;
                match html with
                | Some _ => countFieldHits record rest (S hits)
                | None => countFieldHits record rest hits
                end
              else countFieldHits record rest (S hits)
          end
  end.

(** The loop [for (const sec of template.layout)]. *)
Fixpoint countSectionHits (record : Value) (layout : list Value) (hits : nat)
  : Result nat :=
  match layout with
  | [] => Ok hits
  | sec :: rest =>
      if negb (isObjectLike sec) then countSectionHits record rest hits
      else
        fs <- get sec "fields" ;;
        let fields := match fs with VArr l => l | _ => [] end in
        hits' <- countFieldHits record fields hits ;;
        countSectionHits record rest hits'
  end.

Definition countTemplateFieldHits (template record : Value) : Result nat :=
  if negb (isObjectLike template) then Ok 0%nat
  else if negb (isObjectLike record) then Ok 0%nat
  else
    lay <- get template "layout" ;;
    match lay with
    | VArr layout => countSectionHits record layout 0
    | _ => Ok 0%nat
    end.

(* ------------------------------------------------------------------ *)
(** ** Template registry and selection *)

(** An entry of [state.templates]. *)
Record TemplateEntry : Type := {
  tplId : string;            (* [id] *)
  tplName : string;          (* [name] *)
  rawText : string;
  template : Value;
  sourceFileName : string
}.






(** [m && Array.isArray(m.requiredKeys) ? m.requiredKeys.filter(Boolean).length : 0]
    for [m] the match block of [tpl], [null] when [tpl] is not an object. *)
Definition matchBlock (tpl : Value) : Result Value :=
  if isObjectLike tpl then get tpl "match" else Ok VNull.

Definition requiredKeysCount (tpl : Value) : Result nat :=
  m <- matchBlock tpl ;;
  if truthy m then
    rk <- get m "requiredKeys" ;;
    match rk with
    | VArr keys => Ok (List.length (filter truthy keys))
    | _ => Ok 0%nat
    end
  else Ok 0%nat.

(** [Boolean(m && typeof m.typeField === 'string' && m.typeField.trim())] *)
Definition hasTypeField (tpl : Value) : Result bool :=
  m <- matchBlock tpl ;;
  if truthy m then
    tf <- get m "typeField" ;;
    Ok (isNonBlankString tf)
  else Ok false.

(** [hits * 1000 + requiredKeysCount * 10 + (hasTypeField ? 100 : 0)] *)
Definition scoreOf (hits requiredKeys : nat) (typeField : bool) : Z :=
  (Z.of_nat hits * 1000 + Z.of_nat requiredKeys * 10 + (if typeField then 100 else 0))%Z.




(* ------------------------------------------------------------------ *)
(** ** Notions the properties are stated with *)

(** *** Paths *)

Fixpoint allChars (p : ascii -> bool) (s : string) : bool :=
  match s with
  | EmptyString => true
  | String c rest => p c && allChars p rest
  end.

(** A name segment: non-empty, free of ["."], ["["] and ["]"]. *)
Definition wellFormedToken (t : Token) : bool :=
  match t with
  | TName s => nonEmpty s && allChars (fun c => negb (isDelimiter c)) s
  | TIndex _ => true
  end.

(** A path of the grammar: at least one segment, names well formed. *)
Definition wellFormedPath (tokens : list Token) : bool :=
  match tokens with
  | [] => false
  | _ => forallb wellFormedToken tokens
  end.

(** The text of a path: a name follows what precedes it after a dot, an
    index is appended in brackets. *)
Fixpoint printSegments (tokens : list Token) : string :=
  match tokens with
  | [] => EmptyString
  | TName s :: rest => "." ++ s ++ printSegments rest
  | TIndex n :: rest => "[" ++ N_toString n ++ "]" ++ printSegments rest
  end.

Definition printPath (tokens : list Token) : string :=
  match tokens with
  | TName s :: rest => s ++ printSegments rest
  | _ => printSegments tokens
  end.

(** Traversal as the specification words it, with what the code does on
    an array under a name segment: segment by segment; nothing once the
    current value is [null] or [undefined]; an index segment only enters an
    array; a name segment reads an own property of a mapping or of an
    array and yields nothing on a primitive. *)
Fixpoint resolve (tokens : list Token) (cur : Value) : Value :=
  match tokens with
  | [] => cur
  | t :: rest =>
      match cur with
      | VUndefined | VNull => VUndefined
      | VArr items =>
          match t with
          | TIndex n => resolve rest (nth (N.to_nat n) items VUndefined)
          | TName s => resolve rest (ownProperty cur s)
          end
      | VObj props =>
          match t with
          | TIndex _ => VUndefined
          | TName s =>
              resolve rest (match lookup s props with
                            | Some x => x
                            | None => VUndefined
                            end)
          end
      | VBool _ | VNum _ | VStr _ => VUndefined
      end
  end.



(** *** Template selection *)



(** The score Auto gives an entry for a record, [None] when the entry is
    not considered: it does not match, or none of its fields is found. *)
Definition candidateScore (record : Value) (e : TemplateEntry) : Result (option Z) :=
  matches <- templateMatchesRecord (template e) record ;;
  if matches then
    hits <- countTemplateFieldHits (template e) record ;;
    if (1 <=? hits)%nat then
      rk <- requiredKeysCount (template e) ;;
      tf <- hasTypeField (template e) ;;
      Ok (Some (scoreOf hits rk tf))
    else Ok None
  else Ok None.




(** *** Data on which conversions cannot raise *)

(** No mapping inside the value has an own [toString] key. *)
Fixpoint plain (v : Value) : bool :=
  match v with
  | VArr items => forallb plain items
  | VObj props =>
      match lookup "toString" props with
      | Some _ => false
      | None => forallb (fun kv => plain (snd kv)) props
      end
  | _ => true
  end.

(** *** Match blocks and layouts *)

(** The match block declares nothing: it is absent, or it lists no required
    key and lacks [typeField] or [typeValue]. *)
Definition declaresNoMatch (tpl : Value) : bool :=
  let m := ownProperty tpl "match" in
  negb (isObjectLike m) ||
  ((match ownProperty m "requiredKeys" with
    | VUndefined | VNull | VArr [] => true
    | _ => false
    end) &&
   (nullish (ownProperty m "typeField") || nullish (ownProperty m "typeValue"))).




(** *** Dataset sample *)

Definition sampleOf (items : list Value) : list Value :=
  firstn 25 (filter isMapping items).

Definition keysOfMapping (o : Value) : list string :=
  match o with
  | VObj props => Object_keys props
  | _ => []
  end.

(** All keys observed in the sample, each once. *)
Definition observedKeys (sample : list Value) : list string :=
  dedup [] (List.concat (map keysOfMapping sample)).

Definition hasKey (o : Value) (k : string) : bool :=
  match o with
  | VObj props => existsb (fun kv => String.eqb k (fst kv)) props
  | _ => false
  end.

(** Number of sampled items holding key [k]. *)
Definition presence (sample : list Value) (k : string) : nat :=
  List.length (filter (fun o => hasKey o k) sample).

(** Keys present in at least 60% of the sampled items. *)
Definition commonKeys (sample : list Value) : list string :=
  filter (fun k => (3 * List.length sample <=? 5 * presence sample k)%nat)
         (observedKeys sample).

(** Fields, and object- or array-valued fields, across the sample. *)
Definition fieldCount (sample : list Value) : nat :=
  list_sum (map (fun o => List.length (keysOfMapping o)) sample).

Definition nestedFieldCount (sample : list Value) : nat :=
  list_sum (map (fun o =>
                   List.length (filter (fun k => isObjectLike (ownProperty o k))
                                       (keysOfMapping o)))
                sample).

(** The dataset of the specification's example: 100 rows, 10 keys
    observed in the 25-row sample, 8 of them in every sampled row and 2 in
    five rows only; 21 of the 210 sampled fields are nested. *)
Definition wideRow : Value :=
  VObj [ ("id", VObj [("n", VNum 1)]); ("name", VStr "a"); ("status", VStr "Open");
         ("type", VStr "t"); ("size", VNum 3); ("owner", VStr "o");
         ("created", VStr "c"); ("updated", VStr "u");
         ("note", VStr "n"); ("extra", VNull) ].

Definition nestedRow : Value :=
  VObj [ ("id", VObj [("n", VNum 1)]); ("name", VStr "a"); ("status", VStr "Open");
         ("type", VStr "t"); ("size", VNum 3); ("owner", VStr "o");
         ("created", VStr "c"); ("updated", VStr "u") ].

Definition flatRow : Value :=
  VObj [ ("id", VNum 1); ("name", VStr "a"); ("status", VStr "Open");
         ("type", VStr "t"); ("size", VNum 3); ("owner", VStr "o");
         ("created", VStr "c"); ("updated", VStr "u") ].

Definition exampleRows : list Value :=
  repeat wideRow 5 ++ repeat nestedRow 16 ++ repeat flatRow 79.

(** A valid template without match block: one section, one field. *)
Definition plainTemplate : Value :=
  VObj [ ("templateVersion", VNum 1);
         ("templateName", VStr "Any");
         ("layout",
          VArr [ VObj [ ("section", VStr "Main");
                        ("fields",
                         VArr [ VObj [ ("path", VStr "a"); ("label", VStr "A") ] ]) ] ]) ].

(** The two templates of the specification's selection example, and a
    record both match: [broadTemplate] shows three fields and requires one
    key, [narrowTemplate] shows one field and requires three keys. *)
Definition field (path label : string) : Value :=
  VObj [ ("path", VStr path); ("label", VStr label) ].

Definition broadTemplate : Value :=
  VObj [ ("templateVersion", VNum 1);
         ("templateName", VStr "Broad");
         ("match", VObj [ ("requiredKeys", VArr [ VStr "Title" ]) ]);
         ("layout",
          VArr [ VObj [ ("section", VStr "Main");
                        ("fields", VArr [ field "Title" "Title";
                                          field "Status" "Status";
                                          field "Owner" "Owner" ]) ] ]) ].




Definition ticket : Value :=
  VObj [ ("Title", VStr "Window detail"); ("Status", VStr "Open");
         ("Owner", VStr "Ann") ].

(* ================================================================== *)
(** * Further functions of [app.js]

    The comment stripper, the text helpers, the field pickers and record
    labels, the dataset filter and view, and the common-key, type and
    preview helpers, under the same conventions.  Lengths and slices count
    the characters of the model (bytes): they are those of the source on
    ASCII text, and the ellipsis, the bullet and the en dash are the UTF-8
    bytes of one character each. *)

From Stdlib Require Import Sorted Permutation.

(* ------------------------------------------------------------------ *)
(** ** Comment stripping ([stripJsoncComments]) *)

(** The characters the scanner looks for. *)
Definition dquote : ascii := "034"%char.
Definition squote : ascii := "'"%char.
Definition backslash : ascii := "\"%char.
Definition slash : ascii := "/"%char.
Definition star : ascii := "*"%char.
Definition newline : ascii := "010"%char.

(** A character that opens a string literal: a double or a single quote. *)
Definition isQuote (c : ascii) : bool := Ascii.eqb c dquote || Ascii.eqb c squote.

(** Where the scanner is: in plain text; inside a string literal opened by
    [stringQuote], with [escaped] set after a backslash; inside a line
    comment (the inner [while] that stops before a line feed); inside a
    block comment (the inner [while] that stops after [*/]). *)
Inductive ScanMode : Type :=
  | InCode
  | InString (stringQuote : ascii) (escaped : bool)
  | InLineComment
  | InBlockComment.

(** The loop of [stripJsoncComments] from position [i] on, [input] being
    the text from [i]; the result is what is still appended to [out]. *)
Fixpoint stripFrom (mode : ScanMode) (input : string) : string :=
  match input with
  | EmptyString => EmptyString
  | String c rest =>
      match mode with
      | InString q escaped =>
          String c
            (stripFrom
               (if escaped then InString q false
                else if Ascii.eqb c backslash then InString q true
                else if Ascii.eqb c q then InCode
                else InString q false)
               rest)
      | InCode =>
          if isQuote c then String c (stripFrom (InString c false) rest)
          else if Ascii.eqb c slash then
            match rest with
            | String next rest' =>
                if Ascii.eqb next slash then stripFrom InLineComment rest'
                else if Ascii.eqb next star then stripFrom InBlockComment rest'
                else String c (stripFrom InCode rest)
            | EmptyString => String c (stripFrom InCode rest)
            end
          else String c (stripFrom InCode rest)
      | InLineComment =>
          if Ascii.eqb c newline then String c (stripFrom InCode rest)
          else stripFrom InLineComment rest
      | InBlockComment =>
          if Ascii.eqb c star then
            match rest with
            | String next rest' =>
                if Ascii.eqb next slash then stripFrom InCode rest'
                else stripFrom InBlockComment rest
            | EmptyString => stripFrom InBlockComment rest
            end
          else stripFrom InBlockComment rest
      end
  end.

Definition stripJsoncComments (input : string) : string :=
  stripFrom InCode input.

(** [sub] is [s] with some characters left out. *)
Fixpoint isSubsequence (sub s : string) : bool :=
  match sub, s with
  | EmptyString, _ => true
  | String _ _, EmptyString => false
  | String a sub', String b s' =>
      if Ascii.eqb a b then isSubsequence sub' s' else isSubsequence sub s'
  end.

(** The inside of a string literal closed by [q]: no [q] other than after
    a backslash, and no backslash left without the character it escapes. *)
Fixpoint literalBody (q : ascii) (s : string) : bool :=
  match s with
  | EmptyString => true
  | String c rest =>
      if Ascii.eqb c backslash then
        match rest with
        | String _ rest' => literalBody q rest'
        | EmptyString => false
        end
      else if Ascii.eqb c q then false
      else literalBody q rest
  end.

(** No character of [s] satisfies [p]. *)
Definition noChar (p : ascii -> bool) (s : string) : bool :=
  allChars (fun c => negb (p c)) s.

(* ------------------------------------------------------------------ *)
(** ** Text helpers ([escapeHtml], [safeOneLine], [clamp]) *)

(** [s.replaceAll(c, by)] for a one-character pattern. *)
Fixpoint replaceAllChar (c : ascii) (by_ : string) (s : string) : string :=
  match s with
  | EmptyString => EmptyString
  | String a rest =>
      if Ascii.eqb a c then by_ ++ replaceAllChar c by_ rest
      else String a (replaceAllChar c by_ rest)
  end.

Definition escapeHtmlText (s : string) : string :=
  replaceAllChar squote "&#039;"
    (replaceAllChar dquote "&quot;"
       (replaceAllChar ">"%char "&gt;"
          (replaceAllChar "<"%char "&lt;"
             (replaceAllChar "&"%char "&amp;" s)))).

Definition escapeHtml (str : Value) : Result string :=
  s <- js_String str ;;
  Ok (escapeHtmlText s).

(** The entity that stands for a character, or the character itself. *)
Definition entityOf (c : ascii) : string :=
  if Ascii.eqb c "&"%char then "&amp;"
  else if Ascii.eqb c "<"%char then "&lt;"
  else if Ascii.eqb c ">"%char then "&gt;"
  else if Ascii.eqb c dquote then "&quot;"
  else if Ascii.eqb c squote then "&#039;"
  else String c EmptyString.

Fixpoint escapeEach (s : string) : string :=
  match s with
  | EmptyString => EmptyString
  | String c rest => entityOf c ++ escapeEach rest
  end.

(** The characters that open or close markup or an attribute value. *)
Definition isMarkupChar (c : ascii) : bool :=
  Ascii.eqb c "<"%char || Ascii.eqb c ">"%char ||
  Ascii.eqb c dquote || Ascii.eqb c squote.

(** [s.replace(/\s+/g, ' ')]: every run of white space becomes one space. *)
Fixpoint collapseSpaces (s : string) : string :=
  match s with
  | EmptyString => EmptyString
  | String c rest =>
      if is_ws c then
        match rest with
        | String d _ =>
            if is_ws d then collapseSpaces rest
            else String " "%char (collapseSpaces rest)
        | EmptyString => String " "%char EmptyString
        end
      else String c (collapseSpaces rest)
  end.

(** The horizontal ellipsis, U+2026, as its three UTF-8 bytes. *)
Definition ellipsis : string :=
  String "226"%char (String "128"%char (String "166"%char EmptyString)).

(** [s.slice(0, n)] for [n >= 0]. *)
Definition sliceTo (n : nat) (s : string) : string := String.substring 0 n s.

Definition safeOneLine (s : Value) (maxLen : nat) : Result string :=
  raw <- js_String (if nullish s then VStr EmptyString else s) ;;
  let str := trim (collapseSpaces raw) in
  if negb (nonEmpty str) then Ok EmptyString
  else if (maxLen <? String.length str)%nat
       then Ok (sliceTo maxLen str ++ ellipsis)%string
       else Ok str.

(** The only white space of [s] is the space character. *)
Definition singleLine (s : string) : bool :=
  allChars (fun c => negb (is_ws c) || Ascii.eqb c " "%char) s.

(** [clamp(n, min, max)]: a value that is not a finite number gives [min]. *)
Definition clamp (n : Value) (min max : Z) : Z :=
  match n with
  | VNum z => Z.min max (Z.max min z)
  | _ => min
  end.

(* ------------------------------------------------------------------ *)
(** ** Field pickers ([pickFirst] and the helpers built on it) *)

(** The loop of [pickFirst]: the value under the first of [keys] that is
    an own property of [obj]; [null] when there is none. *)
Fixpoint pickFirstOf (obj : Value) (keys : list string) : Result Value :=
  match keys with
  | [] => Ok VNull
  | k :: rest =>
      has <- hasOwnProperty obj k ;;
      if has then get obj k else pickFirstOf obj rest
  end.

Definition pickFirst (obj : Value) (keys : list string) : Result Value :=
  if negb (isObjectLike obj) then Ok VNull else pickFirstOf obj keys.

Definition isUsablePrimitive (v : Value) : bool :=
  if nullish v then false
  else match typeof v with
       | TyString | TyNumber | TyBoolean => true
       | _ => false
       end.

Definition pickFirstPrimitive (obj : Value) (keys : list string) : Result Value :=
  v <- pickFirst obj keys ;;
  Ok (if isUsablePrimitive v then v else VNull).

Definition pickIdLike (obj : Value) : Result Value :=
  pickFirstPrimitive obj
    ["Id"; "id"; "ID"; "uid"; "Uid"; "GUID"; "guid"; "uuid"; "UUID"; "key"; "Key"].

Definition pickCodeLike (obj : Value) : Result Value :=
  pickFirstPrimitive obj
    ["Number"; "number"; "No"; "no"; "code"; "Code"; "ref"; "Ref";
     "reference"; "Reference"].

Definition pickNameLike (obj : Value) : Result Value :=
  pickFirstPrimitive obj
    ["Title"; "title"; "Name"; "name"; "Subject"; "subject"; "Summary";
     "summary"; "DisplayName"; "displayName"].

Definition pickEmailLike (obj : Value) : Result Value :=
  pickFirstPrimitive obj ["Email"; "email"; "mail"; "Mail"].

(** A trimmed string, or [null]. *)
Definition pickStatusLike (obj : Value) : Result Value :=
  v <- pickFirst obj ["Status"; "status"; "State"; "state"] ;;
  match v with
  | VStr s => Ok (if nonEmpty (trim s) then VStr (trim s) else VNull)
  | _ =>
      if isObjectLike v then
        n <- pickFirstPrimitive v ["Name"; "name"; "Label"; "label"] ;;
        if nullish n then Ok VNull
        else s <- js_String n ;; Ok (VStr (trim s))
      else Ok VNull
  end.

(* ------------------------------------------------------------------ *)
(** ** Record labels ([buildRecordLabel] and its helpers) *)

(** The separator of label fragments: a bullet, U+2022, between spaces. *)
Definition labelSeparator : string :=
  String " "%char
    (String "226"%char (String "128"%char (String "162"%char
       (String " "%char EmptyString)))).

(** [Record ${index + 1}] *)
Definition recordBase (index : nat) : string :=
  ("Record " ++ idx (index + 1))%string.

(** The last loop of [buildGenericIdentityLabel]: the fragments trimmed,
    the empty ones and the repeats dropped. *)
Fixpoint dedupeBits (seen : list string) (bits : list string) : list string :=
  match bits with
  | [] => []
  | b :: rest =>
      let t := trim b in
      if negb (nonEmpty t) then dedupeBits seen rest
      else if existsb (String.eqb t) seen then dedupeBits seen rest
      else t :: dedupeBits (t :: seen) rest
  end.

(** The fragments [out] of [buildGenericIdentityLabel] for an object. *)
Definition genericIdentityBits (obj : Value) (base : string) : Result (list string) :=
  name <- pickNameLike obj ;;
  email <- pickEmailLike obj ;;
  code <- pickCodeLike obj ;;
  id <- pickIdLike obj ;;
  status <- pickStatusLike obj ;;
  main <- (if truthy name then safeOneLine name 70
           else if truthy email then safeOneLine email 70
           else if negb (nullish code) then
             s <- safeOneLine code 40 ;; Ok ("#" ++ s)%string
           else if negb (nullish id) then
             s <- safeOneLine id 40 ;; Ok ("Id " ++ s)%string
           else Ok base) ;;
  second <- (if truthy name && negb (nullish code) then
               s <- safeOneLine code 30 ;; Ok [("#" ++ s)%string]
             else if truthy name && negb (nullish id) then
               s <- safeOneLine id 30 ;; Ok [("Id " ++ s)%string]
             else if truthy email && truthy name then
               s <- safeOneLine name 40 ;; Ok [s]
             else if truthy email && negb (nullish id) then
               s <- safeOneLine id 30 ;; Ok [("Id " ++ s)%string]
             else if negb (nullish code) && negb (nullish id) then
               s <- safeOneLine id 30 ;; Ok [("Id " ++ s)%string]
             else Ok []) ;;
  third <- (if truthy status then
              s <- safeOneLine status 22 ;; Ok [("(" ++ s ++ ")")%string]
            else Ok []) ;;
  let bits := [main] ++ second ++ third ++
              (if String.eqb main base then [] else [base]) in
  Ok (dedupeBits [] bits).

Definition buildGenericIdentityLabel (obj : Value) (base : string) : Result string :=
  if negb (isObjectLike obj) then Ok base
  else
    out <- genericIdentityBits obj base ;;
    Ok (join labelSeparator out).

(** [s.slice(k)] for [0 <= k <= s.length]. *)
Definition sliceFrom (k : nat) (s : string) : string :=
  String.substring k (String.length s - k) s.

(** [s.replaceAll(pat, by)] for a pattern that is not empty: the matches
    are found from the left and do not overlap; [skip] characters of a
    match found earlier are still to be passed over. *)
Fixpoint replaceAllFrom (pat by_ : string) (skip : nat) (s : string) : string :=
  match s with
  | EmptyString => EmptyString
  | String c rest =>
      match skip with
      | S k => replaceAllFrom pat by_ k rest
      | O =>
          if String.prefix pat s
          then (by_ ++ replaceAllFrom pat by_ (String.length pat - 1) rest)%string
          else String c (replaceAllFrom pat by_ 0 rest)
      end
  end.

Definition replaceAll (pat by_ s : string) : string := replaceAllFrom pat by_ 0 s.

(** One turn of the loop of [buildTemplateRecordLabel]: the part the
    label field [f] contributes, [None] when the turn ends in [continue]. *)
Definition labelPart (record f : Value) : Result (option string) :=
  if negb (isObjectLike f) then Ok None
  else
    p <- get f "path" ;;
    ps <- js_String (js_or p (VStr EmptyString)) ;;
    let path := trim ps in
    if negb (nonEmpty path) then Ok None
    else
      raw <- getValueAtPath record path ;;
      if negb (isUsablePrimitive raw) then Ok None
      else
        rs <- js_String raw ;;
        let text := trim rs in
        if negb (nonEmpty text) then Ok None
        else
          lc <- get f "lastChars" ;;
          let text1 :=
            match lc with
            | VNum z =>
                let n := Z.to_nat (Z.max 1 z) in
                if (n <? String.length text)%nat
                then sliceFrom (String.length text - n) text
                else text
            | _ => text
            end in
          ml <- get f "maxLen" ;;
          let maxLen :=
            match ml with
            | VNum z => Z.to_nat (Z.max 1 z)
            | _ => 80
            end in
          let text2 :=
            if (maxLen <? String.length text1)%nat
            then (sliceTo maxLen text1 ++ ellipsis)%string
            else text1 in
          px <- get f "prefix" ;;
          sx <- get f "suffix" ;;
          let prefix := match px with VStr s => s | _ => EmptyString end in
          let suffix := match sx with VStr s => s | _ => EmptyString end in
          Ok (Some (prefix ++ text2 ++ suffix)%string).

Fixpoint labelParts (record : Value) (fields : list Value) : Result (list string) :=
  match fields with
  | [] => Ok []
  | f :: rest =>
      part <- labelPart record f ;;
      parts <- labelParts record rest ;;
      Ok (match part with Some p => p :: parts | None => parts end)
  end.

Definition buildTemplateRecordLabel (tpl record : Value) (index : nat)
  : Result string :=
  if negb (isObjectLike tpl) then Ok EmptyString
  else
    rl <- get tpl "recordLabel" ;;
    if negb (isObjectLike rl) then Ok EmptyString
    else
      fs <- get rl "fields" ;;
      let fields := match fs with VArr l => l | _ => [] end in
      fb <- get rl "fallback" ;;
      let fallback :=
        match fb with
        | VStr s => if nonEmpty (trim s) then s else "Record {n}"
        | _ => "Record {n}"
        end in
      parts <- labelParts record fields ;;
      match parts with
      | _ :: _ => Ok (join EmptyString parts)
      | [] => Ok (replaceAll "{n}" (idx (index + 1)) fallback)
      end.

(** [fragments.filter(Boolean).join(' • ')] *)
Definition joinFragments (fragments : list string) : string :=
  join labelSeparator (filter nonEmpty fragments).

(** The built-in label of an Issue record. *)
Definition issueLabel (record : Value) (base : string) : Result string :=
  num <- pickFirstPrimitive record ["Number"; "number"] ;;
  title <- pickFirstPrimitive record ["Title"; "title"; "Name"; "name"] ;;
  id <- pickIdLike record ;;
  status <- pickStatusLike record ;;
  t <- (if truthy title then safeOneLine title 70 else Ok EmptyString) ;;
  s <- (if truthy status then safeOneLine status 22 else Ok EmptyString) ;;
  let st := if nonEmpty s then ("(" ++ s ++ ")")%string else EmptyString in
  if negb (nullish num) && nonEmpty t then
    n <- js_String num ;;
    Ok (joinFragments [("#" ++ n)%string; t; st; base])
  else if negb (nullish num) then
    n <- js_String num ;;
    Ok (joinFragments [("#" ++ n)%string; st; base])
  else if nonEmpty t && negb (nullish id) then
    i <- safeOneLine id 30 ;;
    Ok (joinFragments [t; ("Id " ++ i)%string; st; base])
  else if nonEmpty t then Ok (joinFragments [t; st; base])
  else if negb (nullish id) then
    i <- safeOneLine id 30 ;;
    Ok (joinFragments [("Id " ++ i)%string; st; base])
  else Ok base.

(** [activeTemplateObj] is [VNull] when no template applies. *)
Definition buildRecordLabel (recordType : RecordType) (record : Value)
    (index : nat) (activeTemplateObj : Value) : Result string :=
  let base := recordBase index in
  if negb (isObjectLike record) then Ok base
  else
    tplLabel <- buildTemplateRecordLabel activeTemplateObj record index ;;
    if nonEmpty tplLabel then Ok tplLabel
    else match recordType with
         | Issue => issueLabel record base
         | _ => buildGenericIdentityLabel record base
         end.

(* ------------------------------------------------------------------ *)
(** ** Dataset filter ([rowMatchesFilter]) *)

(** The identity fields of a row that are not [null] or [undefined], as
    lower-case text. *)
Definition identityCandidates (row : Value) : Result (list string) :=
  c1 <- pickFirst row ["Id"; "id"; "ID"] ;;
  c2 <- pickFirst row ["Number"; "number"; "No"; "no"; "code"; "Code"] ;;
  c3 <- pickFirst row ["Title"; "title"; "Name"; "name"; "Subject"; "subject"] ;;
  c4 <- pickFirst row ["Status"; "status"] ;;
  c5 <- pickFirst row ["Type"; "type"] ;;
  mapM (fun v => s <- js_String v ;; Ok (toLowerCase s))
       (filter (fun v => negb (nullish v)) [c1; c2; c3; c4; c5]).

(** The fall-back loop over the keys of the row. *)
Fixpoint scanPrimitiveFields (row : Value) (keys : list string)
    (filter_ f : string) : Result bool :=
  match keys with
  | [] => Ok false
  | k :: rest =>
      v <- get row k ;;
      match v with
      | VStr s =>
          if includes (toLowerCase s) f then Ok true
          else scanPrimitiveFields row rest filter_ f
      | VNum _ =>
          s <- js_String v ;;
          if includes s filter_ then Ok true
          else scanPrimitiveFields row rest filter_ f
      | VBool _ =>
          s <- js_String v ;;
          if includes s f then Ok true
          else scanPrimitiveFields row rest filter_ f
      | _ => scanPrimitiveFields row rest filter_ f
      end
  end.

Definition rowMatchesFilter (row : Value) (filter_ : string) : Result bool :=
  if negb (nonEmpty filter_) then Ok true
  else if negb (isObjectLike row) then Ok false
  else
    let f := toLowerCase filter_ in
    candidates <- identityCandidates row ;;
    if existsb (fun t => includes t f) candidates then Ok true
    else
      keys <- Object_keys_of row ;;
      scanPrimitiveFields row keys filter_ f.

(* ------------------------------------------------------------------ *)
(* ------------------------------------------------------------------ *)
(** ** Value renderer ([renderValue], [renderKV], [renderObjectAsKv],
    [renderArrayAsList], [renderArrayItem], [buildItemSummary])

    These functions call one another: [renderValue] renders the hidden
    body of an array with [renderArrayAsList] and that of an object with
    [renderObjectAsKv], which come back to it through [renderKV].  The
    loops are written first, over a [render] that stands for
    [renderValue]; [renderValue] then closes the recursion on the
    structure of the value.  The path hints ([opts.path], shown when
    [state.showPaths] is set) are left out of the nodes, and so is
    [opts.rich], under which a string is rendered as under no option. *)

(** [/^https?:\/\/\S+/i.test(s)] *)
Definition looksLikeUrl (s : string) : bool :=
  let after (scheme : string) :=
    String.prefix scheme (toLowerCase s) &&
    match String.get (String.length scheme) s with
    | Some c => negb (is_ws c)
    | None => false
    end in
  after "http://" || after "https://".

(** [String(k).toLowerCase().includes('url') ||
     String(k).toLowerCase().includes('link')] *)
Definition isUrlKey (k : string) : bool :=
  includes (toLowerCase k) "url" || includes (toLowerCase k) "link".

(** The keys [renderObjectAsKv] lists first. *)
Definition preferredKeys : list string :=
  ["Id"; "id"; "Number"; "number"; "Title"; "title"; "Name"; "name";
   "Subject"; "subject"; "Status"; "status"; "Type"; "type";
   "Priority"; "priority"; "CreationDate"; "creationDate";
   "LastModificationDate"; "lastModificationDate"; "DueDate"; "dueDate";
   "Url"; "url"; "ViewerUrl"; "viewerUrl"].

Definition isPreferredKey (k : string) : bool :=
  existsb (String.eqb k) preferredKeys.

(** The title of the card of an object item: its position, then what
    identifies it.  The conversions of [id] and [num] are the two places
    where it can raise. *)
Definition buildItemSummary (obj : Value) (i : nat) : Result string :=
  id <- pickFirst obj ["Id"; "id"; "ID"; "uid"; "guid"; "uuid"] ;;
  num <- pickFirst obj ["Number"; "number"; "No"; "no"; "code"; "Code"] ;;
  title <- pickFirst obj ["Title"; "title"; "Subject"; "subject"; "Name"; "name";
                          "Summary"; "summary"] ;;
  status <- pickFirst obj ["Status"; "status"; "State"; "state";
                           "ReviewStatus"; "reviewStatus"] ;;
  let bits := [("[" ++ idx i ++ "]")%string] in
  bits <- (if nullish id then Ok bits
           else s <- js_String id ;; Ok (bits ++ [("Id " ++ s)%string])) ;;
  bits <- (if nullish num then Ok bits
           else s <- js_String num ;; Ok (bits ++ [("#" ++ s)%string])) ;;
  let bits :=
    match title with
    | VStr t =>
        let t := trim t in
        if nonEmpty t
        then bits ++ [if (60 <? String.length t)%nat
                      then (sliceTo 60 t ++ ellipsis)%string else t]
        else bits
    | _ => bits
    end in
  bits <- (match status with
           | VStr s =>
               Ok (if nonEmpty (trim s)
                   then bits ++ [("(" ++ trim s ++ ")")%string] else bits)
           | _ =>
               if isObjectLike status then
                 sName <- pickFirst status ["Name"; "name"] ;;
                 Ok (match sName with
                     | VStr n =>
                         if nonEmpty (trim n)
                         then bits ++ [("(" ++ trim n ++ ")")%string] else bits
                     | _ => bits
                     end)
               else Ok bits
           end) ;;
  keys <- Object_keys_of obj ;;
  let bits :=
    if (List.length bits =? 1)%nat
    then bits ++ [("Object (" ++ idx (List.length keys) ++ " keys)")%string]
    else bits in
  Ok (join labelSeparator bits).

(** The guardrail of [renderArrayAsList]: the items shown of an array. *)
Definition ARRAY_HARD_MAX : nat := 50.

Section Loops.

(** [render collapsible link value] stands for
    [renderValue(value, { collapsible, link })]. *)
Variable render : bool -> bool -> Value -> Result (option Markup).

Definition renderKVWith (key : string) (value : Value) (collapsible link : bool)
  : Result (option Markup) :=
  v <- render collapsible link value ;;
  match v with
  | Some m => Ok (Some (KV key m))
  | None => Ok None
  end.

(** [keys.map((k) => renderKV(k, obj[k], ...))]: one row per own key, the
    rows that are the empty string dropped, each with its key. *)
Fixpoint objectRowsWith (props : list (string * Value)) (seen : list string)
  : Result (list (string * Markup)) :=
  match props with
  | [] => Ok []
  | (k, v) :: rest =>
      if existsb (String.eqb k) seen then objectRowsWith rest seen
      else
        row <- renderKVWith k v (isObjectLike v)
                 (isUrlKey k && JsType_eqb (typeof v) TyString) ;;
        rows <- objectRowsWith rest (k :: seen) ;;
        match row with
        | Some m => Ok ((k, m) :: rows)
        | None => Ok rows
        end
  end.

Definition renderObjectAsKvWith (obj : Value) : Result Markup :=
  match obj with
  | VObj [] => Ok (EmptyState "(no keys)")
  | VObj props =>
      rows <- objectRowsWith props [] ;;
      Ok (ObjectKv
            (map snd (filter (fun kv => isPreferredKey (fst kv)) rows))
            (map snd (filter (fun kv => negb (isPreferredKey (fst kv))) rows)))
  | _ => Ok (Joined [])
  end.

Definition renderArrayItemWith (item : Value) (i : nat) : Result Markup :=
  let key := ("[" ++ idx i ++ "]")%string in
  if nullish item || negb (JsType_eqb (typeof item) TyObject) then
    row <- renderKVWith key item false false ;;
    Ok (ArrayItem row)
  else if isArray item then
    row <- renderKVWith key item true false ;;
    Ok (ArrayItem row)
  else
    summary <- buildItemSummary item i ;;
    body <- renderObjectAsKvWith item ;;
    Ok (ArrayItemCard summary body).

(** [arr.slice(0, showCount).map((item, idx) => renderArrayItem(arr, item, idx))],
    from position [i] on. *)
Fixpoint arrayItemsWith (items : list Value) (i : nat) : Result (list Markup) :=
  match items with
  | [] => Ok []
  | item :: rest =>
      if (ARRAY_HARD_MAX <=? i)%nat then Ok []
      else
        card <- renderArrayItemWith item i ;;
        cards <- arrayItemsWith rest (S i) ;;
        Ok (card :: cards)
  end.

Definition renderArrayAsListWith (arr : list Value) : Result Markup :=
  match arr with
  | [] => Ok (EmptyState "(empty array)")
  | _ =>
      cards <- arrayItemsWith arr 0 ;;
      Ok (ArrayList (List.length arr) cards)
  end.

End Loops.

Fixpoint renderValue (collapsible link : bool) (value : Value) {struct value}
  : Result (option Markup) :=
  match value with
  | VUndefined | VNull => Ok (Some NullBadge)
  | VStr s =>
      if link && looksLikeUrl s then Ok (Some (Anchor s))
      else if nonEmpty s then Ok (Some (Text s))
      else Ok None
  | VNum _ | VBool _ =>
      s <- js_String value ;;
      Ok (Some (Text s))
  | VArr items =>
      if negb collapsible then Ok (Some (JsonText value))
      else
        body <- renderArrayAsListWith renderValue items ;;
        Ok (Some (CollapsedArray items body))
  | VObj props =>
      if negb collapsible then Ok (Some (JsonText value))
      else
        body <- renderObjectAsKvWith renderValue value ;;
        Ok (Some (CollapsedObject props body))
  end.

(** [renderKV(key, value, { collapsible, link })]: no row for a value
    rendered as the empty string. *)
Definition renderKV (key : string) (value : Value) (collapsible link : bool)
  : Result (option Markup) :=
  renderKVWith renderValue key value collapsible link.

(** [renderKVHtml(key, htmlValue)] for markup of the engine's own. *)
Definition renderKVHtml (key : string) (htmlValue : Markup) : Markup :=
  KV key htmlValue.

Definition renderObjectAsKv (obj : Value) : Result Markup :=
  renderObjectAsKvWith renderValue obj.

Definition renderArrayItem (item : Value) (i : nat) : Result Markup :=
  renderArrayItemWith renderValue item i.

Definition renderArrayAsList (arr : list Value) : Result Markup :=
  renderArrayAsListWith renderValue arr.

(* ------------------------------------------------------------------ *)
(** ** Generic view ([renderGenericPrettyView], [buildHighValueFieldRows]) *)

Definition highValueCandidates : list (string * list string) :=
  [ ("Id", ["Id"; "id"; "ID"; "uid"; "guid"; "uuid"]);
    ("Number", ["Number"; "number"; "No"; "no"; "code"; "Code"]);
    ("Title", ["Title"; "title"; "Subject"; "subject"; "Summary"; "summary"]);
    ("Name", ["Name"; "name"; "DisplayName"; "displayName"]);
    ("Status", ["Status"; "status"; "State"; "state"]);
    ("Type", ["Type"; "type"; "Category"; "category"]);
    ("Priority", ["Priority"; "priority"]);
    ("Created", ["CreationDate"; "creationDate"; "createdAt"; "CreatedAt"; "created"]);
    ("Updated", ["LastModificationDate"; "lastModificationDate"; "updatedAt";
                 "UpdatedAt"; "modified"]);
    ("Due", ["DueDate"; "dueDate"; "due"]);
    ("URL", ["Url"; "url"; "Link"; "link"; "ViewerUrl"; "viewerUrl"]) ].

(** The loop [for (const c of candidates)]: a row, possibly the empty
    string, for each candidate the value has. *)
Fixpoint highValueRows (value : Value) (candidates : list (string * list string))
  : Result (list (option Markup)) :=
  match candidates with
  | [] => Ok []
  | (label, keys) :: rest =>
      v <- pickFirst value keys ;;
      if nullish v then highValueRows value rest
      else
        row <- renderKV label v (JsType_eqb (typeof v) TyObject)
                 (String.eqb label "URL") ;;
        rows <- highValueRows value rest ;;
        Ok (row :: rows)
  end.

(** The rows of a mapping. *)
Definition highValueRowsOf (value : Value) : Result (list (option Markup)) :=
  rows <- highValueRows value highValueCandidates ;;
  owner <- pickFirst value ["Owner"; "owner"; "Author"; "author";
                            "CreatedBy"; "createdBy"] ;;
  if nullish owner then Ok rows
  else
    row <- renderKV "Owner-like" owner (JsType_eqb (typeof owner) TyObject) false ;;
    Ok (rows ++ [row]).

(** An array is represented by its first element that is a mapping. *)
Definition buildHighValueFieldRows (value : Value) : Result (list (option Markup)) :=
  match value with
  | VArr items =>
      match find isMapping items with
      | Some firstObj => highValueRowsOf firstObj
      | None => Ok []
      end
  | _ => if isMapping value then highValueRowsOf value else Ok []
  end.

(** The rows that are not the empty string. *)
Fixpoint present (rows : list (option Markup)) : list Markup :=
  match rows with
  | [] => []
  | Some m :: rest => m :: present rest
  | None :: rest => present rest
  end.

(** [Array.isArray(value) ? 'array' : typeof value] *)
Definition topTypeOf (value : Value) : string :=
  match value with
  | VArr _ => "array"
  | VUndefined => "undefined"
  | VNull | VObj _ => "object"
  | VBool _ => "boolean"
  | VNum _ => "number"
  | VStr _ => "string"
  end.

(** [summarizeTopLevel(value)] is the empty string for the empty string
    only. *)
Definition renderGenericPrettyView (record : Value) : Result Markup :=
  highValue <- buildHighValueFieldRows record ;;
  topType <- renderKV "Top-level type" (VStr (topTypeOf record)) false false ;;
  let topSummary :=
    match record with
    | VStr EmptyString => None
    | _ => Some (KV "Top-level summary" (SummaryText record))
    end in
  let important :=
    match highValue with
    | [] => None
    | _ => Some (CollapsibleCard "Likely important fields" true (present highValue))
    end in
  rec <- renderKV "Record" record true false ;;
  Ok (CollapsibleCard "Generic Pretty View" true
        (present [topType; topSummary; important; rec])).

(* ------------------------------------------------------------------ *)
(** ** Template-driven renderer ([renderTemplateField],
    [renderTemplateRecordView]) *)

(** The [date] format: [formatDateTime(value)], then [renderKV(label, dt)]
    unless it is the empty string. *)
Definition renderDateField (label : string) (value : Value) : Result (option Markup) :=
  if negb (truthy value) then Ok None
  else match value with
       | VStr s => Ok (Some (KV label (DateText s)))
       | _ =>
           dt <- js_String value ;;
           renderKV label (VStr dt) false false
       end.

(** The [badge] format. *)
Definition renderBadgeField (label : string) (value : Value) : Result (option Markup) :=
  badgeText <- (if nullish value then Ok "null"
                else s <- js_String value ;; safeOneLine (VStr s) 60) ;;
  if negb (nonEmpty badgeText) then Ok None
  else Ok (Some (renderKVHtml label (Badge badgeText))).

Definition renderTemplateField (record field : Value) : Result (option Markup) :=
  fp <- get field "path" ;;
  ps <- js_String (js_or fp (VStr "")) ;;
  let path := trim ps in
  fl <- get field "label" ;;
  ls <- js_String (js_or fl (VStr "")) ;;
  let label := trim ls in
  ff <- get field "format" ;;
  fs <- js_String (js_or ff (VStr "text")) ;;
  let format := toLowerCase (trim fs) in
  if negb (nonEmpty path) || negb (nonEmpty label) then Ok None
  else
    value <- getValueAtPath record path ;;
    match value with
    | VUndefined => Ok None
    | _ =>
        if String.eqb format "badge" then renderBadgeField label value
        else if String.eqb format "date" then renderDateField label value
        else if String.eqb format "link" then
          match value with
          | VStr _ => renderKV label value false true
          | _ => Ok None
          end
        else if String.eqb format "multiline" then
          match value with
          | VStr _ => renderKV label value false false
          | _ => Ok None
          end
        else if String.eqb format "kvlist" then
          html <- renderKvListValue value field ;;
          match html with
          | Some m => Ok (Some (renderKVHtml label m))
          | None => Ok None
          end
        else if String.eqb format "json" then
          renderKV label value (isObjectLike value) false
        else renderKV label value false false
    end.

(** [fields.map((f) => renderTemplateField(record, f)).filter(Boolean)] *)
Fixpoint renderFields (record : Value) (fields : list Value) : Result (list Markup) :=
  match fields with
  | [] => Ok []
  | f :: rest =>
      part <- renderTemplateField record f ;;
      parts <- renderFields record rest ;;
      match part with
      | Some m => Ok (m :: parts)
      | None => Ok parts
      end
  end.

(** [typeof template.templateName === 'string' && template.templateName.trim()
      ? template.templateName.trim() : 'Selected template'] *)
Definition displayName (template : Value) : Result string :=
  nm <- get template "templateName" ;;
  match nm with
  | VStr s => Ok (if nonEmpty (trim s) then trim s else "Selected template")
  | _ => Ok "Selected template"
  end.

(** [template.layout.map((sec, i) => ...)]: one collapsible card per
    section, the first one open, holding the fields that render to
    something. *)
Fixpoint renderSections (record : Value) (i : nat) (layout : list Value)
  : Result (list Markup) :=
  match layout with
  | [] => Ok []
  | sec :: rest =>
      st <- get sec "section" ;;
      s <- js_String (js_or st (VStr "")) ;;
      let title := if nonEmpty (trim s) then trim s
                   else ("Section " ++ idx (i + 1))%string in
      fs <- get sec "fields" ;;
      let fields := match fs with VArr l => l | _ => [] end in
      bodyParts <- renderFields record fields ;;
      cards <- renderSections record (S i) rest ;;
      Ok (CollapsibleCard title (i =? 0)%nat bodyParts :: cards)
  end.

Definition renderTemplateRecordView (template record : Value) : Result Markup :=
  if negb (isObjectLike template) then renderGenericPrettyView record
  else
    lay <- get template "layout" ;;
    match lay with
    | VArr layout =>
        hitCount <- countTemplateFieldHits template record ;;
        if (hitCount =? 0)%nat then
          tplName <- displayName template ;;
          name <- renderKV "Template" (VStr tplName) false false ;;
          happened <- renderKV "What happened"
            (VStr "This record does not contain any of the fields defined in the template.")
            false false ;;
          todo <- renderKV "What to do"
            (VStr "Check your template paths, or adjust match.requiredKeys so the template only applies to the right records.")
            false false ;;
          fallback <- renderKV "Fallback"
            (VStr "Showing the full record below (collapsed).") false false ;;
          rec <- renderKV "Record" record true false ;;
          Ok (Card "No fields from this template were found" "Hint"
                (present [name; happened; todo; fallback; rec]))
        else
          sections <- renderSections record 0 layout ;;
          Ok (Joined sections)
    | _ => renderGenericPrettyView record
    end.

(** ** Dataset view ([renderDatasetView]) and record selection *)

(** [arr[i]] for an integer [i]: [undefined] outside the array. *)
Definition arrayAt (arr : list Value) (i : Z) : Value :=
  if (i <? 0)%Z then VUndefined else nth (Z.to_nat i) arr VUndefined.

(** The record [renderViewer] shows in records mode,
    [records.length ? records[clamp(recordIndex, 0, records.length - 1)] : lf.json],
    [recordIndex] being [state.selectedRecordIndexByFileId[lf.id] ?? 0]. *)
Definition activeRecordOf (records : list Value) (json recordIndex : Value) : Value :=
  match records with
  | [] => json
  | _ :: _ =>
      arrayAt records (clamp recordIndex 0 (Z.of_nat (List.length records) - 1))
  end.

(** An entry of [state.datasetUiByFileId]. *)
Record DatasetUi : Type := {
  dsFilter : string;          (* [filter] *)
  jumpIndex : Value;          (* a number, or [null] *)
  lastJumpInput : string
}.

Definition defaultDatasetUi : DatasetUi :=
  {| dsFilter := EmptyString; jumpIndex := VNull; lastJumpInput := EmptyString |}.

(** What [renderDatasetView] puts under the summary card of the array.
    In jump mode it is one card: titled [Row ${safe + 1} of ${rowCount}],
    with the out-of-range note if there is one, its body being
    [renderObjectAsKv(item, `$[${safe}]`)].  In list mode it is the line
    [listMeta], the note on the cap if [capNote] is set and the cards
    [renderArrayItem(arr, row, idx)] of the rows shown. *)
Inductive DatasetView : Type :=
  | JumpView (safe : Z) (rowCount : nat) (jumpNote : option string) (body : Markup)
  | ListView (listMeta : string) (capNote : bool) (cards : list Markup).

(** The en dash, U+2013. *)
Definition enDash : string :=
  String "226"%char (String "128"%char (String "147"%char EmptyString)).

Definition jumpNoteText (requestedLabel : string) (rowCount : nat) (safe : Z)
  : string :=
  ("Row " ++ escapeHtmlText requestedLabel ++ " is out of range (valid: 1"
   ++ enDash ++ idx rowCount ++ "). Showing Row " ++ Z_toString (safe + 1)
   ++ " instead.")%string.

(** [arr.map((row, idx) => ({ row, idx }))], from index [i] on. *)
Fixpoint indexedFrom (i : nat) (arr : list Value) : list (nat * Value) :=
  match arr with
  | [] => []
  | row :: rest => (i, row) :: indexedFrom (S i) rest
  end.

(** [indexed.filter(({ row }) => rowMatchesFilter(row, filter))] *)
Fixpoint filterRows (filter_ : string) (indexed : list (nat * Value))
  : Result (list (nat * Value)) :=
  match indexed with
  | [] => Ok []
  | (i, row) :: rest =>
      keep <- rowMatchesFilter row filter_ ;;
      kept <- filterRows filter_ rest ;;
      Ok (if keep then (i, row) :: kept else kept)
  end.

Definition HARD_MAX : nat := 80.

Definition listMetaText (shown matching rowCount : nat) : string :=
  if (shown <? matching)%nat
  then ("Showing " ++ idx shown ++ " of " ++ idx matching
        ++ " matching rows (dataset has " ++ idx rowCount ++ ")")%string
  else ("Showing " ++ idx shown ++ " rows (dataset has " ++ idx rowCount ++ ")")%string.

(** [show.map(({ row, idx }) => renderArrayItem(arr, row, idx))] *)
Definition renderRows (show : list (nat * Value)) : Result (list Markup) :=
  mapM (fun p => renderArrayItem (snd p) (fst p)) show.

(** [entry] is [state.datasetUiByFileId[lfId]], [None] when there is none. *)
Definition renderDatasetView (arr : list Value) (entry : option DatasetUi)
  : Result DatasetView :=
  let entry := match entry with Some e => e | None => defaultDatasetUi end in
  let filter_ := dsFilter entry in
  match jumpIndex entry with
  | VNum jump =>
      let rowCount := List.length arr in
      let safe := clamp (VNum jump) 0 (Z.of_nat rowCount - 1) in
      let item := arrayAt arr safe in
      let requestedLabel :=
        if nonEmpty (lastJumpInput entry) then lastJumpInput entry
        else Z_toString (jump + 1) in
      let outOfRange := (jump <? 0)%Z || (Z.of_nat rowCount - 1 <? jump)%Z in
      body <- renderObjectAsKv item ;;
      Ok (JumpView safe rowCount
            (if outOfRange then Some (jumpNoteText requestedLabel rowCount safe)
             else None)
            body)
  | _ =>
      let indexed := indexedFrom 0 arr in
      matches <- (if nonEmpty filter_ then filterRows filter_ indexed
                  else Ok indexed) ;;
      let show := firstn HARD_MAX matches in
      let meta := listMetaText (List.length show) (List.length matches)
                               (List.length arr) in
      cards <- renderRows show ;;
      Ok (ListView (escapeHtmlText meta)
                   (HARD_MAX <? List.length matches)%nat
                   cards)
  end.

(** The rows of [arr] that match [filter_], with their positions. *)
Definition matchesRow (filter_ : string) (row : Value) : bool :=
  match rowMatchesFilter row filter_ with
  | Ok true => true
  | _ => false
  end.

(* ------------------------------------------------------------------ *)
(** ** Common keys ([commonKeysFromArrayOfObjects]) *)

(** [counts.set(k, (counts.get(k) || 0) + 1)] on a [Map]: a key keeps the
    place of its first insertion. *)
Fixpoint bumpCount (k : string) (counts : list (string * nat))
  : list (string * nat) :=
  match counts with
  | [] => [(k, 1)]
  | (k', n) :: rest =>
      if String.eqb k k' then (k', n + 1) :: rest
      else (k', n) :: bumpCount k rest
  end.

(** One turn of the loop over the items. *)
Definition countKeysOf (counts : list (string * nat)) (item : Value)
  : list (string * nat) :=
  if negb (isMapping item) then counts
  else fold_left (fun acc k => bumpCount k acc) (keysOfMapping item) counts.

Definition keyCounts (arr : list Value) : list (string * nat) :=
  fold_left countKeysOf arr [].

(** [entries.sort((a, b) => b[1] - a[1])]: by decreasing count, entries of
    equal count staying in their order (the sort is stable, which fixes
    its result). *)
Fixpoint insertByCount (e : string * nat) (sorted : list (string * nat))
  : list (string * nat) :=
  match sorted with
  | [] => [e]
  | x :: rest =>
      if (snd e <? snd x)%nat then x :: insertByCount e rest
      else e :: sorted
  end.

Definition sortByCount (entries : list (string * nat)) : list (string * nat) :=
  fold_right insertByCount [] entries.

Definition commonKeysFromArrayOfObjects (arr : list Value) (limit : nat)
  : list string :=
  map fst (firstn limit (sortByCount (keyCounts arr))).

(* ------------------------------------------------------------------ *)
(** ** Type distribution and previews ([arrayTypeDistribution],
       [simplePreviewValue], [pickPreviewPairs]) *)

(** [item == null ? 'null' : Array.isArray(item) ? 'array' : typeof item] *)
Definition typeNameOf (item : Value) : string :=
  if nullish item then "null"
  else if isArray item then "array"
  else match typeof item with
       | TyUndefined => "undefined"
       | TyObject => "object"
       | TyBoolean => "boolean"
       | TyNumber => "number"
       | TyString => "string"
       end.

(** The object [dist], its keys in the order of their first use. *)
Definition arrayTypeDistribution (arr : list Value) : list (string * nat) :=
  fold_left (fun dist item => bumpCount (typeNameOf item) dist) arr [].

(** [None] is the [null] of the source. *)
Definition simplePreviewValue (v : Value) : option string :=
  match v with
  | VUndefined | VNull => Some "null"
  | VStr str =>
      let s := trim str in
      if negb (nonEmpty s) then None
      else Some (if (40 <? String.length s)%nat
                 then (sliceTo 40 s ++ ellipsis)%string
                 else s)
  | VNum n => Some (Z_toString n)
  | VBool true => Some "true"
  | VBool false => Some "false"
  | VArr items => Some ("Array(" ++ idx (List.length items) ++ ")")%string
  | VObj _ => Some "Object"
  end.

Definition previewPreferred : list string :=
  [ "Title"; "title"; "Name"; "name"; "Subject"; "subject"; "Number";
    "number"; "Id"; "id"; "Status"; "status"; "Type"; "type" ].

(** The first loop of [pickPreviewPairs], over the preferred keys; [obj]
    is a mapping.  The keys of [out] are the set [used]. *)
Fixpoint pickPreferredPairs (obj : Value) (maxPairs : nat) (keys : list string)
    (out : list (string * string)) : list (string * string) :=
  match keys with
  | [] => out
  | k :: rest =>
      if (maxPairs <=? List.length out)%nat then out
      else if negb (hasKey obj k) then pickPreferredPairs obj maxPairs rest out
      else match simplePreviewValue (ownProperty obj k) with
           | None => pickPreferredPairs obj maxPairs rest out
           | Some sv => pickPreferredPairs obj maxPairs rest (out ++ [(k, sv)])
           end
  end.

(** The second loop, over [Object.keys(obj)]. *)
Fixpoint pickRemainingPairs (obj : Value) (maxPairs : nat) (used : list string)
    (keys : list string) (out : list (string * string)) : list (string * string) :=
  match keys with
  | [] => out
  | k :: rest =>
      if (maxPairs <=? List.length out)%nat then out
      else if existsb (String.eqb k) used
      then pickRemainingPairs obj maxPairs used rest out
      else match simplePreviewValue (ownProperty obj k) with
           | None => pickRemainingPairs obj maxPairs used rest out
           | Some sv => pickRemainingPairs obj maxPairs used rest (out ++ [(k, sv)])
           end
  end.

Definition pickPreviewPairs (obj : Value) (maxPairs : nat) : list (string * string) :=
  if negb (isMapping obj) then []
  else
    let preferred := pickPreferredPairs obj maxPairs previewPreferred [] in
    pickRemainingPairs obj maxPairs (map fst preferred) (keysOfMapping obj) preferred.

(* ------------------------------------------------------------------ *)
(** ** Notions the further properties are stated with *)

(** The count a [Map] of counts holds for a key, 0 when it has none. *)
Fixpoint countOf (k : string) (counts : list (string * nat)) : nat :=
  match counts with
  | [] => 0
  | (k', n) :: rest => if String.eqb k k' then n else countOf k rest
  end.

(** Every key of a [Map] of counts was counted at least once. *)
Definition positiveCounts (counts : list (string * nat)) : Prop :=
  Forall (fun e => 1 <= snd e) counts.

(** The order of the sorted entries: counts do not increase. *)
Definition byCount (a b : string * nat) : Prop := snd b <= snd a.

(** The modes in which the scanner copies what it reads. *)
Definition keepsText (mode : ScanMode) : bool :=
  match mode with
  | InCode | InString _ _ => true
  | InLineComment | InBlockComment => false
  end.

(** [null], [undefined], or a string, number or boolean. *)
Definition primitiveOrNull (v : Value) : bool := nullish v || isUsablePrimitive v.

(** What the loops of [pickPreviewPairs] keep true of [out]. *)
Definition previewInvariant (obj : Value) (maxPairs : nat)
    (out : list (string * string)) : Prop :=
  List.length out <= maxPairs /\
  NoDup (map fst out) /\
  forall k sv, In (k, sv) out ->
    hasKey obj k = true /\ simplePreviewValue (ownProperty obj k) = Some sv.

(** A field of a layout section as [validateTemplate] wants it. *)
Definition wellShapedField (f : Value) : bool :=
  isMapping f &&
  isNonBlankString (ownProperty f "path") &&
  isNonBlankString (ownProperty f "label").

Definition wellShapedSection (sec : Value) : bool :=
  isMapping sec &&
  isNonBlankString (ownProperty sec "section") &&
  match ownProperty sec "fields" with
  | VArr fields => forallb wellShapedField fields
  | _ => false
  end.

(** An optional block: absent, or a mapping whose [inner] member is absent
    or an array. *)
Definition wellShapedBlock (t : Value) (block inner : string) : bool :=
  let b := ownProperty t block in
  nullish b ||
  (isMapping b &&
   (nullish (ownProperty b inner) || isArray (ownProperty b inner))).

Definition wellShapedTemplate (t : Value) : bool :=
  isMapping t &&
  match ownProperty t "templateVersion" with
  | VNum 1 => true
  | _ => false
  end &&
  isNonBlankString (ownProperty t "templateName") &&
  match ownProperty t "layout" with
  | VArr layout => forallb wellShapedSection layout
  | _ => false
  end &&
  wellShapedBlock t "match" "requiredKeys" &&
  wellShapedBlock t "recordLabel" "fields".

(** The fields a layout declares. *)
Definition fieldsOfSection (sec : Value) : list Value :=
  match ownProperty sec "fields" with
  | VArr fields => fields
  | _ => []
  end.

Definition declaredFieldCount (template : Value) : nat :=
  match ownProperty template "layout" with
  | VArr layout =>
      list_sum (map (fun sec => List.length (fieldsOfSection sec)) layout)
  | _ => 0
  end.

(** The required keys a match block names: its non-blank strings. *)
Definition namedKeys (keys : list Value) : list string :=
  List.concat (map (fun k => match k with
                             | VStr s => if nonEmpty (trim s) then [s] else []
                             | _ => []
                             end) keys).

(** *** Rendered values *)







(** The title a section is shown under, at position [j] of the layout. *)
Definition sectionTitle (sec : Value) (j : nat) (title : string) : Prop :=
  exists s,
    js_String (js_or (ownProperty sec "section") (VStr EmptyString)) = Ok s /\
    title = if nonEmpty (trim s) then trim s
            else ("Section " ++ idx (j + 1))%string.

(** The rows of [arr] that match [filter_], with their positions. *)
Definition matchingRows (filter_ : string) (arr : list Value) : list (nat * Value) :=
  filter (fun p => matchesRow filter_ (snd p)) (indexedFrom 0 arr).

(** *** Examples *)

(** A record whose rendering raises: the [Id] of an item of its array
    cannot be converted to a string. *)
Definition shadowedId : Value :=
  VObj [ ("z", VArr [ VObj [ ("Id", VObj [ ("toString", VNum 1) ]) ] ]) ].

(** A template that only carries an empty [recordLabel] block. *)
Definition labelOnlyTemplate : Value := VObj [ ("recordLabel", VObj []) ].

(** A dataset of two rows, and a jump to its eighth row. *)
Definition twoRows : list Value :=
  [ VObj [ ("note", VStr "Needs REVIEW") ]; VObj [ ("note", VStr "done") ] ].

Definition jumpToEighth : DatasetUi :=
  {| dsFilter := EmptyString; jumpIndex := VNum 7; lastJumpInput := "8" |}.

Definition filterReview : DatasetUi :=
  {| dsFilter := "review"; jumpIndex := VNull; lastJumpInput := EmptyString |}.

(** The inside of a string literal that holds an escaped quote and both
    comment markers. *)
Definition markedLiteralBody : string :=
  ("a\" ++ String dquote " // b /* c */")%string.

(* ================================================================== *)
(** * Properties *)

(** ** The error monad and property reads *)

Lemma get_ok (v : Value) (k : string) :
  nullish v = false -> get v k = Ok (ownProperty v k).
Proof. unfold get. intros ->. reflexivity. Qed.

Lemma get_objectLike (v : Value) (k : string) :
  isObjectLike v = true -> get v k = Ok (ownProperty v k).
Proof.
  intros H. apply get_ok. destruct v; simpl in *; try reflexivity; discriminate.
Qed.

Lemma get_truthy (v : Value) (k : string) :
  truthy v = true -> get v k = Ok (ownProperty v k).
Proof.
  intros H. apply get_ok. destruct v; simpl in *; try reflexivity; discriminate.
Qed.

Lemma isMapping_objectLike (v : Value) :
  isMapping v = true -> isObjectLike v = true.
Proof. unfold isMapping. intros H. apply andb_true_iff in H. apply H. Qed.

Lemma isMapping_VObj (v : Value) :
  isMapping v = true -> exists props, v = VObj props.
Proof.
  destruct v; unfold isMapping, isObjectLike; simpl;
    rewrite ?andb_false_r; try discriminate.
  intros _. eauto.
Qed.

(** ** Path resolver *)

Lemma walk_total (tokens : list Token) :
  forall cur, exists v, walk tokens cur = Ok v.
Proof.
  induction tokens as [|t rest IH]; intros cur; simpl.
  - eauto.
  - destruct (nullish cur) eqn:Hn; [eauto|].
    destruct t as [s|n].
    + destruct (negb (JsType_eqb (typeof cur) TyObject)); [eauto|].
      rewrite (get_ok _ _ Hn). simpl. apply IH.
    + destruct (negb (isArray cur)); [eauto|].
      unfold getIndex. rewrite (get_ok _ _ Hn). simpl. apply IH.
Qed.

(** C5. Path resolution is total: for every root value and every path
    string, well formed or not, [getValueAtPath] raises nothing and returns
    a value, [undefined] standing for a miss. *)
Theorem getValueAtPath_never_throws (root : Value) (path : string) :
  exists v, getValueAtPath root path = Ok v.
Proof.
  unfold getValueAtPath.
  destruct (negb (nonEmpty path)); [eauto|].
  destruct (nullish root); [eauto|].
  apply walk_total.
Qed.

(** *** The tokenizer reads back what [printPath] writes *)

Lemma append_snoc (p : string) (c : ascii) (s : string) :
  (snoc p c ++ s)%string = (p ++ String c s)%string.
Proof.
  unfold snoc. induction p as [|a p IH]; simpl; [reflexivity|].
  now rewrite IH.
Qed.

Lemma append_empty_r (s : string) : (s ++ "")%string = s.
Proof. induction s as [|a s IH]; simpl; [reflexivity|]. now rewrite IH. Qed.

Lemma scan_name (s rest pending : string) :
  allChars (fun c => negb (isDelimiter c)) s = true ->
  scan (s ++ rest) false pending = scan rest false (pending ++ s).
Proof.
  revert pending. induction s as [|c s IH]; intros pending H; simpl.
  - now rewrite append_empty_r.
  - simpl in H. apply andb_true_iff in H. destruct H as [Hc Hs].
    apply negb_true_iff in Hc.
    assert (Hb : Ascii.eqb c "[" = false).
    { unfold isDelimiter in Hc.
      destruct (Ascii.eqb c "."); [discriminate|].
      destruct (Ascii.eqb c "["); [discriminate|reflexivity]. }
    rewrite Hb, Hc, (IH _ Hs). now rewrite append_snoc.
Qed.

Lemma scan_digits (ds rest pending : string) :
  allChars isDigit ds = true ->
  scan (ds ++ rest) true pending = scan rest true (pending ++ ds).
Proof.
  revert pending. induction ds as [|c ds IH]; intros pending H; simpl.
  - now rewrite append_empty_r.
  - simpl in H. apply andb_true_iff in H. destruct H as [Hc Hs].
    rewrite Hc, (IH _ Hs). now rewrite append_snoc.
Qed.

Lemma string_of_uint_digits (u : Decimal.uint) :
  allChars isDigit (NilEmpty.string_of_uint u) = true.
Proof. induction u; simpl; auto. Qed.

Lemma N_toString_digits (n : N) : allChars isDigit (N_toString n) = true.
Proof. apply string_of_uint_digits. Qed.

Lemma Number_of_N_toString (n : N) : Number_of_digits (N_toString n) = n.
Proof.
  unfold Number_of_digits, N_toString.
  rewrite NilEmpty.usu. apply DecimalN.Unsigned.of_to.
Qed.

Lemma N_toString_nonEmpty (n : N) : nonEmpty (N_toString n) = true.
Proof.
  destruct (N_toString n) eqn:E; [|reflexivity].
  pose proof (Number_of_N_toString n) as H. rewrite E in H.
  cbn in H. subst n. discriminate E.
Qed.

Lemma N_toString_not_length (n : N) : String.eqb (N_toString n) "length" = false.
Proof.
  destruct (String.eqb (N_toString n) "length") eqn:E; [|reflexivity].
  apply String.eqb_eq in E. pose proof (N_toString_digits n) as H.
  rewrite E in H. discriminate H.
Qed.

Lemma arrayIndex_N_toString (n : N) : arrayIndex (N_toString n) = Some n.
Proof.
  unfold arrayIndex. unfold N_toString at 1. rewrite NilEmpty.usu.
  rewrite DecimalN.Unsigned.of_to, N_toString_nonEmpty, String.eqb_refl.
  reflexivity.
Qed.

Lemma ownProperty_index (items : list Value) (n : N) :
  ownProperty (VArr items) (N_toString n) = nth (N.to_nat n) items VUndefined.
Proof.
  simpl. now rewrite N_toString_not_length, arrayIndex_N_toString.
Qed.

Lemma scan_index (n : N) (rest pending : string) :
  scan ("[" ++ N_toString n ++ "]" ++ rest) false pending
  = flush pending ++ TIndex n :: scan rest false EmptyString.
Proof.
  simpl. f_equal.
  rewrite (scan_digits _ _ _ (N_toString_digits n)). simpl.
  now rewrite N_toString_nonEmpty, Number_of_N_toString.
Qed.

Lemma scan_printSegments (tokens : list Token) :
  forall pending,
  forallb wellFormedToken tokens = true ->
  scan (printSegments tokens) false pending = flush pending ++ tokens.
Proof.
  induction tokens as [|t rest IH]; intros pending H.
  - simpl. now rewrite app_nil_r.
  - simpl in H. apply andb_true_iff in H. destruct H as [Ht Hrest].
    destruct t as [s|n].
    + simpl in Ht. apply andb_true_iff in Ht. destruct Ht as [Hne Hs].
      simpl. f_equal.
      rewrite (scan_name _ _ _ Hs), (IH _ Hrest). simpl.
      unfold flush. now rewrite Hne.
    + cbn [printSegments]. rewrite scan_index, (IH _ Hrest). reflexivity.
Qed.

Lemma tokenize_printPath (tokens : list Token) :
  forallb wellFormedToken tokens = true ->
  tokenize (printPath tokens) = tokens.
Proof.
  intros H. unfold tokenize, printPath.
  destruct tokens as [|[s|n] rest].
  - reflexivity.
  - simpl in H. apply andb_true_iff in H. destruct H as [Ht Hrest].
    apply andb_true_iff in Ht. destruct Ht as [Hne Hs].
    rewrite (scan_name _ _ _ Hs), (scan_printSegments _ _ Hrest). simpl.
    unfold flush. now rewrite Hne.
  - now rewrite (scan_printSegments _ _ H).
Qed.

Lemma printPath_nonEmpty (tokens : list Token) :
  wellFormedPath tokens = true -> nonEmpty (printPath tokens) = true.
Proof.
  destruct tokens as [|[s|n] rest]; simpl; [discriminate| |reflexivity].
  intros H. apply andb_true_iff in H. destruct H as [Ht _].
  apply andb_true_iff in Ht. destruct Ht as [Hne _].
  destruct s; [discriminate|reflexivity].
Qed.

(** *** The loop computes [resolve] *)

Lemma walk_resolve (tokens : list Token) :
  forall cur, walk tokens cur = Ok (resolve tokens cur).
Proof.
  induction tokens as [|t rest IH]; intros cur; [reflexivity|].
  destruct cur, t; try reflexivity;
    cbn [walk resolve nullish isArray typeof JsType_eqb negb].
  - rewrite get_ok by reflexivity. cbn [bind]. apply IH.
  - unfold getIndex. rewrite get_ok by reflexivity. cbn [bind].
    rewrite IH, ownProperty_index. reflexivity.
  - rewrite get_ok by reflexivity. cbn [bind]. apply IH.
Qed.

Lemma resolve_undefined (tokens : list Token) : resolve tokens VUndefined = VUndefined.
Proof. destruct tokens; reflexivity. Qed.

Lemma resolve_app (before after : list Token) :
  forall cur, resolve (before ++ after) cur = resolve after (resolve before cur).
Proof.
  induction before as [|t rest IH]; intros cur; [reflexivity|].
  destruct cur, t; simpl; rewrite ?resolve_undefined; try reflexivity; apply IH.
Qed.




(** ** Record extractor *)

Lemma findContainer_found (json : Value) (arr : list Value) (key : string) :
  forall (before after : list string),
  nullish json = false ->
  ownProperty json key = VArr arr ->
  (forall k, In k before -> isArray (ownProperty json k) = false) ->
  findContainer json (before ++ key :: after) = Ok (Some (key, arr)).
Proof.
  intros before after Hn Hkey. induction before as [|k rest IH]; intros Hb; simpl.
  - rewrite (get_ok _ _ Hn), Hkey. reflexivity.
  - rewrite (get_ok _ _ Hn). cbn [bind].
    pose proof (Hb k (or_introl eq_refl)) as Hk.
    destruct (ownProperty json k); try discriminate Hk;
      apply IH; intros k' Hin; apply Hb; now right.
Qed.

Lemma findContainer_none (json : Value) (keys : list string) :
  nullish json = false ->
  (forall k, In k keys -> isArray (ownProperty json k) = false) ->
  findContainer json keys = Ok None.
Proof.
  intros Hn. induction keys as [|k rest IH]; intros Hb; simpl; [reflexivity|].
  rewrite (get_ok _ _ Hn). cbn [bind].
  pose proof (Hb k (or_introl eq_refl)) as Hk.
  destruct (ownProperty json k); try discriminate Hk;
    apply IH; intros k' Hin; apply Hb; now right.
Qed.

Lemma isMapping_not_nullish (v : Value) : isMapping v = true -> nullish v = false.
Proof. intros H. destruct (isMapping_VObj _ H) as [props ->]. reflexivity. Qed.

(** C7 as stated fails on nested arrays: the filter keeps every element
    that is a non-null object, and an array is one.  [[[1,2],{"a":1}]]
    yields two records, the first of which is not a mapping. *)
Lemma extractRecords_nested_array_counterexample :
  extractRecords (VArr [VArr [VNum 1; VNum 2]; VObj [("a", VNum 1)]])
  = Ok {| records := [VArr [VNum 1; VNum 2]; VObj [("a", VNum 1)]];
          sourcePath := Some "$" |} /\
  filter isMapping [VArr [VNum 1; VNum 2]; VObj [("a", VNum 1)]]
  = [VObj [("a", VNum 1)]] /\
  ~ (forall items,
       extractRecords (VArr items)
       = Ok {| records := filter isMapping items; sourcePath := Some "$" |}).
Proof.
  repeat split.
  intros H. specialize (H [VArr [VNum 1; VNum 2]; VObj [("a", VNum 1)]]).
  discriminate H.
Qed.

(** C7, amended.  An array input yields, in order, exactly its elements
    that are non-null objects (mappings and nested arrays; primitives and
    [null] are dropped), with source path ["$"].  A mapping input is
    scanned along [candidateKeys]: the first key whose value is an array
    wins and yields that array filtered the same way, with source path
    ["$.<key>"]; a mapping without such a key is itself the sole record,
    with source path ["$"].  A primitive or [null] yields no record and a
    [null] source path.  The three examples of the specification hold. *)
Theorem extractRecords_shapes (json : Value) :
  (forall items, json = VArr items ->
     extractRecords json
     = Ok {| records := filter isObjectLike items; sourcePath := Some "$" |}) /\
  (forall before key after arr,
     isMapping json = true ->
     candidateKeys = before ++ key :: after ->
     ownProperty json key = VArr arr ->
     (forall k, In k before -> isArray (ownProperty json k) = false) ->
     extractRecords json
     = Ok {| records := filter isObjectLike arr;
             sourcePath := Some ("$." ++ key)%string |}) /\
  (isMapping json = true ->
   (forall k, In k candidateKeys -> isArray (ownProperty json k) = false) ->
   extractRecords json = Ok {| records := [json]; sourcePath := Some "$" |}) /\
  (isObjectLike json = false ->
   extractRecords json = Ok {| records := []; sourcePath := None |}) /\
  extractRecords
    (VObj [("issues", VArr [VObj [("Title", VStr "A")]; VObj [("Title", VStr "B")]])])
  = Ok {| records := [VObj [("Title", VStr "A")]; VObj [("Title", VStr "B")]];
          sourcePath := Some "$.issues" |} /\
  extractRecords (VArr [VNum 1; VNum 2; VObj [("a", VNum 1)]])
  = Ok {| records := [VObj [("a", VNum 1)]]; sourcePath := Some "$" |} /\
  extractRecords (VStr "hello") = Ok {| records := []; sourcePath := None |}.
Proof.
  split; [intros items ->; reflexivity|].
  split.
  { intros before key after arr Hm Hkeys Hkey Hbefore.
    destruct (isMapping_VObj _ Hm) as [props ->].
    unfold extractRecords. cbn [isObjectLike truthy typeof JsType_eqb andb].
    rewrite Hkeys, (findContainer_found (VObj props) arr key before after eq_refl Hkey Hbefore).
    reflexivity. }
  split.
  { intros Hm Hnone. destruct (isMapping_VObj _ Hm) as [props ->].
    unfold extractRecords. cbn [isObjectLike truthy typeof JsType_eqb andb].
    rewrite (findContainer_none (VObj props) _ eq_refl Hnone). reflexivity. }
  split; [|repeat split].
  intros Hobj. destruct json; try (unfold extractRecords; rewrite Hobj; reflexivity).
  discriminate Hobj.
Qed.

Lemma extractRecords_shapes_witness :
  extractRecords (VObj [("Issues", VArr [VNum 7; VObj [("Title", VStr "A")]])])
  = Ok {| records := [VObj [("Title", VStr "A")]]; sourcePath := Some "$.Issues" |} /\
  extractRecords (VObj [("Title", VStr "A")])
  = Ok {| records := [VObj [("Title", VStr "A")]]; sourcePath := Some "$" |} /\
  extractRecords VNull = Ok {| records := []; sourcePath := None |}.
Proof.
  split; [|split].
  - apply (proj1 (proj2 (extractRecords_shapes
                           (VObj [("Issues", VArr [VNum 7; VObj [("Title", VStr "A")]])])))
             [ "items"; "results"; "data"; "value"; "records"; "issues"; "rfis";
               "submittals" ]
             "Issues"
             [ "RFIs"; "Submittals"; "Items"; "Results"; "Data"; "Value"; "Records" ]
             [VNum 7; VObj [("Title", VStr "A")]]).
    + reflexivity.
    + reflexivity.
    + reflexivity.
    + intros k Hk. simpl in Hk.
      repeat (destruct Hk as [<-|Hk]; [reflexivity|]). destruct Hk.
  - apply (proj1 (proj2 (proj2 (extractRecords_shapes (VObj [("Title", VStr "A")]))))).
    + reflexivity.
    + intros k Hk. simpl in Hk.
      repeat (destruct Hk as [<-|Hk]; [reflexivity|]). destruct Hk.
  - apply (proj1 (proj2 (proj2 (proj2 (extractRecords_shapes VNull))))).
    reflexivity.
Defined.

(** ** Type classifier *)

Lemma total_Ok {A : Type} (a : A) : total (Ok a).
Proof. now exists a. Qed.

Lemma total_bind {A B : Type} (c : Result A) (k : A -> Result B) :
  total c -> (forall a, total (k a)) -> total (bind c k).
Proof. intros [a ->] Hk. apply Hk. Qed.

Lemma total_if {A : Type} (b : bool) (c d : Result A) :
  total c -> total d -> total (if b then c else d).
Proof. now destruct b. Qed.

Create HintDb totality.
#[local] Hint Resolve total_Ok total_bind total_if : totality.

Lemma total_mapM {A B : Type} (f : A -> Result B) (xs : list A) :
  (forall x, In x xs -> total (f x)) -> total (mapM f xs).
Proof.
  induction xs as [|x rest IH]; intros H; simpl; [apply total_Ok|].
  apply total_bind; [apply H; now left|]. intros y.
  apply total_bind; [apply IH; intros; apply H; now right|]. intros ys.
  apply total_Ok.
Qed.

Lemma mapM_Ok {A B : Type} (f : A -> Result B) (xs : list A) (ys : list B) :
  mapM f xs = Ok ys -> Forall2 (fun x y => f x = Ok y) xs ys.
Proof.
  revert ys. induction xs as [|x rest IH]; intros ys; simpl.
  - intros [= <-]. constructor.
  - destruct (f x) as [y|e] eqn:Hx; [|discriminate]. cbn [bind].
    destruct (mapM f rest) as [ys'|e] eqn:Hrest; [|discriminate]. cbn [bind].
    intros [= <-]. constructor; [exact Hx|now apply IH].
Qed.

Lemma total_get (v : Value) (k : string) : nullish v = false -> total (get v k).
Proof. intros H. rewrite (get_ok _ _ H). apply total_Ok. Qed.

Lemma total_hasOwnProperty (v : Value) (k : string) :
  nullish v = false -> total (hasOwnProperty v k).
Proof. destruct v; try discriminate; intros _; apply total_Ok. Qed.

Lemma total_hasAny (v : Value) (keys : list string) :
  nullish v = false -> total (hasAny v keys).
Proof.
  intros H. induction keys as [|k rest IH]; simpl; [apply total_Ok|].
  apply total_bind; [now apply total_hasOwnProperty|].
  intros b. apply total_if; [apply total_Ok|exact IH].
Qed.

Lemma total_andM (a b : Result bool) : total a -> total b -> total (andM a b).
Proof.
  intros Ha Hb. apply total_bind; [exact Ha|].
  intros x. apply total_if; [exact Hb|apply total_Ok].
Qed.

Lemma total_orM (a b : Result bool) : total a -> total b -> total (orM a b).
Proof.
  intros Ha Hb. apply total_bind; [exact Ha|].
  intros x. apply total_if; [apply total_Ok|exact Hb].
Qed.

Lemma total_firstString (obj : Value) (keys : list string) :
  total (firstString obj keys).
Proof.
  induction keys as [|k rest IH]; simpl; [apply total_Ok|].
  destruct (isObjectLike obj) eqn:Ho; [|exact IH].
  rewrite (get_objectLike _ _ Ho). cbn [bind].
  destruct (ownProperty obj k); try exact IH.
  apply total_if; [apply total_Ok|exact IH].
Qed.

#[local] Hint Resolve total_get total_hasOwnProperty total_hasAny total_andM
  total_orM total_firstString : totality.

Lemma total_detectRecordTypeFromObject (obj : Value) :
  total (detectRecordTypeFromObject obj).
Proof.
  unfold detectRecordTypeFromObject.
  destruct (isMapping obj) eqn:Hm; [|apply total_Ok]. cbn [negb].
  pose proof (isMapping_not_nullish _ Hm) as Hn.
  apply total_bind; [apply total_firstString|]. intros hint.
  destruct (typeOfHint hint); [apply total_Ok|].
  apply total_bind; [auto 12 with totality|]. intros s1.
  apply total_bind; [auto 12 with totality|]. intros s2.
  apply total_if; [apply total_Ok|].
  apply total_bind; [auto 12 with totality|]. intros s3.
  apply total_if; [apply total_Ok|].
  apply total_bind; [auto 12 with totality|]. intros s4.
  apply total_if; apply total_Ok.
Qed.

Lemma total_extractRecords (json : Value) : total (extractRecords json).
Proof.
  unfold extractRecords.
  assert (H : forall keys, isObjectLike json = true -> total (findContainer json keys)).
  { intros keys Ho. induction keys as [|k rest IH]; simpl; [apply total_Ok|].
    rewrite (get_objectLike _ _ Ho). cbn [bind].
    destruct (ownProperty json k); try exact IH. apply total_Ok. }
  destruct json; try apply total_Ok;
    (destruct (isObjectLike _) eqn:Ho; [|apply total_Ok]);
    (apply total_bind; [now apply H|]);
    intros [[key arr]|]; apply total_Ok.
Qed.

Lemma RecordType_eqb_eq (a b : RecordType) : RecordType_eqb a b = true <-> a = b.
Proof. destruct a, b; simpl; split; intros; try reflexivity; discriminate. Qed.

Lemma existsb_RecordType (x : RecordType) (seen : list RecordType) :
  existsb (RecordType_eqb x) seen = true <-> In x seen.
Proof.
  rewrite existsb_exists. split.
  - intros [y [Hy Hxy]]. apply RecordType_eqb_eq in Hxy. now subst y.
  - intros H. exists x. split; [exact H|now apply RecordType_eqb_eq].
Qed.

Lemma distinctTypes_In (types : list RecordType) :
  forall seen t,
  In t (distinctTypes seen types) <-> In t types /\ ~ In t seen.
Proof.
  induction types as [|x rest IH]; intros seen t; simpl.
  - tauto.
  - destruct (existsb (RecordType_eqb x) seen) eqn:E.
    + apply existsb_RecordType in E. rewrite IH.
      split; [tauto|]. intros [[Hx|H] Hs]; [subst x; tauto|tauto].
    + assert (Hx : ~ In x seen).
      { intros Hin. apply existsb_RecordType in Hin. congruence. }
      simpl. rewrite IH. simpl.
      destruct (RecordType_eqb x t) eqn:Ext.
      * apply RecordType_eqb_eq in Ext. subst t. tauto.
      * assert (x <> t).
        { intros Heq. apply RecordType_eqb_eq in Heq. congruence. }
        tauto.
Qed.

Lemma distinctTypes_all_same (ty : RecordType) (types : list RecordType) :
  (forall t, In t types -> t = ty) -> distinctTypes [ty] types = [].
Proof.
  induction types as [|x rest IH]; intros H; simpl; [reflexivity|].
  rewrite (H x (or_introl eq_refl)).
  replace (RecordType_eqb ty ty) with true by now destruct ty.
  simpl. apply IH. intros t Ht. apply H. now right.
Qed.

Lemma mapM_In {A B : Type} (f : A -> Result B) (xs : list A) (ys : list B) :
  mapM f xs = Ok ys ->
  (forall y, In y ys -> exists x, In x xs /\ f x = Ok y) /\
  (forall x, In x xs -> exists y, In y ys /\ f x = Ok y).
Proof.
  intros H. apply mapM_Ok in H.
  induction H as [|x y xs' ys' Hxy _ [IH1 IH2]]; split; simpl; try tauto.
  - intros y' [<-|Hy]; [eauto|].
    destruct (IH1 _ Hy) as [x' [Hin Hf]]. eauto.
  - intros x' [<-|Hx]; [eauto|].
    destruct (IH2 _ Hx) as [y' [Hin Hf]]. eauto.
Qed.

(** C9.  Document-level classification extracts the records and
    classifies each of them; both steps always complete.  Without records
    the document is Generic; when every record classifies to one type the
    document has that type; when two records classify differently the
    document is Generic. *)
Theorem detectRecordType_agreement (json : Value) :
  exists ex,
    extractRecords json = Ok ex /\
    (forall r, In r (records ex) -> total (detectRecordTypeFromObject r)) /\
    (records ex = [] -> detectRecordType json = Ok Generic) /\
    (forall ty,
       records ex <> [] ->
       (forall r, In r (records ex) -> detectRecordTypeFromObject r = Ok ty) ->
       detectRecordType json = Ok ty) /\
    (forall r1 r2 t1 t2,
       In r1 (records ex) -> In r2 (records ex) ->
       detectRecordTypeFromObject r1 = Ok t1 ->
       detectRecordTypeFromObject r2 = Ok t2 ->
       t1 <> t2 ->
       detectRecordType json = Ok Generic).
Proof.
  destruct (total_extractRecords json) as [ex Hex]. exists ex.
  split; [exact Hex|].
  split; [intros r _; apply total_detectRecordTypeFromObject|].
  unfold detectRecordType. rewrite Hex. cbn [bind].
  destruct (records ex) as [|r0 rest] eqn:Hrecs.
  { split; [reflexivity|]. split; [intros ty Hne; now destruct Hne|].
    intros r1 r2 t1 t2 []. }
  split; [discriminate|].
  destruct (total_mapM detectRecordTypeFromObject (r0 :: rest)) as [types Htypes].
  { intros x _. apply total_detectRecordTypeFromObject. }
  rewrite Htypes. cbn [bind].
  destruct (mapM_In _ _ _ Htypes) as [Hback Hforth].
  split.
  - intros ty _ Hall.
    assert (Hsame : forall t, In t types -> t = ty).
    { intros t Ht. destruct (Hback _ Ht) as [x [Hx Hfx]].
      rewrite (Hall _ Hx) in Hfx. now injection Hfx. }
    destruct types as [|t0 types'].
    { destruct (Hforth r0 (or_introl eq_refl)) as [y [[] _]]. }
    simpl. rewrite (Hsame t0 (or_introl eq_refl)).
    rewrite distinctTypes_all_same; [reflexivity|].
    intros t Ht. apply Hsame. now right.
  - intros r1 r2 t1 t2 H1 H2 Hc1 Hc2 Hne.
    assert (Hin : forall r t, In r (r0 :: rest) ->
                    detectRecordTypeFromObject r = Ok t ->
                    In t (distinctTypes [] types)).
    { intros r t Hr Hc. apply distinctTypes_In. split; [|intros []].
      destruct (Hforth _ Hr) as [y [Hy Hfy]]. rewrite Hc in Hfy.
      injection Hfy as ->. exact Hy. }
    pose proof (Hin _ _ H1 Hc1) as I1. pose proof (Hin _ _ H2 Hc2) as I2.
    destruct (distinctTypes [] types) as [|a [|b more]]; try reflexivity.
    exfalso. apply Hne.
    destruct I1 as [<-|[]]. destruct I2 as [<-|[]]. reflexivity.
Qed.

Lemma detectRecordType_agreement_witness :
  detectRecordType (VArr [VObj [("Question", VStr "Why?")];
                          VObj [("Answer", VStr "Because")]]) = Ok RFI /\
  detectRecordType (VArr [VObj [("Question", VStr "Why?")];
                          VObj [("note", VStr "none")]]) = Ok Generic /\
  detectRecordType (VArr [VNum 1; VNum 2]) = Ok Generic.
Proof.
  split; [|split].
  - destruct (detectRecordType_agreement
                (VArr [VObj [("Question", VStr "Why?")];
                       VObj [("Answer", VStr "Because")]]))
      as [ex [Hex [_ [_ [Hsame _]]]]].
    injection Hex as <-. apply Hsame; [discriminate|].
    intros r [<-|[<-|[]]]; reflexivity.
  - destruct (detectRecordType_agreement
                (VArr [VObj [("Question", VStr "Why?")];
                       VObj [("note", VStr "none")]]))
      as [ex [Hex [_ [_ [_ Hdiff]]]]].
    injection Hex as <-.
    apply (Hdiff (VObj [("Question", VStr "Why?")]) (VObj [("note", VStr "none")])
                 RFI Generic).
    + now left.
    + right. now left.
    + reflexivity.
    + reflexivity.
    + discriminate.
  - destruct (detectRecordType_agreement (VArr [VNum 1; VNum 2]))
      as [ex [Hex [_ [Hnone _]]]].
    injection Hex as <-. apply Hnone. reflexivity.
Defined.

(** ** Dataset detection *)

Lemma In_firstn {A : Type} (n : nat) :
  forall (l : list A) (x : A), In x (firstn n l) -> In x l.
Proof.
  induction n as [|n IH]; intros [|a l] x; simpl; try tauto.
  intros [->|H]; [now left|right; now apply IH].
Qed.

Lemma sampleOf_mappings (items : list Value) (o : Value) :
  In o (sampleOf items) -> isMapping o = true.
Proof.
  unfold sampleOf. intros H. apply In_firstn in H.
  apply filter_In in H. apply H.
Qed.

Lemma mapM_Object_keys_of (sample : list Value) :
  (forall o, In o sample -> isMapping o = true) ->
  mapM Object_keys_of sample = Ok (map keysOfMapping sample).
Proof.
  induction sample as [|o rest IH]; intros H; simpl; [reflexivity|].
  destruct (isMapping_VObj o (H o (or_introl eq_refl))) as [props ->].
  simpl. rewrite IH; [reflexivity|]. intros o Ho. apply H. now right.
Qed.

Lemma existsb_eqb_In (k : string) (ks : list string) :
  existsb (String.eqb k) ks = true <-> In k ks.
Proof.
  rewrite existsb_exists. split.
  - intros [y [Hy Hk]]. apply String.eqb_eq in Hk. now subst y.
  - intros H. exists k. split; [exact H|apply String.eqb_refl].
Qed.

Lemma dedup_In (ks : list string) :
  forall seen k, In k (dedup seen ks) <-> In k ks /\ ~ In k seen.
Proof.
  induction ks as [|x rest IH]; intros seen k; simpl.
  - tauto.
  - destruct (existsb (String.eqb x) seen) eqn:E.
    + apply existsb_eqb_In in E. rewrite IH.
      split; [tauto|]. intros [[Hx|H] Hs]; [subst x; tauto|tauto].
    + assert (Hx : ~ In x seen).
      { intros Hin. apply existsb_eqb_In in Hin. congruence. }
      simpl. rewrite IH. simpl.
      destruct (String.eqb x k) eqn:Exk.
      * apply String.eqb_eq in Exk. subst k. tauto.
      * apply String.eqb_neq in Exk. tauto.
Qed.

Lemma bool_eq_iff (a b : bool) : (a = true <-> b = true) -> a = b.
Proof.
  destruct a, b; intros [H1 H2]; try reflexivity.
  - symmetry. now apply H1.
  - now apply H2.
Qed.

Lemma setHas_Object_keys (props : list (string * Value)) (k : string) :
  setHas (Object_keys props) k = hasKey (VObj props) k.
Proof.
  apply bool_eq_iff. unfold setHas, Object_keys, hasKey.
  rewrite existsb_eqb_In, dedup_In, existsb_exists, in_map_iff. split.
  - intros [[[k' v] [Hk Hin]] _]. simpl in Hk. subst k'.
    exists (k, v). split; [exact Hin|apply String.eqb_refl].
  - intros [[k' v] [Hin Hk]]. simpl in Hk. apply String.eqb_eq in Hk. subst k'.
    split; [|intros []]. exists (k, v). now split.
Qed.

Lemma keyHits_presence (sample : list Value) (k : string) :
  (forall o, In o sample -> isMapping o = true) ->
  keyHits (map keysOfMapping sample) k = presence sample k.
Proof.
  unfold keyHits, presence.
  induction sample as [|o rest IH]; intros H; simpl; [reflexivity|].
  destruct (isMapping_VObj o (H o (or_introl eq_refl))) as [props ->].
  cbn [keysOfMapping]. rewrite setHas_Object_keys.
  assert (Hrest : forall o, In o rest -> isMapping o = true).
  { intros o Ho. apply H. now right. }
  destruct (hasKey (VObj props) k); simpl; rewrite (IH Hrest); reflexivity.
Qed.

Lemma countNested_counts (o : Value) (keys : list string) :
  nullish o = false ->
  forall t n,
  countNested o keys (t, n)
  = Ok ((t + List.length keys)%nat,
        (n + List.length (filter (fun k => isObjectLike (ownProperty o k)) keys))%nat).
Proof.
  intros Ho. induction keys as [|k rest IH]; intros t n; simpl.
  - now rewrite !Nat.add_0_r.
  - rewrite (get_ok _ _ Ho). cbn [bind]. rewrite IH.
    destruct (isObjectLike (ownProperty o k)); simpl; f_equal; apply f_equal2; lia.
Qed.

Lemma countValues_counts (sample : list Value) :
  (forall o, In o sample -> isMapping o = true) ->
  forall t n,
  foldM (fun acc o => keys <- Object_keys_of o ;; countNested o keys acc) sample (t, n)
  = Ok ((t + fieldCount sample)%nat, (n + nestedFieldCount sample)%nat).
Proof.
  unfold fieldCount, nestedFieldCount.
  induction sample as [|o rest IH]; intros H t n; simpl.
  - now rewrite !Nat.add_0_r.
  - destruct (isMapping_VObj o (H o (or_introl eq_refl))) as [props ->].
    cbn [Object_keys_of bind]. rewrite countNested_counts by reflexivity.
    cbn [bind]. rewrite IH by (intros o Ho; apply H; now right).
    cbn [keysOfMapping]. f_equal. apply f_equal2; lia.
Qed.

Lemma commonCount_commonKeys (sample : list Value) :
  (forall o, In o sample -> isMapping o = true) ->
  filter (fun k => ratio_geb (keyHits (map keysOfMapping sample) k)
                             (List.length (map keysOfMapping sample)) 3 5)
         (observedKeys sample)
  = commonKeys sample.
Proof.
  intros H. unfold commonKeys. apply filter_ext. intros k.
  unfold ratio_geb. now rewrite length_map, keyHits_presence.
Qed.

(** C8.  Dataset detection always completes.  An array is a dataset
    exactly when it has at least 80 elements, its sample (the first 25
    mapping-typed elements) has at least 10, the common keys (present in at
    least 60% of the sampled items) are at least a quarter of the observed
    keys, and the nested fields are at most a quarter of the sampled
    fields (a ratio over no key or no field is not met); a non-array never
    is.  The 100-row example is a dataset and its
    first 50 rows are not. *)
Theorem isLargeFlatArrayDataset_thresholds (json : Value) :
  total (isLargeFlatArrayDataset json) /\
  (isLargeFlatArrayDataset json = Ok true <->
   exists items,
     json = VArr items /\
     (80 <= List.length items)%nat /\
     (10 <= List.length (sampleOf items))%nat /\
     ((0 < List.length (observedKeys (sampleOf items)))%nat /\
      (1 * List.length (observedKeys (sampleOf items))
       <= 4 * List.length (commonKeys (sampleOf items)))%nat) /\
     ((0 < fieldCount (sampleOf items))%nat /\
      (4 * nestedFieldCount (sampleOf items)
       <= 1 * fieldCount (sampleOf items))%nat)) /\
  (isArray json = false -> isLargeFlatArrayDataset json = Ok false) /\
  (List.length exampleRows = 100%nat /\
   List.length (observedKeys (sampleOf exampleRows)) = 10%nat /\
   List.length (commonKeys (sampleOf exampleRows)) = 8%nat /\
   fieldCount (sampleOf exampleRows) = 210%nat /\
   nestedFieldCount (sampleOf exampleRows) = 21%nat /\
   isLargeFlatArrayDataset (VArr exampleRows) = Ok true /\
   isLargeFlatArrayDataset (VArr (firstn 50 exampleRows)) = Ok false).
Proof.
  assert (Hnon : isArray json = false -> isLargeFlatArrayDataset json = Ok false).
  { destruct json; try reflexivity. discriminate. }
  split; [|split; [|split; [exact Hnon|]]].
  3: { repeat split; vm_compute; reflexivity. }
  all: destruct json as [| | | | |items|];
    try (rewrite Hnon by reflexivity;
         first [ apply total_Ok
               | split; [discriminate | intros [items [Hj _]]; discriminate Hj] ]).
  all: unfold isLargeFlatArrayDataset; fold (sampleOf items);
    pose proof (sampleOf_mappings items) as Hs;
    destruct (Nat.ltb_spec (List.length items) 80) as [H80|H80];
    [ first [ apply total_Ok
            | split; [discriminate | intros [l [[= <-] [H _]]]; lia] ] | ];
    destruct (Nat.ltb_spec (List.length (sampleOf items)) 10) as [H10|H10];
    [ first [ apply total_Ok
            | split; [discriminate | intros [l [[= <-] [_ [H _]]]]; lia] ] | ];
    rewrite (mapM_Object_keys_of _ Hs); cbn [bind];
    fold (observedKeys (sampleOf items));
    destruct (Nat.eqb_spec (List.length (observedKeys (sampleOf items))) 0) as [H0|H0];
    [ first [ apply total_Ok
            | split; [discriminate | intros [l [[= <-] [_ [_ [[H _] _]]]]]; lia] ] | ];
    unfold countValues; rewrite (countValues_counts _ Hs); cbn [bind Nat.add];
    rewrite (commonCount_commonKeys _ Hs).
  - apply total_Ok.
  - unfold ratio_geb, ratio_leb.
    destruct (Nat.eqb_spec (fieldCount (sampleOf items)) 0) as [Hf|Hf].
    + rewrite andb_false_r. split; [discriminate|].
      intros [l [[= <-] [_ [_ [_ [H _]]]]]]. lia.
    + split.
      * intros [= H]. apply andb_true_iff in H. destruct H as [Hc Hn].
        apply Nat.leb_le in Hc, Hn. exists items. repeat split; try lia.
      * intros [l [[= <-] [_ [_ [[_ Hc] [_ Hn]]]]]].
        f_equal. apply andb_true_iff. split; apply Nat.leb_le; lia.
Qed.

Lemma isLargeFlatArrayDataset_thresholds_witness :
  isLargeFlatArrayDataset (VArr (repeat flatRow 80)) = Ok true /\
  isLargeFlatArrayDataset (VStr "rows") = Ok false.
Proof.
  split.
  - apply (proj2 (proj1 (proj2
             (isLargeFlatArrayDataset_thresholds (VArr (repeat flatRow 80)))))).
    exists (repeat flatRow 80).
    split; [reflexivity|]. repeat split; vm_compute; lia.
  - apply (proj1 (proj2 (proj2 (isLargeFlatArrayDataset_thresholds (VStr "rows"))))).
    reflexivity.
Defined.

(** ** Template matcher *)

(** C4 as stated fails on a record that is not an object: the matcher
    answers [false] before it looks at the match block.  [plainTemplate]
    is valid and has no match block; the record ["hello"] is what the
    viewer passes on when a document is a bare string. *)
Lemma templateMatchesRecord_primitive_counterexample :
  validateTemplate plainTemplate = Ok valid /\
  declaresNoMatch plainTemplate = true /\
  templateMatchesRecord plainTemplate (VStr "hello") = Ok false.
Proof. repeat split. Qed.

(** C4, amended.  For every template whose match block is empty and every
    record that is a non-null object (a mapping or an array),
    [templateMatchesRecord] returns [true]; for a record that is a
    primitive, [null] or [undefined] it returns [false]. *)
Theorem templateMatchesRecord_no_match_block (tpl record : Value)
    (Htpl : isObjectLike tpl = true) (Hnone : declaresNoMatch tpl = true) :
  (isObjectLike record = true -> templateMatchesRecord tpl record = Ok true) /\
  (isObjectLike record = false -> templateMatchesRecord tpl record = Ok false).
Proof.
  unfold templateMatchesRecord. rewrite Htpl. cbn [negb].
  split; intros Hrec; rewrite Hrec; cbn [negb]; [|reflexivity].
  rewrite (get_objectLike _ _ Htpl). cbn [bind].
  unfold declaresNoMatch in Hnone.
  destruct (isObjectLike (ownProperty tpl "match")) eqn:Hm; [|reflexivity].
  cbn [negb orb] in Hnone. cbn [negb].
  apply andb_true_iff in Hnone. destruct Hnone as [Hrk Htf].
  rewrite !(get_objectLike _ _ Hm). cbn [bind].
  assert (Hkeys : match ownProperty (ownProperty tpl "match") "requiredKeys" with
                  | VArr keys => hasRequiredKeys record keys
                  | _ => Ok true
                  end = Ok true).
  { destruct (ownProperty (ownProperty tpl "match") "requiredKeys")
      as [| | | | |[|k keys]|]; try reflexivity; discriminate Hrk. }
  rewrite Hkeys. cbn [bind negb].
  destruct (ownProperty (ownProperty tpl "match") "typeField") as [| | | |tf| |];
    try reflexivity.
  simpl in Htf. rewrite Htf, andb_false_r. reflexivity.
Qed.

Lemma templateMatchesRecord_no_match_block_witness :
  templateMatchesRecord
    (VObj [("templateName", VStr "Any"); ("match", VObj [("requiredKeys", VArr [])])])
    (VObj [("a", VNum 1)]) = Ok true /\
  templateMatchesRecord
    (VObj [("templateName", VStr "Any"); ("match", VObj [("requiredKeys", VArr [])])])
    (VNum 5) = Ok false.
Proof.
  split.
  - apply (proj1 (templateMatchesRecord_no_match_block
                    (VObj [("templateName", VStr "Any");
                           ("match", VObj [("requiredKeys", VArr [])])])
                    (VObj [("a", VNum 1)]) eq_refl eq_refl)).
    reflexivity.
  - apply (proj2 (templateMatchesRecord_no_match_block
                    (VObj [("templateName", VStr "Any");
                           ("match", VObj [("requiredKeys", VArr [])])])
                    (VNum 5) eq_refl eq_refl)).
    reflexivity.
Defined.

(** ** Template-driven renderer *)


(** ** Templates without fields *)







(** ** kvlist shaping *)

Lemma kvRows_bound (itemKeyPath : string) (valuePaths : list string) (maxItems : Z)
    (items : list Value) :
  forall rows rows',
  (1 <= maxItems)%Z ->
  (Z.of_nat (List.length rows) < maxItems)%Z ->
  kvRows itemKeyPath valuePaths maxItems items rows = Ok rows' ->
  (Z.of_nat (List.length rows') <= maxItems)%Z.
Proof.
  induction items as [|item rest IH]; intros rows rows' Hmax Hlen; simpl.
  - intros [= <-]. lia.
  - destruct (negb (isMapping item)); [now apply IH|].
    destruct (kvKey item itemKeyPath) as [key|e]; cbn [bind]; [|discriminate].
    destruct (negb (nonEmpty key)); [now apply IH|].
    destruct (findValue item valuePaths) as [val|e]; cbn [bind]; [|discriminate].
    destruct (isBlank val) as [[|]|e]; cbn [bind]; try discriminate; [now apply IH|].
    destruct (js_String val) as [text|e]; cbn [bind]; [|discriminate].
    rewrite length_app. cbn [List.length].
    destruct (Z.leb_spec maxItems (Z.of_nat (List.length rows + 1))) as [Hfull|Hroom].
    + intros [= <-]. rewrite length_app. cbn [List.length]. lia.
    + apply IH; [exact Hmax|]. rewrite length_app. cbn [List.length]. lia.
Qed.

Lemma kvRows_labels (itemKeyPath : string) (valuePaths : list string) (maxItems : Z)
    (items : list Value) :
  forall rows rows',
  Forall (fun r => nonEmpty (rowKey r) = true) rows ->
  kvRows itemKeyPath valuePaths maxItems items rows = Ok rows' ->
  Forall (fun r => nonEmpty (rowKey r) = true) rows'.
Proof.
  induction items as [|item rest IH]; intros rows rows' Hrows; simpl.
  - intros [= <-]. exact Hrows.
  - destruct (negb (isMapping item)); [now apply IH|].
    destruct (kvKey item itemKeyPath) as [key|e]; cbn [bind]; [|discriminate].
    destruct (nonEmpty key) eqn:Hkey; cbn [negb]; [|now apply IH].
    destruct (findValue item valuePaths) as [val|e]; cbn [bind]; [|discriminate].
    destruct (isBlank val) as [[|]|e]; cbn [bind]; try discriminate; [now apply IH|].
    destruct (js_String val) as [text|e]; cbn [bind]; [|discriminate].
    assert (Hnew : Forall (fun r => nonEmpty (rowKey r) = true)
                     (rows ++ [ {| rowKey := key; rowText := text;
                                   rowTitled := false; rowIsEmpty := false |} ])).
    { apply Forall_app. split; [exact Hrows|]. constructor; [exact Hkey|constructor]. }
    destruct (maxItems <=? _)%Z; [intros [= <-]; exact Hnew|now apply IH].
Qed.

(** What holds of the declaration in force: at most [max(1, maxItems)]
    rows (6 by default), each with a non-empty label. *)
Lemma renderKvListValue_row_bound (arrValue cfg : Value) (rows : list KvRow) :
  renderKvListValue arrValue cfg = Ok (Some (KvList rows)) ->
  Forall (fun r => nonEmpty (rowKey r) = true) rows /\
  exists maxItems,
    kvMaxItems (js_or cfg (VObj [])) = Ok maxItems /\
    (1 <= maxItems)%Z /\
    (Z.of_nat (List.length rows) <= maxItems)%Z.
Proof.
  unfold renderKvListValue.
  destruct arrValue as [| | | | |[|item more]|]; try discriminate.
  destruct (kvItemKeyPath _) as [ikp|e]; cbn [bind]; [|discriminate].
  destruct (kvValuePaths _) as [vps|e]; cbn [bind]; [|discriminate].
  destruct (kvMaxItems _) as [maxItems|e] eqn:Hmax; cbn [bind]; [|discriminate].
  assert (H1 : (1 <= maxItems)%Z).
  { unfold kvMaxItems in Hmax.
    destruct (get _ "maxItems") as [v|e]; cbn [bind] in Hmax; [|discriminate].
    destruct v; injection Hmax as <-; lia. }
  destruct (kvRows ikp vps maxItems (item :: more) []) as [rs|e] eqn:Hrows;
    cbn [bind]; [|discriminate].
  destruct rs as [|r rs]; [discriminate|]. intros [= <-].
  split; [exact (kvRows_labels _ _ _ _ _ _ (Forall_nil _) Hrows)|].
  exists maxItems. split; [reflexivity|]. split; [exact H1|].
  refine (kvRows_bound ikp vps maxItems (item :: more) [] _ H1 _ Hrows).
  simpl. lia.
Qed.

(** The two declarations part ways on every labelled item without a
    value: the one in force renders nothing, the overridden one renders the
    row with [emptyText] once [showEmpty] is set. *)
Lemma renderKvListValue_blank_item (item cfg : Value) (itemKeyPath : string)
    (valuePaths : list string) (key : string) (val : Value) :
  kvItemKeyPath (js_or cfg (VObj [])) = Ok itemKeyPath ->
  kvValuePaths (js_or cfg (VObj [])) = Ok valuePaths ->
  isMapping item = true ->
  kvKey item itemKeyPath = Ok key -> nonEmpty key = true ->
  findValue item valuePaths = Ok val -> isBlank val = Ok true ->
  renderKvListValue (VArr [item]) cfg = Ok None /\
  (truthy (ownProperty (js_or cfg (VObj [])) "showEmpty") = true ->
   exists emptyText,
     nonEmpty emptyText = true /\
     renderKvListValue_overridden (VArr [item]) cfg
     = Ok (Some (KvList [ {| rowKey := key; rowText := emptyText;
                             rowTitled := true; rowIsEmpty := true |} ]))).
Proof.
  intros Hikp Hvps Hitem Hkey Hne Hval Hblank.
  assert (Hn : nullish (js_or cfg (VObj [])) = false).
  { unfold js_or. destruct (truthy cfg) eqn:Ht; [|reflexivity].
    destruct cfg; try reflexivity; discriminate Ht. }
  assert (Hmax : exists maxItems, kvMaxItems (js_or cfg (VObj [])) = Ok maxItems).
  { unfold kvMaxItems. rewrite (get_ok _ _ Hn). cbn [bind].
    destruct (ownProperty _ "maxItems"); eexists; reflexivity. }
  destruct Hmax as [maxItems Hmax].
  split.
  - unfold renderKvListValue. rewrite Hikp, Hvps, Hmax. cbn [bind kvRows].
    rewrite Hitem, Hkey. cbn [bind negb]. rewrite Hne, Hval. cbn [bind negb].
    rewrite Hblank. reflexivity.
  - intros Hshow.
    set (emptyText := match ownProperty (js_or cfg (VObj [])) "emptyText" with
                      | VStr s => if nonEmpty (trim s) then trim s else "(empty)"
                      | _ => "(empty)"
                      end).
    assert (Het : nonEmpty emptyText = true).
    { unfold emptyText.
      destruct (ownProperty (js_or cfg (VObj [])) "emptyText"); try reflexivity.
      destruct (nonEmpty (trim s)) eqn:E; [exact E|reflexivity]. }
    exists emptyText. split; [exact Het|].
    unfold renderKvListValue_overridden.
    rewrite Hikp, Hvps, Hmax, !(get_ok _ _ Hn). cbn [bind]. rewrite Hshow.
    fold emptyText. cbn [kvRows_overridden].
    rewrite Hitem, Hkey. cbn [bind negb]. rewrite Hne, Hval. cbn [bind negb].
    rewrite Hblank. cbn [bind]. rewrite Het. cbn [negb app].
    rewrite String.eqb_refl.
    destruct (maxItems <=? _)%Z; reflexivity.
Qed.

(** C3, where the code departs from the claim.  The field configuration
    sets [showEmpty]; the one item has a label and no value.  The
    declaration of [renderKvListValue] in force drops the row and returns
    the empty string; the overridden declaration renders the row with
    ["(empty)"].  The same field therefore counts for no hit. *)
Theorem renderKvListValue_showEmpty_dropped :
  let items := VArr [VObj [("Name", VStr "Color")]] in
  let field := VObj [ ("path", VStr "attrs"); ("label", VStr "Attrs");
                      ("format", VStr "kvlist"); ("showEmpty", VBool true) ] in
  renderKvListValue items field = Ok None /\
  renderKvListValue_overridden items field
  = Ok (Some (KvList [ {| rowKey := "Color"; rowText := "(empty)";
                          rowTitled := true; rowIsEmpty := true |} ])) /\
  countFieldHits (VObj [("attrs", items)]) [field] 0 = Ok 0%nat.
Proof. repeat split. Qed.

(** ** Template selection *)

Lemma total_matchBlock (tpl : Value) : total (matchBlock tpl).
Proof.
  unfold matchBlock. destruct (isObjectLike tpl) eqn:Ho; [|apply total_Ok].
  rewrite (get_objectLike _ _ Ho). apply total_Ok.
Qed.


Lemma total_hasTypeField (tpl : Value) : total (hasTypeField tpl).
Proof.
  unfold hasTypeField. apply total_bind; [apply total_matchBlock|].
  intros m. destruct (truthy m) eqn:Hm; [|apply total_Ok].
  rewrite (get_truthy _ _ Hm). apply total_Ok.
Qed.





Lemma candidateScore_of_hits (record : Value) (e : TemplateEntry) (hits rk : nat) :
  templateMatchesRecord (template e) record = Ok true ->
  countTemplateFieldHits (template e) record = Ok (S hits) ->
  requiredKeysCount (template e) = Ok rk ->
  exists tf, candidateScore record e = Ok (Some (scoreOf (S hits) rk tf)).
Proof.
  intros Hm Hh Hrk. destruct (total_hasTypeField (template e)) as [tf Htf].
  exists tf. unfold candidateScore. rewrite Hm, Hh, Hrk, Htf. reflexivity.
Qed.


(** *** Scoring completes on data without [toString] keys *)

Lemma Value_nested_ind (P : Value -> Prop) :
  P VUndefined -> P VNull ->
  (forall b, P (VBool b)) -> (forall n, P (VNum n)) -> (forall s, P (VStr s)) ->
  (forall items, Forall P items -> P (VArr items)) ->
  (forall props, Forall (fun kv => P (snd kv)) props -> P (VObj props)) ->
  forall v, P v.
Proof.
  intros Hu Hn Hb Hz Hs Ha Ho.
  fix IH 1. intros [| |b|n|s|items|props].
  - exact Hu.
  - exact Hn.
  - apply Hb.
  - apply Hz.
  - apply Hs.
  - apply Ha.
    exact ((fix all (l : list Value) : Forall P l :=
              match l with
              | [] => Forall_nil P
              | x :: rest => Forall_cons x (IH x) (all rest)
              end) items).
  - apply Ho.
    exact ((fix all (l : list (string * Value)) : Forall (fun kv => P (snd kv)) l :=
              match l with
              | [] => Forall_nil _
              | kv :: rest => Forall_cons kv (IH (snd kv)) (all rest)
              end) props).
Qed.

Lemma total_js_String (v : Value) : plain v = true -> total (js_String v).
Proof.
  induction v as [| |b|n|s|items IH|props IH] using Value_nested_ind;
    intros Hp; try apply total_Ok.
  - destruct b; apply total_Ok.
  - cbn [js_String]. apply total_bind; [|intros parts; apply total_Ok].
    cbn [plain] in Hp. induction IH as [|x rest Hx _ IHrest]; [apply total_Ok|].
    cbn [forallb] in Hp. apply andb_true_iff in Hp. destruct Hp as [Hpx Hprest].
    apply total_bind.
    + destruct (nullish x); [apply total_Ok|now apply Hx].
    + intros p. apply total_bind; [now apply IHrest|]. intros ps. apply total_Ok.
  - cbn [js_String]. cbn [plain] in Hp.
    destruct (lookup "toString" props); [discriminate Hp|apply total_Ok].
Qed.

Lemma plain_lookup (props : list (string * Value)) (k : string) (x : Value) :
  forallb (fun kv => plain (snd kv)) props = true ->
  lookup k props = Some x -> plain x = true.
Proof.
  induction props as [|[k' v] rest IH]; simpl; [discriminate|].
  intros H. apply andb_true_iff in H. destruct H as [Hv Hrest].
  destruct (String.eqb k k'); [intros [= <-]; exact Hv|now apply IH].
Qed.

Lemma plain_nth (items : list Value) (i : nat) :
  forallb plain items = true -> plain (nth i items VUndefined) = true.
Proof.
  intros H. destruct (nth_in_or_default i items VUndefined) as [Hin| ->]; [|reflexivity].
  rewrite forallb_forall in H. now apply H.
Qed.

Lemma plain_ownProperty (v : Value) (k : string) :
  plain v = true -> plain (ownProperty v k) = true.
Proof.
  destruct v as [| |b|n|s|items|props]; try reflexivity; cbn [ownProperty plain].
  - intros _. destruct (String.eqb k "length"); [reflexivity|].
    destruct (arrayIndex k); [|reflexivity].
    unfold charAt. now destruct (String.get _ s).
  - intros H. destruct (String.eqb k "length"); [reflexivity|].
    destruct (arrayIndex k); [|reflexivity]. now apply plain_nth.
  - destruct (lookup "toString" props); [discriminate|]. intros H.
    destruct (lookup k props) eqn:Hk; [|reflexivity].
    exact (plain_lookup _ _ _ H Hk).
Qed.

Lemma plain_resolve (tokens : list Token) :
  forall v, plain v = true -> plain (resolve tokens v) = true.
Proof.
  induction tokens as [|t rest IH]; intros v Hv; [exact Hv|].
  destruct v as [| |b|n|s|items|props]; try reflexivity; cbn [resolve].
  - destruct t; apply IH.
    + now apply plain_ownProperty.
    + now apply plain_nth.
  - destruct t; [|reflexivity]. apply IH.
    exact (plain_ownProperty (VObj props) s Hv).
Qed.

Lemma plain_getValueAtPath (v : Value) (path : string) (x : Value) :
  plain v = true -> getValueAtPath v path = Ok x -> plain x = true.
Proof.
  intros Hv. unfold getValueAtPath.
  destruct (negb (nonEmpty path)); [intros [= <-]; reflexivity|].
  destruct (nullish v); [intros [= <-]; reflexivity|].
  rewrite walk_resolve. intros [= <-]. now apply plain_resolve.
Qed.

Lemma total_getValueAtPath (v : Value) (path : string) : total (getValueAtPath v path).
Proof.
  unfold getValueAtPath.
  destruct (negb (nonEmpty path)); [apply total_Ok|].
  destruct (nullish v); [apply total_Ok|].
  rewrite walk_resolve. apply total_Ok.
Qed.


Lemma isObjectLike_not_nullish (v : Value) : isObjectLike v = true -> nullish v = false.
Proof. destruct v; try reflexivity; discriminate. Qed.


Lemma plain_js_or (a b : Value) :
  plain a = true -> plain b = true -> plain (js_or a b) = true.
Proof. unfold js_or. now destruct (truthy a). Qed.

Lemma total_kvItemKeyPath (c : Value) :
  nullish c = false -> plain c = true -> total (kvItemKeyPath c).
Proof.
  intros Hn Hp. unfold kvItemKeyPath. rewrite (get_ok _ _ Hn). cbn [bind].
  apply total_bind; [|intros s; apply total_Ok].
  apply total_js_String. apply plain_js_or; [now apply plain_ownProperty|reflexivity].
Qed.

Lemma total_kvValuePaths (c : Value) :
  nullish c = false -> plain c = true -> total (kvValuePaths c).
Proof.
  intros Hn Hp. unfold kvValuePaths. rewrite (get_ok _ _ Hn). cbn [bind].
  pose proof (plain_ownProperty c "valuePaths" Hp) as Hv.
  destruct (ownProperty c "valuePaths") as [| | | | |[|p ps]|]; try apply total_Ok.
  apply total_bind; [|intros trimmed; apply total_Ok].
  apply total_mapM. intros x Hx.
  apply total_bind; [|intros s; apply total_Ok].
  apply total_js_String. apply plain_js_or; [|reflexivity].
  cbn [plain] in Hv. rewrite forallb_forall in Hv. now apply Hv.
Qed.

Lemma total_kvMaxItems (c : Value) : nullish c = false -> total (kvMaxItems c).
Proof.
  intros Hn. unfold kvMaxItems. rewrite (get_ok _ _ Hn). cbn [bind].
  destruct (ownProperty c "maxItems"); apply total_Ok.
Qed.

Lemma nameOf_plain (x y : Value) :
  plain x = true -> nameOf x = Ok y -> plain y = true.
Proof.
  intros Hx. unfold nameOf.
  destruct (isObjectLike x) eqn:Ho; [|intros [= <-]; exact Hx].
  rewrite (get_objectLike _ _ Ho). cbn [bind].
  destruct (nullish (ownProperty x "Name")).
  - rewrite (get_objectLike _ _ Ho). intros [= <-]. now apply plain_ownProperty.
  - intros [= <-]. now apply plain_ownProperty.
Qed.

Lemma total_nameOf (x : Value) : total (nameOf x).
Proof.
  unfold nameOf. destruct (isObjectLike x) eqn:Ho; [|apply total_Ok].
  rewrite (get_objectLike _ _ Ho). cbn [bind].
  destruct (nullish _); [|apply total_Ok].
  rewrite (get_objectLike _ _ Ho). apply total_Ok.
Qed.

Lemma total_namesOf (xs : list Value) :
  forallb plain xs = true -> total (namesOf xs).
Proof.
  intros Hp. unfold namesOf.
  destruct (total_mapM nameOf xs (fun x _ => total_nameOf x)) as [picked Hpicked].
  rewrite Hpicked. cbn [bind].
  apply total_bind; [|intros texts; apply total_Ok].
  apply total_mapM. intros y Hy. apply filter_In in Hy. destruct Hy as [Hy _].
  apply total_bind; [|intros s; apply total_Ok].
  apply total_js_String.
  destruct (proj1 (mapM_In _ _ _ Hpicked) y Hy) as [x [Hx Hxy]].
  apply (nameOf_plain x y); [|exact Hxy].
  rewrite forallb_forall in Hp. now apply Hp.
Qed.

Lemma total_findValue (item : Value) (valuePaths : list string) :
  plain item = true -> total (findValue item valuePaths).
Proof.
  intros Hp. induction valuePaths as [|vp rest IH]; simpl; [apply total_Ok|].
  destruct (total_getValueAtPath item vp) as [v Hv]. rewrite Hv. cbn [bind].
  pose proof (plain_getValueAtPath _ _ _ Hp Hv) as Hpv.
  assert (Hprim : total (if nullish v then findValue item rest
                         else s <- js_String v ;;
                              if nonEmpty (trim s) then Ok v else findValue item rest)).
  { destruct (nullish v); [exact IH|].
    apply total_bind; [now apply total_js_String|].
    intros s. destruct (nonEmpty (trim s)); [apply total_Ok|exact IH]. }
  destruct v; try exact Hprim.
  apply total_bind; [now apply total_namesOf|].
  intros names. destruct names; [exact IH|apply total_Ok].
Qed.

Lemma findValue_plain (item : Value) (valuePaths : list string) (val : Value) :
  plain item = true -> findValue item valuePaths = Ok val -> plain val = true.
Proof.
  intros Hp. induction valuePaths as [|vp rest IH]; simpl; [intros [= <-]; reflexivity|].
  destruct (getValueAtPath item vp) as [v|e] eqn:Hv; cbn [bind]; [|discriminate].
  pose proof (plain_getValueAtPath _ _ _ Hp Hv) as Hpv.
  assert (Hprim : (if nullish v then findValue item rest
                   else s <- js_String v ;;
                        if nonEmpty (trim s) then Ok v else findValue item rest)
                  = Ok val -> plain val = true).
  { destruct (nullish v); [exact IH|].
    destruct (js_String v) as [s|e]; cbn [bind]; [|discriminate].
    destruct (nonEmpty (trim s)); [intros [= <-]; exact Hpv|exact IH]. }
  destruct v; try exact Hprim.
  destruct (namesOf items) as [names|e]; cbn [bind]; [|discriminate].
  destruct names; [exact IH|intros [= <-]; reflexivity].
Qed.

Lemma total_kvKey (item : Value) (itemKeyPath : string) :
  plain item = true -> total (kvKey item itemKeyPath).
Proof.
  intros Hp. unfold kvKey.
  destruct (total_getValueAtPath item itemKeyPath) as [kRaw Hk]. rewrite Hk. cbn [bind].
  destruct (nullish kRaw); [apply total_Ok|].
  apply total_bind; [|intros s; apply total_Ok].
  apply total_js_String. exact (plain_getValueAtPath _ _ _ Hp Hk).
Qed.

Lemma total_kvRows (itemKeyPath : string) (valuePaths : list string) (maxItems : Z)
    (items : list Value) :
  forallb plain items = true ->
  forall rows, total (kvRows itemKeyPath valuePaths maxItems items rows).
Proof.
  induction items as [|item rest IH]; intros Hp rows; simpl; [apply total_Ok|].
  simpl in Hp. apply andb_true_iff in Hp. destruct Hp as [Hitem Hrest].
  destruct (negb (isMapping item)); [now apply IH|].
  apply total_bind; [now apply total_kvKey|]. intros key.
  destruct (negb (nonEmpty key)); [now apply IH|].
  destruct (total_findValue item valuePaths Hitem) as [val Hval].
  rewrite Hval. cbn [bind].
  pose proof (findValue_plain _ _ _ Hitem Hval) as Hpval.
  unfold isBlank.
  destruct (nullish val); cbn [bind]; [now apply IH|].
  destruct (total_js_String val Hpval) as [s Hs]. rewrite Hs. cbn [bind].
  destruct (negb (nonEmpty (trim s))); [now apply IH|].
  destruct (maxItems <=? _)%Z; [apply total_Ok|now apply IH].
Qed.

Lemma total_renderKvListValue (arrValue cfg : Value) :
  plain arrValue = true -> plain cfg = true ->
  total (renderKvListValue arrValue cfg).
Proof.
  intros Ha Hc. unfold renderKvListValue.
  destruct arrValue as [| | | | |[|item more]|]; try apply total_Ok.
  assert (Hn : nullish (js_or cfg (VObj [])) = false).
  { unfold js_or. destruct (truthy cfg) eqn:Ht; [|reflexivity].
    destruct cfg; try reflexivity; discriminate Ht. }
  assert (Hp : plain (js_or cfg (VObj [])) = true) by now apply plain_js_or.
  apply total_bind; [now apply total_kvItemKeyPath|]. intros itemKeyPath.
  apply total_bind; [now apply total_kvValuePaths|]. intros valuePaths.
  apply total_bind; [now apply total_kvMaxItems|]. intros maxItems.
  apply total_bind; [now apply total_kvRows|]. intros rows.
  destruct rows; apply total_Ok.
Qed.









(** *** The score, read off the template *)








(* ================================================================== *)
(** * Further properties *)

(** ** Comment stripping *)

Lemma isSubsequence_tail (s : string) : forall a sub,
  isSubsequence (String a sub) s = true -> isSubsequence sub s = true.
Proof.
  induction s as [|b s IH]; intros a sub H; [discriminate H|].
  cbn [isSubsequence] in H.
  destruct (Ascii.eqb a b).
  - destruct sub as [|a' sub']; [reflexivity|].
    cbn [isSubsequence]. destruct (Ascii.eqb a' b).
    + apply (IH a'). exact H.
    + exact H.
  - destruct sub as [|a' sub']; [reflexivity|].
    cbn [isSubsequence]. destruct (Ascii.eqb a' b).
    + apply (IH a'). apply (IH a). exact H.
    + apply (IH a). exact H.
Qed.

Lemma isSubsequence_skip (sub s : string) (c : ascii) :
  isSubsequence sub s = true -> isSubsequence sub (String c s) = true.
Proof.
  intros H. destruct sub as [|a sub']; [reflexivity|].
  cbn [isSubsequence]. destruct (Ascii.eqb a c); [|exact H].
  apply (isSubsequence_tail s a). exact H.
Qed.

Lemma isSubsequence_keep (sub s : string) (c : ascii) :
  isSubsequence sub s = true -> isSubsequence (String c sub) (String c s) = true.
Proof.
  intros H. cbn [isSubsequence]. rewrite Ascii.eqb_refl. exact H.
Qed.

Lemma stripFrom_code (c : ascii) (rest : string) :
  stripFrom InCode (String c rest) =
  if isQuote c then String c (stripFrom (InString c false) rest)
  else if Ascii.eqb c slash then
    match rest with
    | String next rest' =>
        if Ascii.eqb next slash then stripFrom InLineComment rest'
        else if Ascii.eqb next star then stripFrom InBlockComment rest'
        else String c (stripFrom InCode rest)
    | EmptyString => String c (stripFrom InCode rest)
    end
  else String c (stripFrom InCode rest).
Proof. reflexivity. Qed.

Lemma stripFrom_string (q : ascii) (escaped : bool) (c : ascii) (rest : string) :
  stripFrom (InString q escaped) (String c rest) =
  String c
    (stripFrom
       (if escaped then InString q false
        else if Ascii.eqb c backslash then InString q true
        else if Ascii.eqb c q then InCode
        else InString q false)
       rest).
Proof. reflexivity. Qed.

Lemma stripFrom_line (c : ascii) (rest : string) :
  stripFrom InLineComment (String c rest) =
  if Ascii.eqb c newline then String c (stripFrom InCode rest)
  else stripFrom InLineComment rest.
Proof. reflexivity. Qed.

Lemma stripFrom_block (c : ascii) (rest : string) :
  stripFrom InBlockComment (String c rest) =
  if Ascii.eqb c star then
    match rest with
    | String next rest' =>
        if Ascii.eqb next slash then stripFrom InCode rest'
        else stripFrom InBlockComment rest
    | EmptyString => stripFrom InBlockComment rest
    end
  else stripFrom InBlockComment rest.
Proof. reflexivity. Qed.

Lemma stripFrom_subsequence_two (s : string) :
  (forall mode, isSubsequence (stripFrom mode s) s = true) /\
  (forall c mode, isSubsequence (stripFrom mode (String c s)) (String c s) = true).
Proof.
  induction s as [|d s [IH1 IH2]].
  - split; [intros; reflexivity|].
    intros c mode. destruct mode.
    + rewrite stripFrom_code. destruct (isQuote c); [apply isSubsequence_keep; reflexivity|].
      destruct (Ascii.eqb c slash); apply isSubsequence_keep; reflexivity.
    + rewrite stripFrom_string. apply isSubsequence_keep; reflexivity.
    + rewrite stripFrom_line.
      destruct (Ascii.eqb c newline); [apply isSubsequence_keep|]; reflexivity.
    + rewrite stripFrom_block. destruct (Ascii.eqb c star); reflexivity.
  - split; [exact (IH2 d)|].
    intros c mode. destruct mode.
    + rewrite stripFrom_code. destruct (isQuote c); [apply isSubsequence_keep, IH2|].
      destruct (Ascii.eqb c slash); [|apply isSubsequence_keep, IH2].
      destruct (Ascii.eqb d slash); [do 2 apply isSubsequence_skip; apply IH1|].
      destruct (Ascii.eqb d star); [do 2 apply isSubsequence_skip; apply IH1|].
      apply isSubsequence_keep, IH2.
    + rewrite stripFrom_string. apply isSubsequence_keep, IH2.
    + rewrite stripFrom_line.
      destruct (Ascii.eqb c newline);
        [apply isSubsequence_keep|apply isSubsequence_skip]; apply IH2.
    + rewrite stripFrom_block.
      destruct (Ascii.eqb c star); [destruct (Ascii.eqb d slash)|].
      * do 2 apply isSubsequence_skip; apply IH1.
      * apply isSubsequence_skip, IH2.
      * apply isSubsequence_skip, IH2.
Qed.

(** X1.  Comment stripping only removes characters: for every input the
    result is the input with some characters left out, in the same order. *)
Theorem stripJsoncComments_subsequence (input : string) :
  isSubsequence (stripJsoncComments input) input = true.
Proof. apply (proj1 (stripFrom_subsequence_two input)). Qed.

Lemma isQuote_not_backslash (q : ascii) :
  isQuote q = true -> Ascii.eqb q backslash = false.
Proof.
  unfold isQuote. intros H. apply orb_true_iff in H.
  destruct H as [H|H]; apply Ascii.eqb_eq in H; subst q; reflexivity.
Qed.

Lemma stripFrom_literal_two (q : ascii) (rest : string) (Hq : isQuote q = true)
  (body : string) :
  (literalBody q body = true ->
   stripFrom (InString q false) (body ++ String q rest)%string =
   (body ++ String q (stripFrom InCode rest))%string) /\
  (forall c, literalBody q (String c body) = true ->
   stripFrom (InString q false) (String c body ++ String q rest)%string =
   (String c body ++ String q (stripFrom InCode rest))%string).
Proof.
  induction body as [|d body [IH1 IH2]].
  - assert (H0 : stripFrom (InString q false) (String q rest) =
                 String q (stripFrom InCode rest)).
    { rewrite stripFrom_string, (isQuote_not_backslash q Hq), Ascii.eqb_refl.
      reflexivity. }
    split; [intros _; exact H0|].
    intros c H. cbn [literalBody] in H.
    destruct (Ascii.eqb c backslash) eqn:Eb; [discriminate H|].
    destruct (Ascii.eqb c q) eqn:Ec; [discriminate H|].
    cbn [append]. rewrite stripFrom_string, Eb, Ec. f_equal. exact H0.
  - split; [exact (IH2 d)|].
    intros c H. cbn [literalBody] in H.
    change ((String c (String d body) ++ String q rest)%string)
      with (String c (String d (body ++ String q rest)%string)).
    change ((String c (String d body) ++ String q (stripFrom InCode rest))%string)
      with (String c (String d (body ++ String q (stripFrom InCode rest))%string)).
    rewrite stripFrom_string.
    destruct (Ascii.eqb c backslash) eqn:Eb.
    + rewrite stripFrom_string. do 2 f_equal. apply IH1. exact H.
    + destruct (Ascii.eqb c q) eqn:Ec; [discriminate H|].
      f_equal. apply (IH2 d). exact H.
Qed.

Lemma stripFrom_line_body (c rest : string) :
  noChar (fun a => Ascii.eqb a newline) c = true ->
  stripFrom InLineComment (c ++ String newline rest)%string =
  String newline (stripFrom InCode rest).
Proof.
  unfold noChar. induction c as [|a c IH]; intros H.
  - reflexivity.
  - cbn [allChars] in H. apply andb_true_iff in H. destruct H as [Ha H].
    apply negb_true_iff in Ha. cbn [append]. rewrite stripFrom_line, Ha.
    apply IH. exact H.
Qed.

Lemma stripFrom_line_open (c : string) :
  noChar (fun a => Ascii.eqb a newline) c = true ->
  stripFrom InLineComment c = EmptyString.
Proof.
  unfold noChar. induction c as [|a c IH]; intros H; [reflexivity|].
  cbn [allChars] in H. apply andb_true_iff in H. destruct H as [Ha H].
  apply negb_true_iff in Ha. rewrite stripFrom_line, Ha. apply IH. exact H.
Qed.

Lemma includes_cons_false (a : ascii) (s needle : string) :
  includes (String a s) needle = false ->
  String.prefix needle (String a s) = false /\ includes s needle = false.
Proof.
  cbn [includes]. intros H. apply orb_false_iff in H. exact H.
Qed.

Lemma prefix_blockEnd (a b : ascii) (s : string) :
  String.prefix "*/" (String a (String b s)) = false ->
  Ascii.eqb a star = true -> Ascii.eqb b slash = false.
Proof.
  intros H Ha. apply Ascii.eqb_eq in Ha. subst a.
  destruct (Ascii.eqb b slash) eqn:Eb; [|reflexivity].
  apply Ascii.eqb_eq in Eb. subst b. cbn in H. destruct s; discriminate H.
Qed.

Lemma stripFrom_block_body (c rest : string) :
  includes c "*/" = false ->
  stripFrom InBlockComment (c ++ String star (String slash rest))%string =
  stripFrom InCode rest.
Proof.
  induction c as [|a c IH]; intros H.
  - reflexivity.
  - apply includes_cons_false in H. destruct H as [Hp H].
    cbn [append]. rewrite stripFrom_block.
    destruct (Ascii.eqb a star) eqn:Ea; [|apply IH; exact H].
    destruct c as [|b c].
    + cbn [append]. change (Ascii.eqb star slash) with false. cbv iota.
      apply IH. exact H.
    + cbn [append]. rewrite (prefix_blockEnd a b c Hp Ea).
      apply IH. exact H.
Qed.

Lemma stripFrom_block_open (c : string) :
  includes c "*/" = false -> stripFrom InBlockComment c = EmptyString.
Proof.
  induction c as [|a c IH]; intros H; [reflexivity|].
  apply includes_cons_false in H. destruct H as [Hp H].
  rewrite stripFrom_block.
  destruct (Ascii.eqb a star) eqn:Ea; [|apply IH; exact H].
  destruct c as [|b c]; [reflexivity|].
  rewrite (prefix_blockEnd a b c Hp Ea). apply IH. exact H.
Qed.

(** X3.  A string literal is copied verbatim, comment markers included:
    when the text opens with a quote [q] (double or single), followed by a
    body in which [q] occurs only after a backslash and no backslash is
    left dangling, the literal and its closing quote are kept as they are
    and stripping resumes after them. *)
Theorem stripJsoncComments_keeps_literals (q : ascii) (body rest : string) :
  isQuote q = true ->
  literalBody q body = true ->
  stripJsoncComments (String q (body ++ String q rest)%string) =
  String q (body ++ String q (stripJsoncComments rest))%string.
Proof.
  intros Hq Hb. unfold stripJsoncComments. rewrite stripFrom_code, Hq.
  f_equal. apply (proj1 (stripFrom_literal_two q rest Hq body)). exact Hb.
Qed.

Lemma stripJsoncComments_keeps_literals_witness :
  isQuote dquote = true /\
  literalBody dquote markedLiteralBody = true /\
  stripJsoncComments (String dquote (markedLiteralBody ++ String dquote " // d")%string) =
  String dquote (markedLiteralBody ++ String dquote (stripJsoncComments " // d"))%string.
Proof.
  split; [reflexivity|]. split; [reflexivity|].
  apply (stripJsoncComments_keeps_literals dquote markedLiteralBody " // d");
    reflexivity.
Defined.

(** X4.  A line comment is removed up to, and not including, the line feed
    that ends it; one that is not followed by a line feed removes the rest
    of the text. *)
Theorem stripJsoncComments_line_comment (c rest : string) :
  noChar (fun a => Ascii.eqb a newline) c = true ->
  stripJsoncComments ("//" ++ c ++ String newline rest)%string =
    String newline (stripJsoncComments rest) /\
  stripJsoncComments ("//" ++ c)%string = EmptyString.
Proof.
  intros H. unfold stripJsoncComments. split.
  - change (("//" ++ c ++ String newline rest)%string)
      with (String slash (String slash (c ++ String newline rest)%string)).
    rewrite stripFrom_code. change (isQuote slash) with false.
    change (Ascii.eqb slash slash) with true. cbv iota.
    apply stripFrom_line_body. exact H.
  - change (("//" ++ c)%string) with (String slash (String slash c)).
    rewrite stripFrom_code. change (isQuote slash) with false.
    change (Ascii.eqb slash slash) with true. cbv iota.
    apply stripFrom_line_open. exact H.
Qed.

Lemma stripJsoncComments_line_comment_witness :
  noChar (fun a => Ascii.eqb a newline) " note" = true /\
  stripJsoncComments ("//" ++ " note" ++ String newline "1")%string =
    String newline (stripJsoncComments "1") /\
  stripJsoncComments ("//" ++ " note")%string = EmptyString.
Proof.
  split; [reflexivity|apply (stripJsoncComments_line_comment " note" "1"); reflexivity].
Defined.

(** X5.  A block comment is removed through its first closing marker, and a
    block comment that is never closed removes the rest of the text. *)
Theorem stripJsoncComments_block_comment (c rest : string) :
  includes c "*/" = false ->
  stripJsoncComments ("/*" ++ c ++ "*/" ++ rest)%string = stripJsoncComments rest /\
  stripJsoncComments ("/*" ++ c)%string = EmptyString.
Proof.
  intros H. unfold stripJsoncComments. split.
  - change (("/*" ++ c ++ "*/" ++ rest)%string)
      with (String slash (String star (c ++ String star (String slash rest))%string)).
    rewrite stripFrom_code. change (isQuote slash) with false.
    change (Ascii.eqb slash slash) with true.
    change (Ascii.eqb star slash) with false.
    change (Ascii.eqb star star) with true. cbv iota.
    apply stripFrom_block_body. exact H.
  - change (("/*" ++ c)%string) with (String slash (String star c)).
    rewrite stripFrom_code. change (isQuote slash) with false.
    change (Ascii.eqb slash slash) with true.
    change (Ascii.eqb star slash) with false.
    change (Ascii.eqb star star) with true. cbv iota.
    apply stripFrom_block_open. exact H.
Qed.

Lemma stripJsoncComments_block_comment_witness :
  includes " a * b / c " "*/" = false /\
  stripJsoncComments ("/*" ++ " a * b / c " ++ "*/" ++ "1")%string =
    stripJsoncComments "1" /\
  stripJsoncComments ("/*" ++ " a * b / c ")%string = EmptyString.
Proof.
  split; [reflexivity|apply (stripJsoncComments_block_comment " a * b / c " "1"); reflexivity].
Defined.

Lemma stripFrom_no_slash (s : string) : forall mode,
  keepsText mode = true ->
  noChar (fun c => Ascii.eqb c slash) s = true ->
  stripFrom mode s = s.
Proof.
  unfold noChar. induction s as [|c s IH]; intros mode Hm H; [destruct mode; reflexivity|].
  cbn [allChars] in H. apply andb_true_iff in H. destruct H as [Hc H].
  apply negb_true_iff in Hc.
  destruct mode as [|q escaped| |]; try discriminate Hm.
  - rewrite stripFrom_code, Hc.
    destruct (isQuote c); f_equal; apply IH; try reflexivity; exact H.
  - rewrite stripFrom_string. f_equal. apply IH; [|exact H].
    destruct escaped; [reflexivity|].
    destruct (Ascii.eqb c backslash); [reflexivity|].
    destruct (Ascii.eqb c q); reflexivity.
Qed.

(** X2.  A text without any ["/"] is returned unchanged, whatever its
    quotes and backslashes. *)
Theorem stripJsoncComments_no_slash (input : string) :
  noChar (fun c => Ascii.eqb c slash) input = true ->
  stripJsoncComments input = input.
Proof. apply stripFrom_no_slash. reflexivity. Qed.

Lemma stripJsoncComments_no_slash_witness :
  noChar (fun c => Ascii.eqb c slash) "{ 'a': 1 }" = true /\
  stripJsoncComments "{ 'a': 1 }" = "{ 'a': 1 }".
Proof.
  split; [reflexivity|apply stripJsoncComments_no_slash; reflexivity].
Defined.

(** ** Escaping and one-line text *)

Lemma string_app_assoc (a b c : string) :
  ((a ++ b) ++ c = a ++ (b ++ c))%string.
Proof. induction a as [|x a IH]; cbn [append]; [reflexivity|f_equal; exact IH]. Qed.

Lemma replaceAllChar_app (c : ascii) (by_ a b : string) :
  replaceAllChar c by_ (a ++ b)%string =
  (replaceAllChar c by_ a ++ replaceAllChar c by_ b)%string.
Proof.
  induction a as [|x a IH]; [reflexivity|].
  cbn [append replaceAllChar]. destruct (Ascii.eqb x c).
  - rewrite IH. symmetry. apply string_app_assoc.
  - cbn [append]. f_equal. exact IH.
Qed.

Lemma escapeHtmlText_cons (c : ascii) (s : string) :
  escapeHtmlText (String c s) = (entityOf c ++ escapeHtmlText s)%string.
Proof.
  unfold escapeHtmlText, entityOf.
  cbn [replaceAllChar].
  destruct (Ascii.eqb c "&") eqn:E1.
  { rewrite !replaceAllChar_app. reflexivity. }
  cbn [replaceAllChar].
  destruct (Ascii.eqb c "<") eqn:E2.
  { rewrite !replaceAllChar_app. reflexivity. }
  cbn [replaceAllChar].
  destruct (Ascii.eqb c ">") eqn:E3.
  { rewrite !replaceAllChar_app. reflexivity. }
  cbn [replaceAllChar].
  destruct (Ascii.eqb c dquote) eqn:E4.
  { rewrite !replaceAllChar_app. reflexivity. }
  cbn [replaceAllChar].
  destruct (Ascii.eqb c squote) eqn:E5; reflexivity.
Qed.

Lemma escapeHtmlText_each (s : string) : escapeHtmlText s = escapeEach s.
Proof.
  induction s as [|c s IH]; [reflexivity|].
  rewrite escapeHtmlText_cons, IH. reflexivity.
Qed.

Lemma allChars_app (p : ascii -> bool) (a b : string) :
  allChars p (a ++ b)%string = allChars p a && allChars p b.
Proof.
  induction a as [|x a IH]; [reflexivity|].
  cbn [append allChars]. rewrite IH. apply andb_assoc.
Qed.

Lemma entityOf_no_markup (c : ascii) : noChar isMarkupChar (entityOf c) = true.
Proof.
  unfold entityOf.
  destruct (Ascii.eqb c "&") eqn:E1; [reflexivity|].
  destruct (Ascii.eqb c "<") eqn:E2; [reflexivity|].
  destruct (Ascii.eqb c ">") eqn:E3; [reflexivity|].
  destruct (Ascii.eqb c dquote) eqn:E4; [reflexivity|].
  destruct (Ascii.eqb c squote) eqn:E5; [reflexivity|].
  unfold noChar, isMarkupChar. cbn [allChars]. rewrite E2, E3, E4, E5. reflexivity.
Qed.

Lemma escapeEach_no_markup (s : string) : noChar isMarkupChar (escapeEach s) = true.
Proof.
  induction s as [|c s IH]; [reflexivity|].
  cbn [escapeEach]. pose proof (entityOf_no_markup c) as He.
  unfold noChar in *. rewrite allChars_app, IH, He. reflexivity.
Qed.

(** X6.  Whenever escaping returns, its result contains none of the
    characters that open or close markup or an attribute value: no ["<"],
    no [">"], no double quote and no single quote. *)
Theorem escapeHtml_no_markup (str : Value) (out : string) :
  escapeHtml str = Ok out -> noChar isMarkupChar out = true.
Proof.
  unfold escapeHtml. destruct (js_String str) as [s|e]; cbn [bind]; intros H;
    [|discriminate H].
  injection H as <-. rewrite escapeHtmlText_each. apply escapeEach_no_markup.
Qed.

Lemma escapeHtml_no_markup_witness :
  escapeHtml (VStr "<a href='x'>") = Ok "&lt;a href=&#039;x&#039;&gt;" /\
  noChar isMarkupChar "&lt;a href=&#039;x&#039;&gt;" = true.
Proof.
  split; [reflexivity|].
  apply (escapeHtml_no_markup (VStr "<a href='x'>")). reflexivity.
Defined.

Lemma append_cancel_l (a b c : string) : (a ++ b = a ++ c)%string -> b = c.
Proof.
  induction a as [|x a IH]; cbn [append]; intros H; [exact H|].
  injection H as H. apply IH. exact H.
Qed.

Lemma entityOf_prefix_code (c d : ascii) (a b : string) :
  (entityOf c ++ a = entityOf d ++ b)%string -> c = d.
Proof.
  unfold entityOf.
  destruct (Ascii.eqb c "&") eqn:C1; [apply Ascii.eqb_eq in C1|];
  [|destruct (Ascii.eqb c "<") eqn:C2; [apply Ascii.eqb_eq in C2|]];
  [| |destruct (Ascii.eqb c ">") eqn:C3; [apply Ascii.eqb_eq in C3|]];
  [| | |destruct (Ascii.eqb c dquote) eqn:C4; [apply Ascii.eqb_eq in C4|]];
  [| | | |destruct (Ascii.eqb c squote) eqn:C5; [apply Ascii.eqb_eq in C5|]];
  (destruct (Ascii.eqb d "&") eqn:D1; [apply Ascii.eqb_eq in D1|];
   [|destruct (Ascii.eqb d "<") eqn:D2; [apply Ascii.eqb_eq in D2|]];
   [| |destruct (Ascii.eqb d ">") eqn:D3; [apply Ascii.eqb_eq in D3|]];
   [| | |destruct (Ascii.eqb d dquote) eqn:D4; [apply Ascii.eqb_eq in D4|]];
   [| | | |destruct (Ascii.eqb d squote) eqn:D5; [apply Ascii.eqb_eq in D5|]]);
  cbn [append]; intros H;
  try congruence;
  try (injection H; intros; subst;
       first [ discriminate
             | rewrite Ascii.eqb_refl in *; discriminate
             | reflexivity ]).
Qed.

Lemma escapeEach_injective (a : string) : forall b,
  escapeEach a = escapeEach b -> a = b.
Proof.
  induction a as [|c a IH]; intros [|d b] H.
  - reflexivity.
  - cbn [escapeEach] in H. unfold entityOf in H.
    repeat (destruct (Ascii.eqb d _) in H; [discriminate H|]). discriminate H.
  - cbn [escapeEach] in H. unfold entityOf in H.
    repeat (destruct (Ascii.eqb c _) in H; [discriminate H|]). discriminate H.
  - cbn [escapeEach] in H.
    pose proof (entityOf_prefix_code c d _ _ H) as ->.
    apply append_cancel_l in H. f_equal. apply IH. exact H.
Qed.

(** X7.  Escaping loses nothing: two strings with the same escaped text are
    the same string. *)
Theorem escapeHtml_injective (a b : string) :
  escapeHtml (VStr a) = escapeHtml (VStr b) -> a = b.
Proof.
  unfold escapeHtml. cbn [js_String bind]. rewrite !escapeHtmlText_each.
  intros H. injection H as H. apply escapeEach_injective. exact H.
Qed.

Lemma escapeHtml_injective_witness :
  escapeHtml (VStr "a<b") = escapeHtml (VStr "a<b") /\ "a<b" = "a<b".
Proof.
  split; [reflexivity|apply escapeHtml_injective; reflexivity].
Defined.

Lemma string_app_length (a b : string) :
  String.length (a ++ b)%string = String.length a + String.length b.
Proof. induction a as [|x a IH]; cbn [append String.length]; [reflexivity|rewrite IH; reflexivity]. Qed.

Lemma allChars_trimStart (p : ascii -> bool) (s : string) :
  allChars p s = true -> allChars p (trimStart s) = true.
Proof.
  induction s as [|c s IH]; intros H; [reflexivity|].
  cbn [trimStart]. destruct (is_ws c); [|exact H].
  cbn [allChars] in H. apply andb_true_iff in H. apply IH, H.
Qed.

Lemma allChars_trimEnd (p : ascii -> bool) (s : string) :
  allChars p s = true -> allChars p (trimEnd s) = true.
Proof.
  induction s as [|c s IH]; intros H; [reflexivity|].
  cbn [allChars] in H. apply andb_true_iff in H. destruct H as [Hc H].
  cbn [trimEnd]. specialize (IH H). destruct (trimEnd s) as [|d kept].
  - destruct (is_ws c); [reflexivity|]. cbn [allChars]. rewrite Hc. reflexivity.
  - cbn [allChars] in *. rewrite Hc. exact IH.
Qed.

Lemma allChars_sliceTo (p : ascii -> bool) (n : nat) : forall s,
  allChars p s = true -> allChars p (sliceTo n s) = true.
Proof.
  unfold sliceTo. induction n as [|n IH]; intros [|c s] H; try reflexivity.
  cbn [substring allChars] in *. apply andb_true_iff in H. destruct H as [Hc H].
  rewrite Hc. apply IH, H.
Qed.

Lemma length_sliceTo (n : nat) : forall s, String.length (sliceTo n s) <= n.
Proof.
  unfold sliceTo. induction n as [|n IH]; intros [|c s]; cbn [substring String.length]; try lia.
  specialize (IH s). lia.
Qed.

Lemma collapseSpaces_singleLine (s : string) : singleLine (collapseSpaces s) = true.
Proof.
  unfold singleLine. induction s as [|c s IH]; [reflexivity|].
  cbn [collapseSpaces]. destruct (is_ws c) eqn:Ec.
  - destruct s as [|d s]; [reflexivity|].
    destruct (is_ws d); [exact IH|].
    cbn [allChars]. cbn [allChars] in IH. rewrite IH. reflexivity.
  - cbn [allChars]. rewrite Ec, IH. reflexivity.
Qed.

(** X8.  Whenever [safeOneLine] returns, its result is a single line whose
    only white space is the space character, and it is at most [maxLen]
    characters long plus the ellipsis. *)
Theorem safeOneLine_single_line (s : Value) (maxLen : nat) (out : string) :
  safeOneLine s maxLen = Ok out ->
  singleLine out = true /\
  String.length out <= maxLen + String.length ellipsis.
Proof.
  unfold safeOneLine.
  destruct (js_String (if nullish s then VStr EmptyString else s)) as [raw|e];
    cbn [bind]; intros H; [|discriminate H].
  assert (Hs : singleLine (trim (collapseSpaces raw)) = true).
  { unfold singleLine, trim. apply allChars_trimEnd, allChars_trimStart.
    apply collapseSpaces_singleLine. }
  destruct (negb (nonEmpty (trim (collapseSpaces raw)))).
  - injection H as <-. split; [reflexivity|cbn; lia].
  - destruct (maxLen <? String.length (trim (collapseSpaces raw)))%nat eqn:El;
      injection H as <-.
    + split.
      * unfold singleLine in *. rewrite allChars_app.
        rewrite (allChars_sliceTo _ maxLen _ Hs). reflexivity.
      * rewrite string_app_length. pose proof (length_sliceTo maxLen (trim (collapseSpaces raw))). lia.
    + split; [exact Hs|]. apply Nat.ltb_ge in El. lia.
Qed.

Lemma safeOneLine_single_line_witness :
  safeOneLine (VStr "  a   b  ") 2 = Ok ("a " ++ ellipsis)%string /\
  singleLine ("a " ++ ellipsis)%string = true /\
  String.length ("a " ++ ellipsis)%string <= 2 + String.length ellipsis.
Proof.
  split; [reflexivity|].
  apply (safeOneLine_single_line (VStr "  a   b  ") 2). reflexivity.
Defined.

(** ** Record labels *)

Lemma nonEmpty_app_l (a b : string) : nonEmpty a = true -> nonEmpty (a ++ b)%string = true.
Proof. destruct a; [discriminate|reflexivity]. Qed.

Lemma nonEmpty_app_r (a b : string) : nonEmpty b = true -> nonEmpty (a ++ b)%string = true.
Proof. destruct a; [intros H; exact H|reflexivity]. Qed.

Lemma nonEmpty_length (s : string) : nonEmpty s = true <-> 0 < String.length s.
Proof. destruct s; cbn; split; intros H; try reflexivity; try discriminate; lia. Qed.

Lemma nonEmpty_substring (s : string) : forall k m,
  k < String.length s -> 0 < m -> nonEmpty (String.substring k m s) = true.
Proof.
  induction s as [|c s IH]; intros k m Hk Hm; cbn [String.length] in Hk; [lia|].
  destruct k as [|k].
  - destruct m as [|m]; [lia|]. reflexivity.
  - cbn [String.substring]. apply IH; lia.
Qed.

Lemma labelPart_nonEmpty (record f : Value) (p : string) :
  labelPart record f = Ok (Some p) -> nonEmpty p = true.
Proof.
  unfold labelPart.
  destruct (negb (isObjectLike f)); [discriminate|].
  destruct (get f "path") as [pv|e]; cbn [bind]; [|discriminate].
  destruct (js_String (js_or pv (VStr ""))) as [ps|e]; cbn [bind]; [|discriminate].
  destruct (negb (nonEmpty (trim ps))); [discriminate|].
  destruct (getValueAtPath record (trim ps)) as [raw|e]; cbn [bind]; [|discriminate].
  destruct (negb (isUsablePrimitive raw)); [discriminate|].
  destruct (js_String raw) as [rs|e]; cbn [bind]; [|discriminate].
  destruct (negb (nonEmpty (trim rs))) eqn:Et; [discriminate|].
  apply negb_false_iff in Et.
  destruct (get f "lastChars") as [lc|e]; cbn [bind]; [|discriminate].
  destruct (get f "maxLen") as [ml|e]; cbn [bind]; [|discriminate].
  destruct (get f "prefix") as [px|e]; cbn [bind]; [|discriminate].
  destruct (get f "suffix") as [sx|e]; cbn [bind]; [|discriminate].
  intros [= <-]. apply nonEmpty_app_r, nonEmpty_app_l.
  set (text := trim rs) in *.
  set (text1 := match lc with
                | VNum z =>
                    if (Z.to_nat (Z.max 1 z) <? String.length text)%nat
                    then sliceFrom (String.length text - Z.to_nat (Z.max 1 z)) text
                    else text
                | _ => text
                end).
  assert (H1 : nonEmpty text1 = true).
  { subst text1. destruct lc; try exact Et.
    destruct (Z.to_nat (Z.max 1 n) <? String.length text)%nat eqn:El; [|exact Et].
    apply Nat.ltb_lt in El. unfold sliceFrom. apply nonEmpty_substring; lia. }
  destruct (_ <? String.length text1)%nat; [|exact H1].
  apply nonEmpty_app_r. reflexivity.
Qed.

Lemma labelParts_nonEmpty (record : Value) (fields : list Value) :
  forall parts, labelParts record fields = Ok parts ->
  Forall (fun p => nonEmpty p = true) parts.
Proof.
  induction fields as [|f rest IH]; intros parts; cbn [labelParts].
  - intros [= <-]. constructor.
  - destruct (labelPart record f) as [part|e] eqn:Ef; cbn [bind]; [|discriminate].
    destruct (labelParts record rest) as [ps|e]; cbn [bind]; [|discriminate].
    intros [= <-]. specialize (IH ps eq_refl).
    destruct part as [p|]; [|exact IH].
    constructor; [apply (labelPart_nonEmpty record f p Ef)|exact IH].
Qed.

Lemma replaceAll_nonEmpty (pat by_ s : string) :
  nonEmpty by_ = true -> nonEmpty s = true -> nonEmpty (replaceAll pat by_ s) = true.
Proof.
  intros Hb Hs. destruct s as [|c rest]; [discriminate|].
  unfold replaceAll. cbn [replaceAllFrom].
  destruct (String.prefix pat (String c rest)); [|reflexivity].
  apply nonEmpty_app_l. exact Hb.
Qed.

Lemma trim_nonEmpty (s : string) : nonEmpty (trim s) = true -> nonEmpty s = true.
Proof. destruct s; [discriminate|reflexivity]. Qed.

Lemma buildTemplateRecordLabel_shape (tpl record : Value) (index : nat)
    (label : string) :
  buildTemplateRecordLabel tpl record index = Ok label ->
  nonEmpty label = isObjectLike tpl && isObjectLike (ownProperty tpl "recordLabel").
Proof.
  unfold buildTemplateRecordLabel.
  destruct (isObjectLike tpl) eqn:Ht; cbn [negb andb]; [|intros [= <-]; reflexivity].
  rewrite (get_objectLike tpl _ Ht). cbn [bind].
  destruct (isObjectLike (ownProperty tpl "recordLabel")) eqn:Hr; cbn [negb];
    [|intros [= <-]; reflexivity].
  rewrite !(get_objectLike _ _ Hr). cbn [bind].
  destruct (labelParts record _) as [parts|e] eqn:Ep; cbn [bind]; [|discriminate].
  destruct parts as [|p ps].
  - intros [= <-]. apply replaceAll_nonEmpty; [apply N_toString_nonEmpty|].
    destruct (ownProperty (ownProperty tpl "recordLabel") "fallback"); try reflexivity.
    destruct (nonEmpty (trim s)) eqn:Es; [|reflexivity]. apply trim_nonEmpty, Es.
  - intros [= <-]. apply labelParts_nonEmpty in Ep. inversion Ep as [|? ? Hp _]; subst.
    destruct ps; [exact Hp|]. cbn [join]. apply nonEmpty_app_l, Hp.
Qed.

(** X9.  A template label is empty exactly when the template has no
    [recordLabel] block: with a block the label is never empty (parts found
    in the record, or the fallback text), without one it is the empty
    string. *)
Theorem buildTemplateRecordLabel_nonEmpty (tpl record : Value) (index : nat)
    (label : string) :
  buildTemplateRecordLabel tpl record index = Ok label ->
  nonEmpty label = isObjectLike tpl && isObjectLike (ownProperty tpl "recordLabel").
Proof. apply buildTemplateRecordLabel_shape. Qed.

Lemma buildTemplateRecordLabel_nonEmpty_witness :
  buildTemplateRecordLabel labelOnlyTemplate ticket 0 = Ok "Record 1" /\
  nonEmpty "Record 1" =
    isObjectLike labelOnlyTemplate &&
    isObjectLike (ownProperty labelOnlyTemplate "recordLabel").
Proof.
  split; [reflexivity|].
  apply (buildTemplateRecordLabel_nonEmpty labelOnlyTemplate ticket 0). reflexivity.
Defined.

(** X10.  For a record that is an object and a template that carries a
    [recordLabel] block, the record label is the template label, whatever
    the record type: the built-in Issue and generic labels are not
    consulted. *)
Theorem buildRecordLabel_template_first (recordType : RecordType)
    (tpl record : Value) (index : nat) :
  isObjectLike record = true ->
  isObjectLike tpl = true ->
  isObjectLike (ownProperty tpl "recordLabel") = true ->
  buildRecordLabel recordType record index tpl =
  buildTemplateRecordLabel tpl record index.
Proof.
  intros Hrec Ht Hr. unfold buildRecordLabel. rewrite Hrec. cbn [negb].
  destruct (buildTemplateRecordLabel tpl record index) as [label|e] eqn:E;
    cbn [bind]; [|reflexivity].
  rewrite (buildTemplateRecordLabel_shape _ _ _ _ E), Ht, Hr. reflexivity.
Qed.

Lemma buildRecordLabel_template_first_witness :
  isObjectLike ticket = true /\
  isObjectLike labelOnlyTemplate = true /\
  isObjectLike (ownProperty labelOnlyTemplate "recordLabel") = true /\
  buildRecordLabel Issue ticket 0 labelOnlyTemplate =
  buildTemplateRecordLabel labelOnlyTemplate ticket 0.
Proof.
  repeat (split; [reflexivity|]).
  apply buildRecordLabel_template_first; reflexivity.
Defined.

Lemma allChars_impl (p q : ascii -> bool) (s : string) :
  (forall c, p c = true -> q c = true) -> allChars p s = true -> allChars q s = true.
Proof.
  intros Hpq. induction s as [|c s IH]; [reflexivity|].
  cbn [allChars]. intros H. apply andb_true_iff in H. destruct H as [Hc H].
  rewrite (Hpq c Hc), (IH H). reflexivity.
Qed.

Lemma isDigit_not_ws (c : ascii) : isDigit c = true -> negb (is_ws c) = true.
Proof.
  unfold isDigit, is_ws. intros H. apply andb_true_iff in H. destruct H as [H1 H2].
  apply Nat.leb_le in H1. apply Nat.leb_le in H2.
  apply negb_true_iff, orb_false_iff. split.
  - apply Nat.eqb_neq. lia.
  - apply andb_false_iff. right. apply Nat.leb_gt. lia.
Qed.

Lemma trimEnd_no_ws (b : string) :
  noChar is_ws b = true -> trimEnd b = b.
Proof.
  unfold noChar. induction b as [|c b IH]; [reflexivity|].
  cbn [allChars]. intros H. apply andb_true_iff in H. destruct H as [Hc H].
  cbn [trimEnd]. rewrite (IH H). apply negb_true_iff in Hc. rewrite Hc.
  destruct b; reflexivity.
Qed.

Lemma trimEnd_app (a b : string) :
  nonEmpty b = true -> noChar is_ws b = true -> trimEnd (a ++ b)%string = (a ++ b)%string.
Proof.
  intros Hn Hb. induction a as [|x a IH].
  - apply trimEnd_no_ws, Hb.
  - cbn [append trimEnd]. rewrite IH.
    destruct (a ++ b)%string eqn:E; [|reflexivity].
    destruct a; cbn [append] in E; [subst b; discriminate Hn|discriminate E].
Qed.

Lemma trim_recordBase (index : nat) : trim (recordBase index) = recordBase index.
Proof.
  unfold trim, recordBase. cbn [append trimStart].
  change (is_ws "R") with false. cbv iota.
  change (String "R" (String "e" (String "c" (String "o" (String "r" (String "d" (String " " (idx (index + 1)))))))))
    with ("Record " ++ idx (index + 1))%string.
  apply trimEnd_app; [apply N_toString_nonEmpty|].
  unfold noChar. apply (allChars_impl isDigit); [apply isDigit_not_ws|].
  apply N_toString_digits.
Qed.

Lemma nonEmpty_recordBase (index : nat) : nonEmpty (recordBase index) = true.
Proof. reflexivity. Qed.

Lemma dedupeBits_In (bits : list string) : forall seen b,
  In b bits -> trim b = b -> nonEmpty b = true ->
  In b (dedupeBits seen bits) \/ In b seen.
Proof.
  induction bits as [|x rest IH]; intros seen b Hin Ht Hn; [destruct Hin|].
  cbn [dedupeBits]. destruct Hin as [->|Hin].
  - rewrite Ht, Hn. cbn [negb].
    destruct (existsb (String.eqb b) seen) eqn:E.
    + right. apply existsb_eqb_In, E.
    + left. left. reflexivity.
  - destruct (negb (nonEmpty (trim x))); [apply IH; assumption|].
    destruct (existsb (String.eqb (trim x)) seen); [apply IH; assumption|].
    destruct (IH (trim x :: seen) b Hin Ht Hn) as [H|[H|H]].
    + left. right. exact H.
    + left. left. exact H.
    + right. exact H.
Qed.

Lemma genericIdentityBits_base (obj : Value) (base : string) (out : list string) :
  trim base = base -> nonEmpty base = true ->
  genericIdentityBits obj base = Ok out -> In base out.
Proof.
  intros Ht Hn. unfold genericIdentityBits.
  destruct (pickNameLike obj) as [name|e]; cbn [bind]; [|discriminate].
  destruct (pickEmailLike obj) as [email|e]; cbn [bind]; [|discriminate].
  destruct (pickCodeLike obj) as [code|e]; cbn [bind]; [|discriminate].
  destruct (pickIdLike obj) as [id|e]; cbn [bind]; [|discriminate].
  destruct (pickStatusLike obj) as [status|e]; cbn [bind]; [|discriminate].
  lazymatch goal with |- bind ?c _ = _ -> _ => destruct c as [main|e] end;
    cbn [bind]; [|discriminate].
  lazymatch goal with |- bind ?c _ = _ -> _ => destruct c as [second|e] end;
    cbn [bind]; [|discriminate].
  lazymatch goal with |- bind ?c _ = _ -> _ => destruct c as [third|e] end;
    cbn [bind]; [|discriminate].
  intros [= <-].
  destruct (dedupeBits_In
              ([main] ++ second ++ third ++
               (if String.eqb main base then [] else [base])) [] base)
    as [H|[]]; [|exact Ht|exact Hn|exact H].
  destruct (String.eqb main base) eqn:E.
  - apply String.eqb_eq in E. subst main. apply in_eq.
  - apply in_cons, in_or_app. right. apply in_or_app. right. apply in_eq.
Qed.

Lemma joinFragments_base (frags : list string) (base : string) :
  nonEmpty base = true -> In base frags ->
  exists out, joinFragments frags = join labelSeparator out /\ In base out.
Proof.
  intros Hn Hin. exists (filter nonEmpty frags). split; [reflexivity|].
  apply filter_In. split; assumption.
Qed.

Lemma buildTemplateRecordLabel_no_block (tpl record : Value) (index : nat) :
  isObjectLike tpl && isObjectLike (ownProperty tpl "recordLabel") = false ->
  buildTemplateRecordLabel tpl record index = Ok EmptyString.
Proof.
  unfold buildTemplateRecordLabel.
  destruct (isObjectLike tpl) eqn:Ht; cbn [negb andb]; [|reflexivity].
  rewrite (get_objectLike tpl _ Ht). cbn [bind]. intros ->. reflexivity.
Qed.

(** X11.  Without a [recordLabel] block (or without a template) every label
    that is built is a bullet-separated list of fragments one of which is
    the plain [Record N] of the record's position. *)
Theorem buildRecordLabel_contains_base (recordType : RecordType)
    (tpl record : Value) (index : nat) (label : string) :
  isObjectLike tpl && isObjectLike (ownProperty tpl "recordLabel") = false ->
  buildRecordLabel recordType record index tpl = Ok label ->
  exists fragments,
    label = join labelSeparator fragments /\ In (recordBase index) fragments.
Proof.
  intros Hno. unfold buildRecordLabel.
  destruct (isObjectLike record) eqn:Hrec; cbn [negb].
  2:{ intros [= <-]. exists [recordBase index]. split; [reflexivity|left; reflexivity]. }
  rewrite (buildTemplateRecordLabel_no_block _ _ _ Hno). cbn [bind nonEmpty].
  assert (Hgen : buildGenericIdentityLabel record (recordBase index) = Ok label ->
                 exists fragments, label = join labelSeparator fragments /\
                                   In (recordBase index) fragments).
  { unfold buildGenericIdentityLabel. rewrite Hrec. cbn [negb].
    destruct (genericIdentityBits record (recordBase index)) as [out|e] eqn:E;
      cbn [bind]; [|discriminate].
    intros [= <-]. exists out. split; [reflexivity|].
    apply (genericIdentityBits_base record _ out (trim_recordBase index)
             (nonEmpty_recordBase index) E). }
  destruct recordType; try exact Hgen.
  clear Hgen. unfold issueLabel.
  repeat match goal with
  | |- bind ?c _ = _ -> _ => destruct c; cbn [bind]; [|discriminate]
  | |- (if ?b then _ else _) = _ -> _ => destruct b
  end;
  intros [= <-];
  first [ apply joinFragments_base; [reflexivity|cbn [In]; tauto]
        | exists [recordBase index]; split; [reflexivity|left; reflexivity] ].
Qed.

Lemma buildRecordLabel_contains_base_witness :
  exists label,
    isObjectLike VNull && isObjectLike (ownProperty VNull "recordLabel") = false /\
    buildRecordLabel Issue ticket 0 VNull = Ok label /\
    exists fragments,
      label = join labelSeparator fragments /\ In (recordBase 0) fragments.
Proof.
  eexists. split; [reflexivity|]. split; [reflexivity|].
  apply (buildRecordLabel_contains_base Issue VNull ticket 0); reflexivity.
Defined.

Lemma total_pickFirstOf (obj : Value) (keys : list string) :
  nullish obj = false -> total (pickFirstOf obj keys).
Proof.
  intros Hn. induction keys as [|k rest IH]; cbn [pickFirstOf]; [apply total_Ok|].
  destruct (total_hasOwnProperty obj k Hn) as [has ->]. cbn [bind].
  destruct has; [apply total_get, Hn|exact IH].
Qed.

Lemma total_pickFirst (obj : Value) (keys : list string) : total (pickFirst obj keys).
Proof.
  unfold pickFirst. destruct (isObjectLike obj) eqn:Ho; cbn [negb]; [|apply total_Ok].
  apply total_pickFirstOf, isObjectLike_not_nullish, Ho.
Qed.

Lemma pickFirstPrimitive_primitive (obj : Value) (keys : list string) :
  exists v, pickFirstPrimitive obj keys = Ok v /\ primitiveOrNull v = true.
Proof.
  unfold pickFirstPrimitive. destruct (total_pickFirst obj keys) as [v ->]. cbn [bind].
  destruct (isUsablePrimitive v) eqn:E; eexists; (split; [reflexivity|]).
  - unfold primitiveOrNull. rewrite E. apply orb_true_r.
  - reflexivity.
Qed.

Lemma total_js_String_primitive (v : Value) :
  primitiveOrNull v = true -> total (js_String v).
Proof. destruct v as [| |b|n|s|items|props]; try discriminate; intros _;
  try apply total_Ok. destruct b; apply total_Ok. Qed.

Lemma total_safeOneLine (v : Value) (maxLen : nat) :
  primitiveOrNull v = true -> total (safeOneLine v maxLen).
Proof.
  intros Hp. unfold safeOneLine. apply total_bind.
  - destruct (nullish v); [apply total_Ok|apply total_js_String_primitive, Hp].
  - intros raw. destruct (negb _); [apply total_Ok|].
    destruct (_ <? _)%nat; apply total_Ok.
Qed.

Lemma pickStatusLike_primitive (obj : Value) :
  exists v, pickStatusLike obj = Ok v /\ primitiveOrNull v = true.
Proof.
  unfold pickStatusLike.
  destruct (total_pickFirst obj ["Status"; "status"; "State"; "state"]) as [v ->].
  cbn [bind].
  assert (Hobj : exists r,
    (if isObjectLike v
     then n <- pickFirstPrimitive v ["Name"; "name"; "Label"; "label"] ;;
          (if nullish n then Ok VNull else s <- js_String n ;; Ok (VStr (trim s)))
     else Ok VNull) = Ok r /\ primitiveOrNull r = true).
  { destruct (isObjectLike v); [|exists VNull; split; reflexivity].
    destruct (pickFirstPrimitive_primitive v ["Name"; "name"; "Label"; "label"])
      as [n [-> Hn]]. cbn [bind].
    destruct (nullish n) eqn:En; [exists VNull; split; reflexivity|].
    destruct (total_js_String_primitive n Hn) as [s ->]. cbn [bind].
    eexists. split; reflexivity. }
  destruct v; try exact Hobj.
  destruct (nonEmpty (trim s)); eexists; split; reflexivity.
Qed.

Lemma total_genericIdentityBits (obj : Value) (base : string) :
  total (genericIdentityBits obj base).
Proof.
  unfold genericIdentityBits, pickNameLike, pickEmailLike, pickCodeLike, pickIdLike.
  destruct (pickFirstPrimitive_primitive obj
    ["Title"; "title"; "Name"; "name"; "Subject"; "subject"; "Summary";
     "summary"; "DisplayName"; "displayName"]) as [name [-> Hname]]. cbn [bind].
  destruct (pickFirstPrimitive_primitive obj ["Email"; "email"; "mail"; "Mail"])
    as [email [-> Hemail]]. cbn [bind].
  destruct (pickFirstPrimitive_primitive obj
    ["Number"; "number"; "No"; "no"; "code"; "Code"; "ref"; "Ref";
     "reference"; "Reference"]) as [code [-> Hcode]]. cbn [bind].
  destruct (pickFirstPrimitive_primitive obj
    ["Id"; "id"; "ID"; "uid"; "Uid"; "GUID"; "guid"; "uuid"; "UUID"; "key"; "Key"])
    as [id [-> Hid]]. cbn [bind].
  destruct (pickStatusLike_primitive obj) as [status [-> Hstatus]]. cbn [bind].
  repeat first
    [ apply total_Ok
    | apply total_safeOneLine; assumption
    | apply total_if
    | apply total_bind; [|intros ?] ].
Qed.

Lemma total_issueLabel (record : Value) (base : string) :
  total (issueLabel record base).
Proof.
  unfold issueLabel, pickIdLike.
  destruct (pickFirstPrimitive_primitive record ["Number"; "number"])
    as [num [-> Hnum]]. cbn [bind].
  destruct (pickFirstPrimitive_primitive record ["Title"; "title"; "Name"; "name"])
    as [title [-> Htitle]]. cbn [bind].
  destruct (pickFirstPrimitive_primitive record
    ["Id"; "id"; "ID"; "uid"; "Uid"; "GUID"; "guid"; "uuid"; "UUID"; "key"; "Key"])
    as [id [-> Hid]]. cbn [bind].
  destruct (pickStatusLike_primitive record) as [status [-> Hstatus]]. cbn [bind].
  repeat first
    [ apply total_Ok
    | apply total_safeOneLine; assumption
    | apply total_js_String_primitive; assumption
    | apply total_if
    | apply total_bind; [|intros ?] ].
Qed.

Lemma isUsablePrimitive_primitiveOrNull (v : Value) :
  isUsablePrimitive v = true -> primitiveOrNull v = true.
Proof. intros H. unfold primitiveOrNull. rewrite H. apply orb_true_r. Qed.

Lemma total_labelPart (record f : Value) :
  plain f = true -> total (labelPart record f).
Proof.
  intros Hp. unfold labelPart.
  destruct (isObjectLike f) eqn:Ho; cbn [negb]; [|apply total_Ok].
  rewrite !(get_objectLike _ _ Ho). cbn [bind].
  apply total_bind.
  { apply total_js_String, plain_js_or; [apply plain_ownProperty, Hp|reflexivity]. }
  intros ps. destruct (negb (nonEmpty (trim ps))); [apply total_Ok|].
  apply total_bind; [apply total_getValueAtPath|]. intros raw.
  destruct (isUsablePrimitive raw) eqn:Er; cbn [negb]; [|apply total_Ok].
  apply total_bind;
    [apply total_js_String_primitive, isUsablePrimitive_primitiveOrNull, Er|].
  intros rs. destruct (negb (nonEmpty (trim rs))); apply total_Ok.
Qed.

Lemma total_labelParts (record : Value) (fields : list Value) :
  forallb plain fields = true -> total (labelParts record fields).
Proof.
  induction fields as [|f rest IH]; cbn [labelParts forallb]; intros H; [apply total_Ok|].
  apply andb_true_iff in H. destruct H as [Hf Hrest].
  apply total_bind; [apply total_labelPart, Hf|]. intros part.
  apply total_bind; [apply IH, Hrest|]. intros parts. apply total_Ok.
Qed.

Lemma total_buildTemplateRecordLabel (tpl record : Value) (index : nat) :
  plain tpl = true -> total (buildTemplateRecordLabel tpl record index).
Proof.
  intros Hp. unfold buildTemplateRecordLabel.
  destruct (isObjectLike tpl) eqn:Ho; cbn [negb]; [|apply total_Ok].
  rewrite (get_objectLike _ _ Ho). cbn [bind].
  pose proof (plain_ownProperty tpl "recordLabel" Hp) as Hrl.
  destruct (isObjectLike (ownProperty tpl "recordLabel")) eqn:Hr; cbn [negb];
    [|apply total_Ok].
  rewrite !(get_objectLike _ _ Hr). cbn [bind].
  pose proof (plain_ownProperty _ "fields" Hrl) as Hfs.
  apply total_bind.
  - destruct (ownProperty (ownProperty tpl "recordLabel") "fields");
      try apply total_Ok. apply total_labelParts. exact Hfs.
  - intros parts. destruct parts; apply total_Ok.
Qed.

(** X12.  Building a label never raises, for any record and record type,
    when no mapping inside the template shadows [toString]. *)
Theorem buildRecordLabel_total (recordType : RecordType) (record tpl : Value)
    (index : nat) :
  plain tpl = true -> total (buildRecordLabel recordType record index tpl).
Proof.
  intros Hp. unfold buildRecordLabel.
  destruct (isObjectLike record) eqn:Hr; cbn [negb]; [|apply total_Ok].
  apply total_bind; [apply total_buildTemplateRecordLabel, Hp|]. intros tplLabel.
  destruct (nonEmpty tplLabel); [apply total_Ok|].
  destruct recordType; try apply total_issueLabel;
    unfold buildGenericIdentityLabel; rewrite Hr; cbn [negb];
    (apply total_bind; [apply total_genericIdentityBits|intros; apply total_Ok]).
Qed.

Lemma buildRecordLabel_total_witness :
  plain labelOnlyTemplate = true /\
  total (buildRecordLabel Generic ticket 0 labelOnlyTemplate).
Proof.
  split; [reflexivity|apply buildRecordLabel_total; reflexivity].
Defined.

(** ** Dataset filter and dataset view *)

Lemma pickFirstOf_plain (obj : Value) (keys : list string) :
  nullish obj = false -> plain obj = true ->
  exists v, pickFirstOf obj keys = Ok v /\ plain v = true.
Proof.
  intros Hn Hp. induction keys as [|k rest IH]; cbn [pickFirstOf].
  - exists VNull. split; reflexivity.
  - destruct (total_hasOwnProperty obj k Hn) as [has ->]. cbn [bind].
    destruct has; [|exact IH].
    rewrite (get_ok _ _ Hn). exists (ownProperty obj k). split; [reflexivity|].
    apply plain_ownProperty, Hp.
Qed.

Lemma pickFirst_plain (obj : Value) (keys : list string) :
  plain obj = true -> exists v, pickFirst obj keys = Ok v /\ plain v = true.
Proof.
  intros Hp. unfold pickFirst. destruct (isObjectLike obj) eqn:Ho; cbn [negb].
  - apply pickFirstOf_plain; [apply isObjectLike_not_nullish, Ho|exact Hp].
  - exists VNull. split; reflexivity.
Qed.

Lemma total_identityCandidates (row : Value) :
  plain row = true -> total (identityCandidates row).
Proof.
  intros Hp. unfold identityCandidates.
  destruct (pickFirst_plain row ["Id"; "id"; "ID"] Hp) as [c1 [-> H1]]. cbn [bind].
  destruct (pickFirst_plain row ["Number"; "number"; "No"; "no"; "code"; "Code"] Hp)
    as [c2 [-> H2]]. cbn [bind].
  destruct (pickFirst_plain row
              ["Title"; "title"; "Name"; "name"; "Subject"; "subject"] Hp)
    as [c3 [-> H3]]. cbn [bind].
  destruct (pickFirst_plain row ["Status"; "status"] Hp) as [c4 [-> H4]]. cbn [bind].
  destruct (pickFirst_plain row ["Type"; "type"] Hp) as [c5 [-> H5]]. cbn [bind].
  apply total_mapM. intros x Hx. apply filter_In in Hx. destruct Hx as [Hx _].
  apply total_bind; [|intros; apply total_Ok].
  apply total_js_String.
  cbn [In] in Hx. destruct Hx as [<-|[<-|[<-|[<-|[<-|[]]]]]]; assumption.
Qed.

Lemma lookup_In_Object_keys (props : list (string * Value)) (k : string) (v : Value) :
  lookup k props = Some v -> In k (Object_keys props).
Proof.
  intros H. apply existsb_eqb_In.
  change (setHas (Object_keys props) k = true). rewrite setHas_Object_keys.
  unfold hasKey. induction props as [|[k' v'] rest IH]; [discriminate H|].
  cbn [lookup] in H. cbn [existsb fst].
  destruct (String.eqb k k'); [reflexivity|]. apply IH, H.
Qed.

Lemma scanPrimitiveFields_finds (props : list (string * Value)) (k s filter_ f : string)
    (keys : list string) :
  lookup k props = Some (VStr s) ->
  includes (toLowerCase s) f = true ->
  In k keys ->
  scanPrimitiveFields (VObj props) keys filter_ f = Ok true.
Proof.
  intros Hk Hs. induction keys as [|k' rest IH]; intros Hin; [destruct Hin|].
  cbn [scanPrimitiveFields]. rewrite get_ok by reflexivity. cbn [bind].
  assert (Hrest : k' <> k -> scanPrimitiveFields (VObj props) rest filter_ f = Ok true).
  { intros Hne. apply IH. destruct Hin as [Heq|Hin]; [contradiction|exact Hin]. }
  destruct (String.eqb k' k) eqn:E.
  - apply String.eqb_eq in E. subst k'. cbn [ownProperty]. rewrite Hk, Hs. reflexivity.
  - apply String.eqb_neq in E. specialize (Hrest E).
    destruct (ownProperty (VObj props) k') as [| |b|n|s'|items|props'];
      try exact Hrest.
    + cbn [js_String]. destruct b; cbn [bind];
        match goal with |- (if ?c then _ else _) = _ => destruct c end;
        first [reflexivity|exact Hrest].
    + cbn [js_String bind]. destruct (includes _ filter_); [reflexivity|exact Hrest].
    + destruct (includes (toLowerCase s') f); [reflexivity|exact Hrest].
Qed.

(** X13.  A row that holds, under any key, a string containing the filter
    text (letter case ignored) matches the filter, provided no mapping
    inside the row shadows [toString]. *)
Theorem rowMatchesFilter_string_field (props : list (string * Value))
    (k s filter_ : string) :
  plain (VObj props) = true ->
  lookup k props = Some (VStr s) ->
  includes (toLowerCase s) (toLowerCase filter_) = true ->
  rowMatchesFilter (VObj props) filter_ = Ok true.
Proof.
  intros Hp Hk Hs. unfold rowMatchesFilter.
  destruct (negb (nonEmpty filter_)); [reflexivity|].
  change (negb (isObjectLike (VObj props))) with false. cbv iota.
  destruct (total_identityCandidates _ Hp) as [cands ->]. cbn [bind].
  destruct (existsb _ cands); [reflexivity|].
  cbn [Object_keys_of bind].
  apply (scanPrimitiveFields_finds props k s); [exact Hk|exact Hs|].
  apply (lookup_In_Object_keys props k _ Hk).
Qed.

Lemma rowMatchesFilter_string_field_witness :
  plain (VObj [("note", VStr "Needs REVIEW")]) = true /\
  lookup "note" [("note", VStr "Needs REVIEW")] = Some (VStr "Needs REVIEW") /\
  includes (toLowerCase "Needs REVIEW") (toLowerCase "Review") = true /\
  rowMatchesFilter (VObj [("note", VStr "Needs REVIEW")]) "Review" = Ok true.
Proof.
  repeat (split; [reflexivity|]).
  apply (rowMatchesFilter_string_field [("note", VStr "Needs REVIEW")]
           "note" "Needs REVIEW" "Review"); reflexivity.
Defined.

(** X14.  A row that is not an object matches the empty filter and no
    other. *)
Theorem rowMatchesFilter_non_object (row : Value) (filter_ : string) :
  isObjectLike row = false ->
  rowMatchesFilter row filter_ = Ok (negb (nonEmpty filter_)).
Proof.
  intros Hr. unfold rowMatchesFilter. rewrite Hr.
  destruct (nonEmpty filter_); reflexivity.
Qed.

Lemma rowMatchesFilter_non_object_witness :
  isObjectLike (VStr "review") = false /\
  rowMatchesFilter (VStr "review") "review" = Ok (negb (nonEmpty "review")).
Proof.
  split; [reflexivity|apply rowMatchesFilter_non_object; reflexivity].
Defined.

Lemma clamp_range (n : Value) (lo hi : Z) :
  (lo <= hi)%Z -> (lo <= clamp n lo hi <= hi)%Z.
Proof. intros H. unfold clamp. destruct n; lia. Qed.

Lemma clamp_inside (z lo hi : Z) :
  (lo <= hi)%Z -> (clamp (VNum z) lo hi = z <-> lo <= z <= hi)%Z.
Proof. intros H. unfold clamp. lia. Qed.

Lemma arrayAt_In (arr : list Value) (i : Z) :
  (0 <= i < Z.of_nat (List.length arr))%Z ->
  arrayAt arr i = nth (Z.to_nat i) arr VUndefined /\ In (arrayAt arr i) arr.
Proof.
  intros H. unfold arrayAt. destruct (i <? 0)%Z eqn:E; [apply Z.ltb_lt in E; lia|].
  split; [reflexivity|]. apply nth_In. lia.
Qed.

Lemma indexedFrom_In (arr : list Value) : forall k i row,
  In (i, row) (indexedFrom k arr) <-> k <= i /\ nth_error arr (i - k) = Some row.
Proof.
  induction arr as [|x rest IH]; intros k i row; cbn [indexedFrom In].
  - split; [intros []|]. intros [_ H]. destruct (i - k); discriminate H.
  - rewrite IH. split.
    + intros [H|[Hk H]].
      * injection H as <- <-. split; [lia|]. rewrite Nat.sub_diag. reflexivity.
      * split; [lia|]. replace (i - k) with (S (i - S k)) by lia. exact H.
    + intros [Hk H]. destruct (i - k) as [|m] eqn:E.
      * left. cbn in H. injection H as <-. f_equal. lia.
      * right. split; [lia|]. cbn in H. replace (i - S k) with m by lia. exact H.
Qed.

Lemma filterRows_filter (filter_ : string) (indexed : list (nat * Value)) :
  forall kept, filterRows filter_ indexed = Ok kept ->
  kept = filter (fun p => matchesRow filter_ (snd p)) indexed.
Proof.
  induction indexed as [|[i row] rest IH]; intros kept; cbn [filterRows].
  - intros [= <-]. reflexivity.
  - destruct (rowMatchesFilter row filter_) as [keep|err] eqn:E; cbn [bind]; [|discriminate].
    destruct (filterRows filter_ rest) as [kept'|err]; cbn [bind]; [|discriminate].
    intros [= <-]. rewrite (IH kept' eq_refl).
    assert (Hk : matchesRow filter_ row = keep).
    { unfold matchesRow. rewrite E. destruct keep; reflexivity. }
    simpl filter. rewrite Hk. reflexivity.
Qed.

Lemma filter_all {A : Type} (p : A -> bool) (l : list A) :
  (forall x, In x l -> p x = true) -> filter p l = l.
Proof.
  induction l as [|x l IH]; intros H; [reflexivity|]. cbn [filter].
  rewrite (H x (or_introl eq_refl)). f_equal. apply IH. intros y Hy. apply H. right. exact Hy.
Qed.

Lemma matchesRow_empty (row : Value) : matchesRow EmptyString row = true.
Proof. reflexivity. Qed.

Lemma jumpIndex_not_number (v : Value) :
  JsType_eqb (typeof v) TyNumber = false ->
  forall (A : Type) (f : Z -> A) (d : A),
    match v with VNum z => f z | _ => d end = d.
Proof. destruct v; try reflexivity. discriminate. Qed.

Lemma extractRecords_objectLike (json : Value) (ex : Extraction) :
  extractRecords json = Ok ex ->
  forall x, In x (records ex) -> isObjectLike x = true.
Proof.
  unfold extractRecords. generalize candidateKeys as keys. intros keys H x Hx.
  destruct json as [| |b|z|s|items|props];
    try (destruct (isObjectLike _) eqn:Ho in H;
         [ destruct (findContainer _ keys) as [[[key arr]|]|e]; cbn [bind] in H;
           try discriminate H; injection H as <-; cbn [records] in Hx;
           [ apply filter_In in Hx; apply Hx
           | destruct Hx as [<-|[]]; exact Ho ]
         | injection H as <-; destruct Hx ]).
  injection H as <-. apply filter_In in Hx. apply Hx.
Qed.

(** X17.  The record handed to the record view is one of the extracted
    records, or the document itself when none was extracted; for a document
    that is an object or an array it is always an object or an array. *)
Theorem activeRecordOf_member (json recordIndex : Value) (ex : Extraction) :
  extractRecords json = Ok ex ->
  let r := activeRecordOf (records ex) json recordIndex in
  (In r (records ex) \/ (records ex = [] /\ r = json)) /\
  (isObjectLike json = true -> isObjectLike r = true).
Proof.
  intros Hex r.
  assert (Hcase : In r (records ex) \/ (records ex = [] /\ r = json)).
  { subst r. unfold activeRecordOf. destruct (records ex) as [|x rest] eqn:Er.
    - right. split; reflexivity.
    - left. apply arrayAt_In.
      pose proof (clamp_range recordIndex 0
                    (Z.of_nat (List.length (x :: rest)) - 1)) as Hc.
      cbn [List.length] in *. lia. }
  split; [exact Hcase|]. intros Hjson.
  destruct Hcase as [Hin|[_ Heq]];
    [apply (extractRecords_objectLike json ex Hex), Hin|rewrite Heq; exact Hjson].
Qed.

Lemma activeRecordOf_member_witness :
  extractRecords (VArr twoRows) =
    Ok {| records := twoRows; sourcePath := Some "$" |} /\
  (In (activeRecordOf twoRows (VArr twoRows) (VNum 5)) twoRows \/
   (twoRows = [] /\ activeRecordOf twoRows (VArr twoRows) (VNum 5) = VArr twoRows)) /\
  (isObjectLike (VArr twoRows) = true ->
   isObjectLike (activeRecordOf twoRows (VArr twoRows) (VNum 5)) = true).
Proof.
  split; [reflexivity|].
  apply (activeRecordOf_member (VArr twoRows) (VNum 5)
           {| records := twoRows; sourcePath := Some "$" |}).
  reflexivity.
Defined.

(** ** Template validation *)

Lemma validateFields_decides (fields : list Value) : forall si fi,
  exists r, validateFields si fi fields = Ok r /\
            (r = None <-> forallb wellShapedField fields = true).
Proof.
  induction fields as [|f rest IH]; intros si fi; cbn [validateFields forallb].
  - exists None. split; [reflexivity|tauto].
  - unfold wellShapedField at 1.
    destruct (isMapping f) eqn:Hm; cbn [negb andb].
    2:{ eexists. split; [reflexivity|]. split; discriminate. }
    rewrite !(get_objectLike _ _ (isMapping_objectLike _ Hm)). cbn [bind].
    destruct (isNonBlankString (ownProperty f "path")); cbn [negb andb].
    2:{ eexists. split; [reflexivity|]. split; discriminate. }
    destruct (isNonBlankString (ownProperty f "label")); cbn [negb andb].
    2:{ eexists. split; [reflexivity|]. split; discriminate. }
    apply IH.
Qed.

Lemma validateSections_decides (layout : list Value) : forall si,
  exists r, validateSections si layout = Ok r /\
            (r = None <-> forallb wellShapedSection layout = true).
Proof.
  induction layout as [|sec rest IH]; intros si; cbn [validateSections forallb].
  - exists None. split; [reflexivity|tauto].
  - unfold wellShapedSection at 1.
    destruct (isMapping sec) eqn:Hm; cbn [negb andb].
    2:{ eexists. split; [reflexivity|]. split; discriminate. }
    rewrite !(get_objectLike _ _ (isMapping_objectLike _ Hm)). cbn [bind].
    destruct (isNonBlankString (ownProperty sec "section")); cbn [negb andb].
    2:{ eexists. split; [reflexivity|]. split; discriminate. }
    destruct (ownProperty sec "fields") as [| | | | |fields|];
      try (eexists; split; [reflexivity|]; split; discriminate).
    destruct (validateFields_decides fields si 0) as [r [-> Hr]]. cbn [bind].
    destruct r as [msg|].
    + exists (Some msg). split; [reflexivity|]. split; [discriminate|].
      intros H. apply andb_true_iff in H. destruct H as [H _].
      apply Hr in H. discriminate H.
    + rewrite (proj1 Hr eq_refl). cbn [andb]. apply IH.
Qed.

Lemma validateBlock_decides (t : Value) (block inner : string) :
  isObjectLike t = true ->
  exists r, validateBlock t block inner = Ok r /\
            (r = None <-> wellShapedBlock t block inner = true).
Proof.
  intros Ho. unfold validateBlock, wellShapedBlock.
  rewrite (get_objectLike _ _ Ho). cbn [bind].
  destruct (ownProperty t block) as [| |b|n|s|items|props].
  - exists None. split; [reflexivity|]. split; reflexivity.
  - exists None. split; [reflexivity|]. split; reflexivity.
  - eexists. split; [reflexivity|]. split; [discriminate|].
    destruct b; discriminate.
  - eexists. split; [reflexivity|]. split; [discriminate|].
    unfold isMapping, isObjectLike. cbn [typeof JsType_eqb].
    rewrite andb_false_r. discriminate.
  - eexists. split; [reflexivity|]. split; [discriminate|].
    unfold isMapping, isObjectLike. cbn [typeof JsType_eqb].
    rewrite andb_false_r. discriminate.
  - eexists. split; [reflexivity|]. split; discriminate.
  - cbn [nullish typeof JsType_eqb negb isArray orb].
    rewrite get_ok by reflexivity. cbn [bind].
    change (isMapping (VObj props)) with true. cbn [andb].
    destruct (ownProperty (VObj props) inner); cbn [nullish isArray negb andb orb];
      eexists; (split; [reflexivity|]); split; first [reflexivity|discriminate].
Qed.

Lemma validateTemplate_decides (t : Value) :
  exists v, validateTemplate t = Ok v /\
    ((wellShapedTemplate t = true /\ v = valid) \/
     (wellShapedTemplate t = false /\ exists msg, v = invalid msg)).
Proof.
  unfold validateTemplate, wellShapedTemplate.
  destruct (isMapping t) eqn:Hm; cbn [negb andb].
  2:{ eexists. split; [reflexivity|]. right. split; [reflexivity|eauto]. }
  pose proof (isMapping_objectLike _ Hm) as Ho.
  rewrite !(get_objectLike _ _ Ho). cbn [bind].
  destruct (ownProperty t "templateVersion") as [| | |[|[p|p|]|p]| | |];
    try (eexists; split; [reflexivity|]; right; split; [reflexivity|eauto]; fail).
  cbn [andb].
  destruct (isNonBlankString (ownProperty t "templateName")); cbn [negb andb].
  2:{ eexists. split; [reflexivity|]. right. split; [reflexivity|eauto]. }
  destruct (ownProperty t "layout") as [| | | | |layout|];
    try (eexists; split; [reflexivity|]; right; split; [reflexivity|eauto]; fail).
  destruct (validateSections_decides layout 0) as [r [-> Hr]]. cbn [bind].
  destruct r as [msg|].
  { eexists. split; [reflexivity|]. right. split; [|eauto].
    destruct (forallb wellShapedSection layout); [|reflexivity].
    discriminate (proj2 Hr eq_refl). }
  rewrite (proj1 Hr eq_refl). cbn [andb].
  destruct (validateBlock_decides t "match" "requiredKeys" Ho) as [rm [-> Hrm]].
  cbn [bind]. destruct rm as [msg|].
  { eexists. split; [reflexivity|]. right. split; [|eauto].
    destruct (wellShapedBlock t "match" "requiredKeys"); [|reflexivity].
    discriminate (proj2 Hrm eq_refl). }
  rewrite (proj1 Hrm eq_refl). cbn [andb].
  destruct (validateBlock_decides t "recordLabel" "fields" Ho) as [rl [-> Hrl]].
  cbn [bind]. destruct rl as [msg|].
  { eexists. split; [reflexivity|]. right. split; [|eauto].
    destruct (wellShapedBlock t "recordLabel" "fields"); [|reflexivity].
    discriminate (proj2 Hrl eq_refl). }
  rewrite (proj1 Hrl eq_refl).
  eexists. split; [reflexivity|]. left. split; reflexivity.
Qed.

(** X18.  Validation never raises, whatever the value it is given, and its
    verdict is coherent: [ok] is true exactly when there is no error
    message, and false exactly when there is one. *)
Theorem validateTemplate_verdict (t : Value) :
  exists v, validateTemplate t = Ok v /\
            (ok v = true <-> error v = None) /\
            (ok v = false <-> exists msg, error v = Some msg).
Proof.
  destruct (validateTemplate_decides t) as [v [Hv [[_ ->]|[_ [msg ->]]]]].
  - exists valid. split; [exact Hv|]. cbn. split; split; try reflexivity;
      try discriminate. intros [m Hm]. discriminate Hm.
  - exists (invalid msg). split; [exact Hv|]. cbn. split; split;
      try discriminate; try reflexivity. intros _. exists msg. reflexivity.
Qed.

(** X19.  Validation accepts exactly the well-shaped templates: a mapping
    with [templateVersion] 1, a non-blank [templateName], a [layout] array
    whose sections are mappings with a non-blank [section] and a [fields]
    array of mappings with non-blank [path] and [label], and [match] and
    [recordLabel] blocks that are absent or mappings whose [requiredKeys],
    respectively [fields], is absent or an array. *)
Theorem validateTemplate_accepts_well_shaped (t : Value) :
  validateTemplate t = Ok valid <-> wellShapedTemplate t = true.
Proof.
  destruct (validateTemplate_decides t) as [v [Hv [[Hw ->]|[Hw [msg ->]]]]];
    rewrite Hv, Hw; split; try reflexivity; discriminate.
Qed.

(** ** Field hits, required keys and paths *)

Lemma countFieldHits_bound (record : Value) (fields : list Value) :
  forall hits n, countFieldHits record fields hits = Ok n ->
  hits <= n <= hits + List.length fields.
Proof.
  induction fields as [|f rest IH]; intros hits n; cbn [countFieldHits List.length].
  - intros [= <-]. lia.
  - assert (Hskip : countFieldHits record rest hits = Ok n ->
                    hits <= n <= hits + S (List.length rest)).
    { intros H. apply IH in H. lia. }
    assert (Hhit : countFieldHits record rest (S hits) = Ok n ->
                   hits <= n <= hits + S (List.length rest)).
    { intros H. apply IH in H. lia. }
    destruct (negb (isObjectLike f)); [exact Hskip|].
    destruct (get f "path") as [fp|e]; cbn [bind]; [|discriminate].
    destruct (js_String (js_or fp (VStr ""))) as [s|e]; cbn [bind]; [|discriminate].
    destruct (negb (nonEmpty (trim s))); [exact Hskip|].
    destruct (getValueAtPath record (trim s)) as [v|e]; cbn [bind]; [|discriminate].
    assert (Hfound :
      (ff <- get f "format" ;;
       fs <- js_String (js_or ff (VStr "text")) ;;
       (if String.eqb (toLowerCase (trim fs)) "kvlist"
        then html <- renderKvListValue v f ;;
             match html with
             | Some _ => countFieldHits record rest (S hits)
             | None => countFieldHits record rest hits
             end
        else countFieldHits record rest (S hits))) = Ok n ->
      hits <= n <= hits + S (List.length rest)).
    { destruct (get f "format") as [ff|e]; cbn [bind]; [|discriminate].
      destruct (js_String (js_or ff (VStr "text"))) as [fs|e]; cbn [bind]; [|discriminate].
      destruct (String.eqb (toLowerCase (trim fs)) "kvlist"); [|exact Hhit].
      destruct (renderKvListValue v f) as [[html|]|e]; cbn [bind];
        [exact Hhit|exact Hskip|discriminate]. }
    destruct v; first [exact Hskip|exact Hfound].
Qed.

Lemma list_sum_cons (x : nat) (l : list nat) : list_sum (x :: l) = x + list_sum l.
Proof. reflexivity. Qed.

Lemma countSectionHits_bound (record : Value) (layout : list Value) :
  forall hits n, countSectionHits record layout hits = Ok n ->
  hits <= n <= hits + list_sum (map (fun sec => List.length (fieldsOfSection sec)) layout).
Proof.
  induction layout as [|sec rest IH]; intros hits n; cbn [countSectionHits map];
    rewrite ?list_sum_cons.
  - intros [= <-]. cbn. lia.
  - destruct (isObjectLike sec) eqn:Ho; cbn [negb].
    + rewrite (get_objectLike _ _ Ho). cbn [bind].
      change (match ownProperty sec "fields" with VArr l => l | _ => [] end)
        with (fieldsOfSection sec).
      destruct (countFieldHits record (fieldsOfSection sec) hits) as [h|e] eqn:E;
        cbn [bind]; [|discriminate].
      intros H. apply IH in H. apply countFieldHits_bound in E. lia.
    + intros H. apply IH in H. lia.
Qed.

(** X20.  The number of field hits never exceeds the number of fields the
    layout declares. *)
Theorem countTemplateFieldHits_bound (template record : Value) (n : nat) :
  countTemplateFieldHits template record = Ok n ->
  n <= declaredFieldCount template.
Proof.
  unfold countTemplateFieldHits, declaredFieldCount.
  destruct (isObjectLike template) eqn:Ho; cbn [negb]; [|intros [= <-]; lia].
  destruct (negb (isObjectLike record)); [intros [= <-]; lia|].
  rewrite (get_objectLike _ _ Ho). cbn [bind].
  destruct (ownProperty template "layout"); try (intros [= <-]; lia).
  intros H. apply countSectionHits_bound in H. lia.
Qed.

Lemma countTemplateFieldHits_bound_witness :
  countTemplateFieldHits broadTemplate ticket = Ok 3 /\
  3 <= declaredFieldCount broadTemplate.
Proof.
  split; [reflexivity|].
  apply (countTemplateFieldHits_bound broadTemplate ticket 3). reflexivity.
Defined.

Lemma hasRequiredKeys_named (record : Value) (keys : list Value) :
  nullish record = false ->
  exists b, hasRequiredKeys record keys = Ok b /\
            (b = true <-> forall k, In k (namedKeys keys) -> hasOwnProperty record k = Ok true).
Proof.
  intros Hn. unfold namedKeys.
  induction keys as [|k rest IH]; cbn [hasRequiredKeys map List.concat].
  - exists true. split; [reflexivity|]. split; [intros _ k []|reflexivity].
  - destruct IH as [b [Hb Hiff]].
    destruct k as [| | | |s| |]; try (exists b; split; [exact Hb|exact Hiff]).
    destruct (nonEmpty (trim s)); cbn [negb app];
      [|exists b; split; [exact Hb|exact Hiff]].
    destruct (total_hasOwnProperty record s Hn) as [has Hhas]. rewrite Hhas. cbn [bind].
    destruct has.
    + exists b. split; [exact Hb|]. rewrite Hiff. split.
      * intros H k [<-|Hk]; [exact Hhas|apply H, Hk].
      * intros H k Hk. apply H. right. exact Hk.
    + exists false. split; [reflexivity|]. split; [discriminate|].
      intros H. specialize (H s (or_introl eq_refl)). rewrite Hhas in H. discriminate H.
Qed.

(** X21.  With a [match] block that lists [requiredKeys] and checks no type
    field, a template matches a record exactly when every non-blank string
    of the list is an own key of the record; the value under the key plays
    no part. *)
Theorem templateMatchesRecord_required_keys (tpl record : Value) (keys : list Value) :
  isObjectLike tpl = true ->
  isObjectLike record = true ->
  isObjectLike (ownProperty tpl "match") = true ->
  ownProperty (ownProperty tpl "match") "requiredKeys" = VArr keys ->
  isNonBlankString (ownProperty (ownProperty tpl "match") "typeField") = false ->
  exists b, templateMatchesRecord tpl record = Ok b /\
    (b = true <->
     forall k, In k (namedKeys keys) -> hasOwnProperty record k = Ok true).
Proof.
  intros Ht Hr Hm Hk Htf. unfold templateMatchesRecord.
  rewrite Ht, Hr. cbn [negb]. rewrite (get_objectLike _ _ Ht). cbn [bind].
  rewrite Hm. cbn [negb]. rewrite !(get_objectLike _ _ Hm). cbn [bind]. rewrite Hk.
  destruct (hasRequiredKeys_named record keys (isObjectLike_not_nullish _ Hr))
    as [b [-> Hiff]]. cbn [bind].
  destruct b; cbn [negb].
  - exists true. split; [|exact Hiff].
    destruct (ownProperty (ownProperty tpl "match") "typeField"); try reflexivity.
    cbn [isNonBlankString] in Htf. rewrite Htf. reflexivity.
  - exists false. split; [reflexivity|exact Hiff].
Qed.

Lemma templateMatchesRecord_required_keys_witness :
  isObjectLike broadTemplate = true /\
  isObjectLike ticket = true /\
  isObjectLike (ownProperty broadTemplate "match") = true /\
  ownProperty (ownProperty broadTemplate "match") "requiredKeys" = VArr [VStr "Title"] /\
  isNonBlankString (ownProperty (ownProperty broadTemplate "match") "typeField") = false /\
  exists b, templateMatchesRecord broadTemplate ticket = Ok b /\
    (b = true <->
     forall k, In k (namedKeys [VStr "Title"]) -> hasOwnProperty ticket k = Ok true).
Proof.
  repeat (split; [reflexivity|]).
  apply (templateMatchesRecord_required_keys broadTemplate ticket [VStr "Title"]);
    reflexivity.
Defined.

Lemma getValueAtPath_printPath (root : Value) (tokens : list Token) :
  wellFormedPath tokens = true ->
  getValueAtPath root (printPath tokens) = Ok (resolve tokens root).
Proof.
  intros H. unfold getValueAtPath. rewrite (printPath_nonEmpty _ H). cbn [negb].
  assert (Hf : forallb wellFormedToken tokens = true).
  { destruct tokens; [discriminate H|exact H]. }
  destruct (nullish root) eqn:Hn.
  - destruct tokens; [discriminate H|]. destruct root; try discriminate Hn; reflexivity.
  - rewrite (tokenize_printPath _ Hf). apply walk_resolve.
Qed.

Lemma wellFormedPath_app (a b : list Token) :
  wellFormedPath a = true -> wellFormedPath b = true -> wellFormedPath (a ++ b) = true.
Proof.
  intros Ha Hb. destruct a as [|t a]; [discriminate Ha|].
  destruct b as [|u b]; [discriminate Hb|].
  unfold wellFormedPath in *. cbn [app]. change (t :: a ++ u :: b) with ((t :: a) ++ u :: b).
  rewrite forallb_app, Ha, Hb. reflexivity.
Qed.

(** X22.  Paths compose: resolving the text of a path followed by another
    is resolving the first and then the second from the value reached. *)
Theorem getValueAtPath_composition (root : Value) (before after : list Token) :
  wellFormedPath before = true ->
  wellFormedPath after = true ->
  getValueAtPath root (printPath (before ++ after)) =
  (mid <- getValueAtPath root (printPath before) ;;
   getValueAtPath mid (printPath after)).
Proof.
  intros Ha Hb.
  rewrite (getValueAtPath_printPath _ _ (wellFormedPath_app _ _ Ha Hb)).
  rewrite (getValueAtPath_printPath _ _ Ha). cbn [bind].
  rewrite (getValueAtPath_printPath _ _ Hb). rewrite resolve_app. reflexivity.
Qed.

Lemma getValueAtPath_composition_witness :
  wellFormedPath [TName "a"] = true /\
  wellFormedPath [TName "b"; TIndex 0] = true /\
  getValueAtPath (VObj [("a", VObj [("b", VArr [VNum 1])])])
    (printPath ([TName "a"] ++ [TName "b"; TIndex 0])) =
  (mid <- getValueAtPath (VObj [("a", VObj [("b", VArr [VNum 1])])])
            (printPath [TName "a"]) ;;
   getValueAtPath mid (printPath [TName "b"; TIndex 0])).
Proof.
  repeat (split; [reflexivity|]).
  apply getValueAtPath_composition; reflexivity.
Defined.

Lemma allChars_snoc (p : ascii -> bool) (s : string) (c : ascii) :
  allChars p s = true -> p c = true -> allChars p (snoc s c) = true.
Proof.
  intros Hs Hc. unfold snoc. rewrite allChars_app, Hs. cbn [allChars].
  rewrite Hc. reflexivity.
Qed.

Lemma isDigit_not_delimiter (c : ascii) :
  isDigit c = true -> negb (isDelimiter c) = true.
Proof.
  intros H. unfold isDelimiter. apply negb_true_iff.
  destruct (Ascii.eqb c ".") eqn:E1; [apply Ascii.eqb_eq in E1; subst c; discriminate H|].
  destruct (Ascii.eqb c "[") eqn:E2; [apply Ascii.eqb_eq in E2; subst c; discriminate H|].
  destruct (Ascii.eqb c "]") eqn:E3; [apply Ascii.eqb_eq in E3; subst c; discriminate H|].
  reflexivity.
Qed.

Lemma flush_wellFormed (pending : string) :
  allChars (fun c => negb (isDelimiter c)) pending = true ->
  forallb wellFormedToken (flush pending) = true.
Proof.
  intros H. unfold flush. destruct (nonEmpty pending) eqn:E; [|reflexivity].
  cbn [forallb wellFormedToken]. rewrite E, H. reflexivity.
Qed.

Lemma scan_wellFormed (path : string) : forall inBracket pending,
  allChars (fun c => negb (isDelimiter c)) pending = true ->
  forallb wellFormedToken (scan path inBracket pending) = true.
Proof.
  induction path as [|c rest IH]; intros inBracket pending Hp; cbn [scan].
  - apply flush_wellFormed, Hp.
  - destruct inBracket.
    + destruct (isDigit c) eqn:Ed.
      { apply IH, allChars_snoc; [exact Hp|apply isDigit_not_delimiter, Ed]. }
      destruct (Ascii.eqb c "]") eqn:E3.
      { destruct (nonEmpty pending); [cbn [forallb wellFormedToken]|]; apply IH; reflexivity. }
      destruct (Ascii.eqb c "[") eqn:E2.
      { rewrite forallb_app, (flush_wellFormed _ Hp). apply IH. reflexivity. }
      destruct (Ascii.eqb c ".") eqn:E1.
      { rewrite forallb_app, (flush_wellFormed _ Hp). apply IH. reflexivity. }
      apply IH, allChars_snoc; [exact Hp|]. unfold isDelimiter. rewrite E1, E2, E3. reflexivity.
    + destruct (Ascii.eqb c "[") eqn:E2.
      { rewrite forallb_app, (flush_wellFormed _ Hp). apply IH. reflexivity. }
      destruct (isDelimiter c) eqn:Ed.
      { rewrite forallb_app, (flush_wellFormed _ Hp). apply IH. reflexivity. }
      apply IH, allChars_snoc; [exact Hp|]. rewrite Ed. reflexivity.
Qed.

(** X23.  Every path text has a normal form.  The segments read from any
    text are well formed; printing them and reading them again gives the
    same segments; and when there is at least one segment, the printed
    form resolves to the same value as the original text on every object. *)
Theorem tokenize_normal_form (obj : Value) (path : string) :
  forallb wellFormedToken (tokenize path) = true /\
  tokenize (printPath (tokenize path)) = tokenize path /\
  (wellFormedPath (tokenize path) = true ->
   getValueAtPath obj (printPath (tokenize path)) = getValueAtPath obj path).
Proof.
  assert (Hw : forallb wellFormedToken (tokenize path) = true).
  { apply scan_wellFormed. reflexivity. }
  split; [exact Hw|]. split; [apply tokenize_printPath, Hw|].
  intros Hwp.
  unfold getValueAtPath at 1. rewrite (printPath_nonEmpty _ Hwp). cbn [negb].
  rewrite (tokenize_printPath _ Hw).
  unfold getValueAtPath. destruct (nonEmpty path) eqn:Ep; cbn [negb]; [reflexivity|].
  destruct path; [discriminate Hwp|discriminate Ep].
Qed.

Lemma tokenize_normal_form_witness :
  wellFormedPath (tokenize "a..b[0]") = true /\
  getValueAtPath ticket (printPath (tokenize "a..b[0]")) =
  getValueAtPath ticket "a..b[0]".
Proof.
  split; [reflexivity|].
  apply (proj2 (proj2 (tokenize_normal_form ticket "a..b[0]"))). reflexivity.
Defined.

Lemma scan_delimiters (path : string) : forall inBracket,
  allChars isDelimiter path = true -> scan path inBracket EmptyString = [].
Proof.
  induction path as [|c rest IH]; intros inBracket H; [reflexivity|].
  cbn [allChars] in H. apply andb_true_iff in H. destruct H as [Hc H].
  cbn [scan]. destruct inBracket.
  - destruct (isDigit c) eqn:Ed.
    { apply isDigit_not_delimiter in Ed. rewrite Hc in Ed. discriminate Ed. }
    destruct (Ascii.eqb c "]") eqn:E3; [apply IH, H|].
    destruct (Ascii.eqb c "[") eqn:E2; [apply IH, H|].
    destruct (Ascii.eqb c ".") eqn:E1; [apply IH, H|].
    unfold isDelimiter in Hc. rewrite E1, E2, E3 in Hc. discriminate Hc.
  - destruct (Ascii.eqb c "["); [apply IH, H|]. rewrite Hc. apply IH, H.
Qed.

(** X24.  A path that is not empty but made only of dots and brackets has
    no segment, and resolves to the object it is resolved against. *)
Theorem getValueAtPath_no_segment (root : Value) (path : string) :
  nonEmpty path = true ->
  allChars isDelimiter path = true ->
  nullish root = false ->
  getValueAtPath root path = Ok root.
Proof.
  intros Hp Hd Hn. unfold getValueAtPath, tokenize.
  rewrite Hp, Hn, (scan_delimiters _ false Hd). reflexivity.
Qed.

Lemma getValueAtPath_no_segment_witness :
  nonEmpty ".[]" = true /\
  allChars isDelimiter ".[]" = true /\
  nullish ticket = false /\
  getValueAtPath ticket ".[]" = Ok ticket.
Proof.
  repeat (split; [reflexivity|]).
  apply getValueAtPath_no_segment; reflexivity.
Defined.

(** ** Common keys, type distribution and previews *)

Lemma countOf_bumpCount (k k' : string) (counts : list (string * nat)) :
  countOf k (bumpCount k' counts) =
  countOf k counts + (if String.eqb k k' then 1 else 0).
Proof.
  induction counts as [|[x n] rest IH]; cbn [bumpCount countOf].
  - destruct (String.eqb k k'); reflexivity.
  - destruct (String.eqb k' x) eqn:E1; cbn [countOf].
    + apply String.eqb_eq in E1. subst x.
      destruct (String.eqb k k'); lia.
    + destruct (String.eqb k x) eqn:E2; [|exact IH].
      apply String.eqb_eq in E2. subst x.
      rewrite String.eqb_sym, E1. lia.
Qed.

Lemma bumpCount_keys (k : string) (counts : list (string * nat)) :
  NoDup (map fst counts) -> positiveCounts counts ->
  NoDup (map fst (bumpCount k counts)) /\ positiveCounts (bumpCount k counts) /\
  (forall x, In x (map fst (bumpCount k counts)) <-> x = k \/ In x (map fst counts)).
Proof.
  unfold positiveCounts.
  induction counts as [|[x n] rest IH]; cbn [bumpCount map fst]; intros Hnd Hpos.
  - split; [constructor; [intros []|constructor]|].
    split; [constructor; [cbn; lia|constructor]|].
    intros y. cbn. intuition congruence.
  - inversion Hnd as [|? ? Hx Hrest]; subst. inversion Hpos as [|? ? Hn Hp]; subst.
    destruct (String.eqb k x) eqn:E; cbn [map fst].
    + apply String.eqb_eq in E. subst x.
      split; [exact Hnd|]. split; [constructor; [cbn in *; lia|exact Hp]|].
      intros y. cbn. intuition.
    + destruct (IH Hrest Hp) as [IH1 [IH2 IH3]].
      split.
      * constructor; [|exact IH1]. intros Hin. apply IH3 in Hin.
        destruct Hin as [->|Hin]; [rewrite String.eqb_refl in E; discriminate E|].
        contradiction.
      * split; [constructor; assumption|].
        intros y. cbn. rewrite IH3. intuition.
Qed.

Lemma countOf_positive (k : string) (counts : list (string * nat)) :
  positiveCounts counts -> (In k (map fst counts) <-> 1 <= countOf k counts).
Proof.
  unfold positiveCounts. induction counts as [|[x n] rest IH]; intros Hpos; cbn [map fst In countOf].
  - split; [intros []|lia].
  - inversion Hpos as [|? ? Hn Hp]; subst. cbn in Hn.
    destruct (String.eqb k x) eqn:E.
    + apply String.eqb_eq in E. subst x. split; [intros _; exact Hn|intros _; left; reflexivity].
    + apply String.eqb_neq in E. rewrite <- (IH Hp). split.
      * intros [H|H]; [congruence|exact H].
      * intros H. right. exact H.
Qed.

Lemma countOf_In (k : string) (n : nat) (counts : list (string * nat)) :
  NoDup (map fst counts) -> In (k, n) counts -> countOf k counts = n.
Proof.
  induction counts as [|[x m] rest IH]; intros Hnd Hin; [destruct Hin|].
  inversion Hnd as [|? ? Hx Hrest]; subst. cbn [countOf].
  destruct Hin as [Heq|Hin].
  - injection Heq as -> ->. rewrite String.eqb_refl. reflexivity.
  - destruct (String.eqb k x) eqn:E; [|apply IH; assumption].
    apply String.eqb_eq in E. subst x. exfalso. apply Hx.
    apply (in_map fst) in Hin. exact Hin.
Qed.

Lemma fold_bumpCount (ks : list string) : forall counts,
  NoDup (map fst counts) -> positiveCounts counts ->
  let counts' := fold_left (fun acc k => bumpCount k acc) ks counts in
  NoDup (map fst counts') /\ positiveCounts counts' /\
  forall k, countOf k counts' = countOf k counts + count_occ string_dec ks k.
Proof.
  induction ks as [|x ks IH]; intros counts Hnd Hpos; cbn [fold_left].
  - split; [exact Hnd|]. split; [exact Hpos|]. intros k. cbn. lia.
  - destruct (bumpCount_keys x counts Hnd Hpos) as [Hnd' [Hpos' _]].
    destruct (IH _ Hnd' Hpos') as [H1 [H2 H3]].
    split; [exact H1|]. split; [exact H2|]. intros k.
    rewrite H3, countOf_bumpCount. cbn [count_occ].
    destruct (string_dec x k) as [->|Hne].
    + rewrite String.eqb_refl. lia.
    + assert (E : String.eqb k x = false) by (apply String.eqb_neq; congruence).
      rewrite E. lia.
Qed.

Lemma NoDup_dedup (ks : list string) : forall seen, NoDup (dedup seen ks).
Proof.
  induction ks as [|k rest IH]; intros seen; cbn [dedup]; [constructor|].
  destruct (existsb (String.eqb k) seen) eqn:E; [apply IH|].
  constructor; [|apply IH]. intros Hin. apply dedup_In in Hin.
  destruct Hin as [_ Hn]. apply Hn. left. reflexivity.
Qed.

Lemma count_occ_keysOfMapping (item : Value) (k : string) :
  isMapping item = true ->
  count_occ string_dec (keysOfMapping item) k = if hasKey item k then 1 else 0.
Proof.
  intros Hm. destruct (isMapping_VObj _ Hm) as [props ->]. cbn [keysOfMapping].
  pose proof (NoDup_dedup (map fst props) []) as Hnd. fold (Object_keys props) in Hnd.
  rewrite <- setHas_Object_keys. unfold setHas.
  destruct (existsb (String.eqb k) (Object_keys props)) eqn:E.
  - apply existsb_eqb_In in E. apply NoDup_count_occ' with (decA := string_dec) in E;
      [exact E|exact Hnd].
  - apply count_occ_not_In. intros Hin. apply existsb_eqb_In in Hin.
    rewrite Hin in E. discriminate E.
Qed.

Lemma hasKey_not_mapping (item : Value) (k : string) :
  isMapping item = false -> hasKey item k = false.
Proof. destruct item; try reflexivity. discriminate. Qed.

Lemma presence_cons (item : Value) (rest : list Value) (k : string) :
  presence (item :: rest) k = (if hasKey item k then 1 else 0) + presence rest k.
Proof. unfold presence. cbn [filter]. destruct (hasKey item k); reflexivity. Qed.

Lemma fold_countKeysOf (arr : list Value) : forall counts,
  NoDup (map fst counts) -> positiveCounts counts ->
  let counts' := fold_left countKeysOf arr counts in
  NoDup (map fst counts') /\ positiveCounts counts' /\
  forall k, countOf k counts' = countOf k counts + presence arr k.
Proof.
  induction arr as [|item rest IH]; intros counts Hnd Hpos; cbn [fold_left].
  - split; [exact Hnd|]. split; [exact Hpos|]. intros k. cbn. lia.
  - assert (Hstep : NoDup (map fst (countKeysOf counts item)) /\
                    positiveCounts (countKeysOf counts item) /\
                    forall k, countOf k (countKeysOf counts item) =
                              countOf k counts + (if hasKey item k then 1 else 0)).
    { unfold countKeysOf. destruct (isMapping item) eqn:Hm; cbn [negb].
      - destruct (fold_bumpCount (keysOfMapping item) counts Hnd Hpos) as [H1 [H2 H3]].
        split; [exact H1|]. split; [exact H2|]. intros k.
        rewrite H3, (count_occ_keysOfMapping _ _ Hm). reflexivity.
      - split; [exact Hnd|]. split; [exact Hpos|]. intros k.
        rewrite (hasKey_not_mapping _ _ Hm). lia. }
    destruct Hstep as [S1 [S2 S3]].
    destruct (IH _ S1 S2) as [H1 [H2 H3]].
    split; [exact H1|]. split; [exact H2|]. intros k.
    rewrite H3, S3, presence_cons. lia.
Qed.

Lemma keyCounts_presence (arr : list Value) :
  NoDup (map fst (keyCounts arr)) /\
  (forall k n, In (k, n) (keyCounts arr) -> n = presence arr k /\ 1 <= n) /\
  (forall k, 1 <= presence arr k -> In (k, presence arr k) (keyCounts arr)).
Proof.
  destruct (fold_countKeysOf arr [] (NoDup_nil _) (Forall_nil _)) as [H1 [H2 H3]].
  fold (keyCounts arr) in H1, H2, H3.
  assert (H3' : forall k, countOf k (keyCounts arr) = presence arr k).
  { intros k. rewrite (H3 k). reflexivity. }
  clear H3. rename H3' into H3.
  split; [exact H1|]. split.
  - intros k n Hin. rewrite <- (H3 k), (countOf_In k n _ H1 Hin).
    split; [reflexivity|]. unfold positiveCounts in H2.
    rewrite Forall_forall in H2. apply (H2 _ Hin).
  - intros k Hk. rewrite <- (H3 k) in Hk. apply (countOf_positive _ _ H2) in Hk.
    apply in_map_iff in Hk. destruct Hk as [[k' n] [Hfst Hin]]. cbn in Hfst. subst k'.
    rewrite <- (H3 k), (countOf_In k n _ H1 Hin). exact Hin.
Qed.

Lemma insertByCount_perm (e : string * nat) (l : list (string * nat)) :
  Permutation (insertByCount e l) (e :: l).
Proof.
  induction l as [|x l IH]; cbn [insertByCount]; [reflexivity|].
  destruct (snd e <? snd x)%nat; [|reflexivity].
  rewrite IH. apply perm_swap.
Qed.

Lemma insertByCount_sorted (e : string * nat) (l : list (string * nat)) :
  StronglySorted byCount l -> StronglySorted byCount (insertByCount e l).
Proof.
  induction l as [|x l IH]; intros Hs; cbn [insertByCount].
  - constructor; [constructor|constructor].
  - inversion Hs as [|? ? Hl Hx]; subst.
    destruct (snd e <? snd x)%nat eqn:E.
    + apply Nat.ltb_lt in E. constructor; [apply IH, Hl|].
      rewrite Forall_forall in *. intros y Hy.
      apply (Permutation_in _ (insertByCount_perm e l)) in Hy.
      destruct Hy as [<-|Hy]; [unfold byCount; lia|apply Hx, Hy].
    + apply Nat.ltb_ge in E. constructor; [exact Hs|].
      constructor; [unfold byCount; lia|].
      rewrite Forall_forall in *. intros y Hy. specialize (Hx y Hy).
      unfold byCount in *. lia.
Qed.

Lemma sortByCount_sorted (l : list (string * nat)) :
  Permutation (sortByCount l) l /\ StronglySorted byCount (sortByCount l).
Proof.
  unfold sortByCount. induction l as [|e l [IHp IHs]]; cbn [fold_right].
  - split; [reflexivity|constructor].
  - split; [rewrite insertByCount_perm, IHp; reflexivity|].
    apply insertByCount_sorted, IHs.
Qed.

Lemma StronglySorted_split {A : Type} (R : A -> A -> Prop) (n : nat) :
  forall l, StronglySorted R l ->
  StronglySorted R (firstn n l) /\
  forall x y, In x (firstn n l) -> In y (skipn n l) -> R x y.
Proof.
  induction n as [|n IH]; intros l Hs.
  - cbn. split; [constructor|intros x y []].
  - destruct l as [|a l]; [cbn; split; [constructor|intros x y []]|].
    inversion Hs as [|? ? Hl Ha]; subst. destruct (IH l Hl) as [IH1 IH2].
    cbn [firstn skipn]. split.
    + constructor; [exact IH1|]. rewrite Forall_forall in *.
      intros y Hy. apply Ha. apply (In_firstn n l y Hy).
    + intros x y [<-|Hx] Hy.
      * rewrite Forall_forall in Ha. apply Ha.
        rewrite <- (firstn_skipn n l). apply in_or_app. right. exact Hy.
      * apply IH2; assumption.
Qed.

Lemma StronglySorted_map {A B : Type} (R : A -> A -> Prop) (Q : B -> B -> Prop)
    (f : A -> B) (l : list A) :
  (forall x y, In x l -> In y l -> R x y -> Q (f x) (f y)) ->
  StronglySorted R l -> StronglySorted Q (map f l).
Proof.
  induction l as [|a l IH]; intros Hf Hs; cbn [map]; [constructor|].
  inversion Hs as [|? ? Hl Ha]; subst. constructor.
  - apply IH; [|exact Hl]. intros x y Hx Hy. apply Hf; right; assumption.
  - rewrite Forall_forall in *. intros y Hy. apply in_map_iff in Hy.
    destruct Hy as [x [<- Hx]]. apply Hf; [left; reflexivity|right; exact Hx|].
    apply Ha, Hx.
Qed.

(** X26.  The common keys are the most frequent keys, most frequent first:
    at most [limit] keys, no key twice, each held by at least one mapping of
    the array, in order of non-increasing presence, and no key left out is
    present in more mappings than a key that is listed. *)
Theorem commonKeysFromArrayOfObjects_top (arr : list Value) (limit : nat) :
  let keys := commonKeysFromArrayOfObjects arr limit in
  List.length keys <= limit /\
  NoDup keys /\
  (forall k, In k keys -> 1 <= presence arr k) /\
  StronglySorted (fun a b => presence arr b <= presence arr a) keys /\
  (forall k k', In k keys -> ~ In k' keys -> presence arr k' <= presence arr k).
Proof.
  intros keys. subst keys. unfold commonKeysFromArrayOfObjects.
  destruct (keyCounts_presence arr) as [Hnd [Hsound Hcomplete]].
  destruct (sortByCount_sorted (keyCounts arr)) as [Hperm Hsorted].
  set (sorted := sortByCount (keyCounts arr)) in *.
  destruct (StronglySorted_split byCount limit sorted Hsorted) as [Hfirst Hsplit].
  assert (Hin : forall e, In e (firstn limit sorted) -> In e (keyCounts arr)).
  { intros e He. apply (Permutation_in _ Hperm). apply (In_firstn _ _ _ He). }
  assert (Hnds : NoDup (map fst sorted)).
  { apply (Permutation_NoDup (l := map fst (keyCounts arr))); [|exact Hnd].
    apply Permutation_map. symmetry. exact Hperm. }
  split; [rewrite length_map, length_firstn; apply Nat.le_min_l|].
  split.
  { rewrite <- (firstn_skipn limit sorted), map_app in Hnds.
    apply NoDup_app_remove_r in Hnds. exact Hnds. }
  split.
  { intros k Hk. apply in_map_iff in Hk. destruct Hk as [[k' n] [Hfst He]].
    cbn in Hfst. subst k'. destruct (Hsound k n (Hin _ He)) as [-> Hn]. exact Hn. }
  split.
  { apply (StronglySorted_map byCount); [|exact Hfirst].
    intros [k n] [k' n'] Hx Hy HR. unfold byCount in HR. cbn [fst snd] in *.
    destruct (Hsound k n (Hin _ Hx)) as [<- _].
    destruct (Hsound k' n' (Hin _ Hy)) as [<- _]. exact HR. }
  intros k k' Hk Hk'.
  destruct (presence arr k') as [|p] eqn:Ep; [lia|]. rewrite <- Ep.
  assert (Hk'in : In (k', presence arr k') sorted).
  { apply (Permutation_in _ (Permutation_sym Hperm)). apply Hcomplete. lia. }
  rewrite <- (firstn_skipn limit sorted) in Hk'in. apply in_app_or in Hk'in.
  destruct Hk'in as [Hf|Hs].
  - exfalso. apply Hk'. apply in_map_iff. exists (k', presence arr k').
    split; [reflexivity|exact Hf].
  - apply in_map_iff in Hk. destruct Hk as [[k0 n] [Hfst He]]. cbn in Hfst. subst k0.
    destruct (Hsound k n (Hin _ He)) as [Hn _].
    specialize (Hsplit _ _ He Hs). unfold byCount in Hsplit. cbn [snd] in Hsplit. lia.
Qed.

Lemma sum_bumpCount (k : string) (counts : list (string * nat)) :
  list_sum (map snd (bumpCount k counts)) = S (list_sum (map snd counts)).
Proof.
  induction counts as [|[x n] rest IH]; cbn [bumpCount map snd]; [reflexivity|].
  destruct (String.eqb k x); cbn [map snd]; rewrite !list_sum_cons; [lia|].
  rewrite IH. lia.
Qed.

Lemma fold_typeNames (arr : list Value) : forall dist t,
  let dist' := fold_left (fun d item => bumpCount (typeNameOf item) d) arr dist in
  list_sum (map snd dist') = list_sum (map snd dist) + List.length arr /\
  countOf t dist' =
    countOf t dist +
    List.length (filter (fun item => String.eqb t (typeNameOf item)) arr).
Proof.
  induction arr as [|item rest IH]; intros dist t; cbn [fold_left].
  - cbn. split; lia.
  - destruct (IH (bumpCount (typeNameOf item) dist) t) as [H1 H2].
    split.
    + rewrite H1, sum_bumpCount. cbn [List.length]. lia.
    + rewrite H2, countOf_bumpCount. cbn [filter].
      destruct (String.eqb t (typeNameOf item)); cbn [List.length]; lia.
Qed.

(** X27.  The type distribution counts every item once: its counts add up
    to the length of the array, and the count of a type name is the number
    of items of that type. *)
Theorem arrayTypeDistribution_counts (arr : list Value) (t : string) :
  list_sum (map snd (arrayTypeDistribution arr)) = List.length arr /\
  countOf t (arrayTypeDistribution arr) =
    List.length (filter (fun item => String.eqb t (typeNameOf item)) arr).
Proof.
  destruct (fold_typeNames arr [] t) as [H1 H2].
  split; [exact H1|exact H2].
Qed.

Lemma previewInvariant_push (obj : Value) (maxPairs : nat)
    (out : list (string * string)) (k sv : string) :
  previewInvariant obj maxPairs out ->
  (maxPairs <=? List.length out)%nat = false ->
  ~ In k (map fst out) ->
  hasKey obj k = true ->
  simplePreviewValue (ownProperty obj k) = Some sv ->
  previewInvariant obj maxPairs (out ++ [(k, sv)]).
Proof.
  intros [Hlen [Hnd Hs]] Hmax Hk Hhas Hsv. apply Nat.leb_gt in Hmax.
  split; [rewrite length_app; cbn [List.length]; lia|]. split.
  - rewrite map_app. cbn [map fst].
    apply NoDup_app; [exact Hnd|constructor; [intros []|constructor]|].
    intros x Hx [<-|[]]. exact (Hk Hx).
  - intros k' sv' Hin. apply in_app_or in Hin. destruct Hin as [Hin|[Heq|[]]].
    + apply Hs, Hin.
    + injection Heq as <- <-. split; assumption.
Qed.

Lemma pickPreferredPairs_invariant (obj : Value) (maxPairs : nat) (keys : list string) :
  forall out,
  NoDup keys ->
  (forall k, In k keys -> ~ In k (map fst out)) ->
  previewInvariant obj maxPairs out ->
  previewInvariant obj maxPairs (pickPreferredPairs obj maxPairs keys out).
Proof.
  induction keys as [|k rest IH]; intros out Hnd Hfresh Hinv; cbn [pickPreferredPairs];
    [exact Hinv|].
  inversion Hnd as [|? ? Hk Hrest]; subst.
  assert (Hfresh' : forall k', In k' rest -> ~ In k' (map fst out)).
  { intros k' Hk'. apply Hfresh. right. exact Hk'. }
  destruct (maxPairs <=? List.length out)%nat eqn:Emax; [exact Hinv|].
  destruct (hasKey obj k) eqn:Ehas; cbn [negb]; [|apply IH; assumption].
  destruct (simplePreviewValue (ownProperty obj k)) as [sv|] eqn:Esv;
    [|apply IH; assumption].
  apply IH; [exact Hrest| |].
  - intros k' Hk'. rewrite map_app. cbn [map fst]. intros Hin.
    apply in_app_or in Hin. destruct Hin as [Hin|[<-|[]]].
    + exact (Hfresh' k' Hk' Hin).
    + exact (Hk Hk').
  - apply previewInvariant_push; try assumption. apply Hfresh. left. reflexivity.
Qed.

Lemma pickRemainingPairs_invariant (obj : Value) (maxPairs : nat) (used : list string)
    (keys : list string) :
  forall out,
  NoDup keys ->
  (forall k, In k keys -> hasKey obj k = true) ->
  (forall k, In k keys -> In k (map fst out) -> In k used) ->
  previewInvariant obj maxPairs out ->
  previewInvariant obj maxPairs (pickRemainingPairs obj maxPairs used keys out).
Proof.
  induction keys as [|k rest IH]; intros out Hnd Hown Hused Hinv;
    cbn [pickRemainingPairs]; [exact Hinv|].
  inversion Hnd as [|? ? Hk Hrest]; subst.
  assert (Hown' : forall k', In k' rest -> hasKey obj k' = true).
  { intros k' Hk'. apply Hown. right. exact Hk'. }
  assert (Hused' : forall k', In k' rest -> In k' (map fst out) -> In k' used).
  { intros k' Hk'. apply Hused. right. exact Hk'. }
  destruct (maxPairs <=? List.length out)%nat eqn:Emax; [exact Hinv|].
  destruct (existsb (String.eqb k) used) eqn:Eused; [apply IH; assumption|].
  destruct (simplePreviewValue (ownProperty obj k)) as [sv|] eqn:Esv;
    [|apply IH; assumption].
  apply IH; [exact Hrest|exact Hown'| |].
  - intros k' Hk'. rewrite map_app. cbn [map fst]. intros Hin.
    apply in_app_or in Hin. destruct Hin as [Hin|[<-|[]]].
    + exact (Hused' k' Hk' Hin).
    + exfalso. exact (Hk Hk').
  - apply previewInvariant_push; try assumption.
    + intros Hin. specialize (Hused k (or_introl eq_refl) Hin).
      apply existsb_eqb_In in Hused. rewrite Hused in Eused. discriminate Eused.
    + apply Hown. left. reflexivity.
Qed.

(** X28.  The preview pairs of an object are at most [maxPairs], no key
    appears twice, and each pair is an own key of the object with the
    preview text of its value. *)
Theorem pickPreviewPairs_invariant (obj : Value) (maxPairs : nat) :
  let pairs := pickPreviewPairs obj maxPairs in
  List.length pairs <= maxPairs /\
  NoDup (map fst pairs) /\
  forall k sv, In (k, sv) pairs ->
    hasKey obj k = true /\ simplePreviewValue (ownProperty obj k) = Some sv.
Proof.
  intros pairs. subst pairs. unfold pickPreviewPairs.
  destruct (isMapping obj) eqn:Hm; cbn [negb].
  2:{ split; [cbn; lia|]. split; [constructor|intros k sv []]. }
  change (previewInvariant obj maxPairs
            (pickRemainingPairs obj maxPairs
               (map fst (pickPreferredPairs obj maxPairs previewPreferred []))
               (keysOfMapping obj)
               (pickPreferredPairs obj maxPairs previewPreferred []))).
  destruct (isMapping_VObj _ Hm) as [props ->]. cbn [keysOfMapping].
  apply pickRemainingPairs_invariant.
  - apply NoDup_dedup.
  - intros k Hk. rewrite <- setHas_Object_keys. apply existsb_eqb_In, Hk.
  - intros k _ Hin. exact Hin.
  - apply pickPreferredPairs_invariant.
    + change previewPreferred with (dedup [] previewPreferred). apply NoDup_dedup.
    + intros k _ [].
    + split; [cbn; lia|]. split; [constructor|intros k sv []].
Qed.


(* ------------------------------------------------------------------ *)
(** ** Value renderer *)

Lemma renderValue_array (link : bool) (items : list Value) :
  renderValue true link (VArr items)
  = body <- renderArrayAsList items ;; Ok (Some (CollapsedArray items body)).
Proof. reflexivity. Qed.

Lemma renderValue_object (link : bool) (props : list (string * Value)) :
  renderValue true link (VObj props)
  = body <- renderObjectAsKv (VObj props) ;; Ok (Some (CollapsedObject props body)).
Proof. reflexivity. Qed.




Lemma renderKV_text (key text : string) :
  nonEmpty text = true ->
  renderKV key (VStr text) false false = Ok (Some (KV key (Text text))).
Proof.
  intros H. unfold renderKV, renderKVWith. cbn [renderValue andb].
  rewrite H. reflexivity.
Qed.

(** *** Rendering plain data raises nothing *)

Lemma total_buildItemSummary (obj : Value) (i : nat) :
  isObjectLike obj = true -> plain obj = true -> total (buildItemSummary obj i).
Proof.
  intros Ho Hp. unfold buildItemSummary.
  destruct (pickFirst_plain obj ["Id"; "id"; "ID"; "uid"; "guid"; "uuid"] Hp)
    as [id [-> Hid]]. cbn [bind].
  destruct (pickFirst_plain obj ["Number"; "number"; "No"; "no"; "code"; "Code"] Hp)
    as [num [-> Hnum]]. cbn [bind].
  destruct (total_pickFirst obj ["Title"; "title"; "Subject"; "subject"; "Name"; "name";
                                 "Summary"; "summary"]) as [title ->]. cbn [bind].
  destruct (pickFirst_plain obj ["Status"; "status"; "State"; "state";
                                 "ReviewStatus"; "reviewStatus"] Hp)
    as [status [-> Hstatus]]. cbn [bind].
  apply total_bind.
  { destruct (nullish id); [apply total_Ok|].
    apply total_bind; [now apply total_js_String|]. intros s. apply total_Ok. }
  intros bits1. apply total_bind.
  { destruct (nullish num); [apply total_Ok|].
    apply total_bind; [now apply total_js_String|]. intros s. apply total_Ok. }
  intros bits2. apply total_bind.
  { clear Ho. destruct status as [| |b|n|s|items|props]; try apply total_Ok;
      (apply total_if; [|apply total_Ok]);
      (apply total_bind; [apply total_pickFirst|intros sName; apply total_Ok]). }
  intros bits3. apply total_bind; [|intros keys; apply total_Ok].
  destruct obj; try discriminate Ho; eexists; reflexivity.
Qed.

Lemma total_renderKVWith (render : bool -> bool -> Value -> Result (option Markup))
    (key : string) (value : Value) (collapsible link : bool) :
  total (render collapsible link value) ->
  total (renderKVWith render key value collapsible link).
Proof.
  intros [v Hv]. unfold renderKVWith. rewrite Hv. cbn [bind].
  destruct v; apply total_Ok.
Qed.

Lemma total_objectRowsWith (render : bool -> bool -> Value -> Result (option Markup))
    (props : list (string * Value)) :
  Forall (fun kv => forall c l, total (render c l (snd kv))) props ->
  forall seen, total (objectRowsWith render props seen).
Proof.
  induction 1 as [|[k v] rest Hv _ IH]; intros seen; cbn [objectRowsWith];
    [apply total_Ok|].
  destruct (existsb (String.eqb k) seen); [apply IH|].
  apply total_bind; [apply total_renderKVWith, Hv|]. intros row.
  apply total_bind; [apply IH|]. intros rows. destruct row; apply total_Ok.
Qed.

Lemma total_renderObjectAsKvWith (render : bool -> bool -> Value -> Result (option Markup))
    (obj : Value) :
  (forall props, obj = VObj props ->
     Forall (fun kv => forall c l, total (render c l (snd kv))) props) ->
  total (renderObjectAsKvWith render obj).
Proof.
  intros H. destruct obj as [| | | | | |props]; try apply total_Ok.
  cbn [renderObjectAsKvWith]. destruct props as [|p rest]; [apply total_Ok|].
  apply total_bind; [apply total_objectRowsWith, H; reflexivity|].
  intros rows. apply total_Ok.
Qed.

Lemma Forall_plain_props (P : Value -> Prop) (props : list (string * Value)) :
  Forall (fun kv => plain (snd kv) = true -> P (snd kv)) props ->
  forallb (fun kv => plain (snd kv)) props = true ->
  Forall (fun kv => P (snd kv)) props.
Proof.
  induction 1 as [|kv rest Hkv _ IH]; intros Hp; constructor;
    cbn [forallb] in Hp; apply andb_true_iff in Hp; destruct Hp as [H1 H2].
  - apply Hkv, H1.
  - apply IH, H2.
Qed.

Lemma plain_props (props : list (string * Value)) :
  plain (VObj props) = true -> forallb (fun kv => plain (snd kv)) props = true.
Proof. cbn [plain]. destruct (lookup "toString" props); [discriminate|trivial]. Qed.

Lemma total_renderValue (value : Value) :
  plain value = true -> forall collapsible link, total (renderValue collapsible link value).
Proof.
  induction value as [| |b|n|s|items IH|props IH] using Value_nested_ind;
    intros Hp collapsible link; cbn [renderValue]; try apply total_Ok.
  - destruct b; apply total_Ok.
  - destruct (link && looksLikeUrl s); [apply total_Ok|].
    destruct (nonEmpty s); apply total_Ok.
  - destruct (negb collapsible); [apply total_Ok|].
    apply total_bind; [|intros body; apply total_Ok].
    unfold renderArrayAsListWith. destruct items as [|x rest]; [apply total_Ok|].
    apply total_bind; [|intros cards; apply total_Ok].
    cbn [plain] in Hp. generalize 0%nat as i.
    generalize dependent (x :: rest). clear x rest. intros xs IH Hp.
    induction IH as [|x rest Hx _ IHrest]; intros i; cbn [arrayItemsWith];
      [apply total_Ok|].
    cbn [forallb] in Hp. apply andb_true_iff in Hp. destruct Hp as [Hpx Hprest].
    destruct (ARRAY_HARD_MAX <=? i)%nat; [apply total_Ok|].
    apply total_bind; [|intros card; apply total_bind;
                         [apply IHrest, Hprest|intros cards; apply total_Ok]].
    unfold renderArrayItemWith.
    destruct (nullish x || negb (JsType_eqb (typeof x) TyObject)) eqn:E1.
    { apply total_bind; [apply total_renderKVWith, Hx, Hpx|intros row; apply total_Ok]. }
    destruct (isArray x) eqn:E2.
    { apply total_bind; [apply total_renderKVWith, Hx, Hpx|intros row; apply total_Ok]. }
    assert (Hox : isObjectLike x = true).
    { destruct x; try discriminate E1; try discriminate E2; reflexivity. }
    apply total_bind; [now apply total_buildItemSummary|]. intros summary.
    apply total_bind; [|intros body; apply total_Ok].
    destruct x as [| | | | | |ps]; try apply total_Ok.
    pose proof (Hx Hpx true false) as Ht. cbn [renderValue negb] in Ht.
    destruct Ht as [m Hm].
    destruct (renderObjectAsKvWith renderValue (VObj ps)) as [body|e];
      [eexists; reflexivity|discriminate Hm].
  - destruct (negb collapsible); [apply total_Ok|].
    apply total_bind; [|intros body; apply total_Ok].
    apply total_renderObjectAsKvWith. intros ps [= <-].
    exact (Forall_plain_props
             (fun v => forall c l, total (renderValue c l v)) _ IH (plain_props _ Hp)).
Qed.

(** *** The closed block lists the value in full *)








Lemma total_renderKV (key : string) (value : Value) (collapsible link : bool) :
  plain value = true -> total (renderKV key value collapsible link).
Proof. intros Hp. apply total_renderKVWith. now apply total_renderValue. Qed.

Lemma total_renderObjectAsKv (obj : Value) :
  plain obj = true -> total (renderObjectAsKv obj).
Proof.
  intros Hp. apply total_renderObjectAsKvWith. intros props ->.
  pose proof (plain_props _ Hp) as Hall. clear Hp.
  induction props as [|kv rest IH]; constructor.
  - intros c l. apply total_renderValue.
    cbn [forallb] in Hall. apply andb_true_iff in Hall. apply Hall.
  - apply IH. cbn [forallb] in Hall. apply andb_true_iff in Hall. apply Hall.
Qed.

Lemma total_renderArrayItem (item : Value) (i : nat) :
  plain item = true -> total (renderArrayItem item i).
Proof.
  intros Hp. unfold renderArrayItem, renderArrayItemWith.
  destruct (nullish item || negb (JsType_eqb (typeof item) TyObject)) eqn:E1.
  { apply total_bind; [now apply total_renderKV|intros row; apply total_Ok]. }
  destruct (isArray item) eqn:E2.
  { apply total_bind; [now apply total_renderKV|intros row; apply total_Ok]. }
  assert (Ho : isObjectLike item = true).
  { destruct item; try discriminate E1; try discriminate E2; reflexivity. }
  apply total_bind; [now apply total_buildItemSummary|]. intros summary.
  apply total_bind; [now apply total_renderObjectAsKv|]. intros body. apply total_Ok.
Qed.

(** ** Template-driven renderer: the hint card *)






(** What raises.  The title of the card of an object item converts the
    [Id] of the item to a string; rendering the record
    [{"z":[{"Id":{"toString":1}}]}] in full therefore raises, in the hint
    card as in a dataset row. *)
Lemma renderValue_raises_on_shadowed_toString :
  plain shadowedId = false /\
  buildItemSummary (VObj [ ("Id", VObj [ ("toString", VNum 1) ]) ]) 0 = Throw TypeError /\
  renderValue true false shadowedId = Throw TypeError /\
  renderValue false false shadowedId = Ok (Some (JsonText shadowedId)) /\
  countTemplateFieldHits plainTemplate shadowedId = Ok 0%nat /\
  renderTemplateRecordView plainTemplate shadowedId = Throw TypeError /\
  renderArrayItem shadowedId 0 = Throw TypeError.
Proof. repeat split. Qed.

(** ** Templates without fields, rendered *)





(** ** Dataset view *)

(** X15.  In jump mode on a dataset with at least one row, the row shown
    is the row of the dataset at the requested position brought within
    range.  Whenever the view is rendered it is the card of that row,
    whose body is [renderObjectAsKv] of the row, and the out-of-range note
    is absent exactly when the position shown is the one asked for; the
    view is rendered whenever no object of that row has an own [toString]
    key. *)
Theorem renderDatasetView_jump (arr : list Value) (e : DatasetUi) (jump : Z) :
  jumpIndex e = VNum jump ->
  0 < List.length arr ->
  exists safe row,
    (0 <= safe < Z.of_nat (List.length arr))%Z /\
    (safe = jump <-> (0 <= jump < Z.of_nat (List.length arr))%Z) /\
    (jump < 0 -> safe = 0)%Z /\
    (Z.of_nat (List.length arr) <= jump -> safe = Z.of_nat (List.length arr) - 1)%Z /\
    nth_error arr (Z.to_nat safe) = Some row /\
    (plain row = true -> total (renderDatasetView arr (Some e))) /\
    (forall view,
       renderDatasetView arr (Some e) = Ok view ->
       exists note body,
         view = JumpView safe (List.length arr) note body /\
         renderObjectAsKv row = Ok body /\
         (note = None <-> safe = jump)).
Proof.
  intros Hj Harr.
  assert (Hlen : (0 <= Z.of_nat (List.length arr) - 1)%Z) by lia.
  set (safe := clamp (VNum jump) 0 (Z.of_nat (List.length arr) - 1)).
  pose proof (clamp_range (VNum jump) 0 _ Hlen) as Hr. fold safe in Hr.
  assert (Hs : (0 <= safe < Z.of_nat (List.length arr))%Z) by lia.
  destruct (arrayAt_In arr safe Hs) as [Hat Hin].
  pose proof (clamp_inside jump 0 _ Hlen) as Hc. fold safe in Hc.
  exists safe, (arrayAt arr safe).
  split; [exact Hs|]. split; [rewrite Hc; lia|].
  split; [unfold safe, clamp; lia|]. split; [unfold safe, clamp; lia|].
  split.
  { rewrite Hat. apply nth_error_nth'. lia. }
  assert (Hview : renderDatasetView arr (Some e)
                  = body <- renderObjectAsKv (arrayAt arr safe) ;;
                    Ok (JumpView safe (List.length arr)
                          (if (jump <? 0)%Z || (Z.of_nat (List.length arr) - 1 <? jump)%Z
                           then Some (jumpNoteText
                                        (if nonEmpty (lastJumpInput e)
                                         then lastJumpInput e
                                         else Z_toString (jump + 1))
                                        (List.length arr) safe)
                           else None)
                          body)).
  { unfold renderDatasetView. rewrite Hj. reflexivity. }
  split.
  - intros Hp. rewrite Hview.
    destruct (total_renderObjectAsKv _ Hp) as [body ->]. eexists. reflexivity.
  - intros view. rewrite Hview.
    destruct (renderObjectAsKv (arrayAt arr safe)) as [body|err]; cbn [bind];
      [|discriminate].
    intros [= <-]. eexists _, body. split; [reflexivity|]. split; [reflexivity|].
    destruct ((jump <? 0)%Z || (Z.of_nat (List.length arr) - 1 <? jump)%Z) eqn:Eo.
    + split; [discriminate|]. intros Heq. exfalso.
      apply Hc in Heq. apply orb_true_iff in Eo.
      destruct Eo as [Eo|Eo]; apply Z.ltb_lt in Eo; lia.
    + split; [intros _|reflexivity]. apply Hc.
      apply orb_false_iff in Eo. destruct Eo as [E1 E2].
      apply Z.ltb_ge in E1. apply Z.ltb_ge in E2. lia.
Qed.

Lemma renderDatasetView_jump_witness :
  jumpIndex jumpToEighth = VNum 7 /\
  0 < List.length twoRows /\
  exists safe row,
    (0 <= safe < Z.of_nat (List.length twoRows))%Z /\
    nth_error twoRows (Z.to_nat safe) = Some row /\
    total (renderDatasetView twoRows (Some jumpToEighth)).
Proof.
  split; [reflexivity|]. split; [simpl; lia|].
  destruct (renderDatasetView_jump twoRows jumpToEighth 7 eq_refl)
    as [safe [row [Hs [_ [_ [Hhigh [Hrow [Htotal _]]]]]]]]; [simpl; lia|].
  exists safe, row. split; [exact Hs|]. split; [exact Hrow|].
  apply Htotal.
  assert (Hsafe : safe = 1%Z) by (apply Hhigh; simpl; lia).
  subst safe. cbn in Hrow. injection Hrow as <-. reflexivity.
Defined.

Lemma mapM_length {A B : Type} (f : A -> Result B) (xs : list A) :
  forall ys, mapM f xs = Ok ys -> List.length ys = List.length xs.
Proof.
  induction xs as [|x rest IH]; intros ys; cbn [mapM].
  - intros [= <-]. reflexivity.
  - destruct (f x) as [y|e]; cbn [bind]; [|discriminate].
    destruct (mapM f rest) as [ys'|e]; cbn [bind]; [|discriminate].
    intros [= <-]. cbn [List.length]. now rewrite (IH ys').
Qed.

Lemma mapM_nth_error {A B : Type} (f : A -> Result B) (xs : list A) :
  forall ys, mapM f xs = Ok ys ->
  forall j x, nth_error xs j = Some x ->
  exists y, nth_error ys j = Some y /\ f x = Ok y.
Proof.
  induction xs as [|x rest IH]; intros ys; cbn [mapM].
  - intros _ [|j] x H; discriminate H.
  - destruct (f x) as [y|e] eqn:Ex; cbn [bind]; [|discriminate].
    destruct (mapM f rest) as [ys'|e]; cbn [bind]; [|discriminate].
    intros [= <-] [|j] x' H; cbn [nth_error] in *.
    + injection H as <-. exists y. split; [reflexivity|exact Ex].
    + apply (IH ys' eq_refl j x' H).
Qed.

(** X16.  In list mode the rows that match the filter are taken in
    dataset order, each under its own position, and the first 80 of them
    are shown: there is one card per row shown, in order, the card being
    [renderArrayItem] of the row at its position; the note on the cap is
    shown exactly when more than 80 rows match. *)
Theorem renderDatasetView_list (arr : list Value) (e : DatasetUi)
    (meta : string) (cap : bool) (cards : list Markup) :
  JsType_eqb (typeof (jumpIndex e)) TyNumber = false ->
  renderDatasetView arr (Some e) = Ok (ListView meta cap cards) ->
  (forall i row,
     In (i, row) (matchingRows (dsFilter e) arr) <->
     nth_error arr i = Some row /\ matchesRow (dsFilter e) row = true) /\
  List.length cards = Nat.min 80 (List.length (matchingRows (dsFilter e) arr)) /\
  (forall j i row,
     nth_error (firstn 80 (matchingRows (dsFilter e) arr)) j = Some (i, row) ->
     exists card, nth_error cards j = Some card /\ renderArrayItem row i = Ok card) /\
  (cap = true <-> 80 < List.length (matchingRows (dsFilter e) arr)) /\
  meta = escapeHtmlText
           (listMetaText (List.length cards)
                         (List.length (matchingRows (dsFilter e) arr))
                         (List.length arr)).
Proof.
  intros Hj. unfold renderDatasetView.
  rewrite (jumpIndex_not_number _ Hj). clear Hj.
  lazymatch goal with |- bind ?c _ = _ -> _ => destruct c as [found|err] eqn:Em end;
    [|discriminate].
  unfold bind at 1.
  assert (Hm : found = matchingRows (dsFilter e) arr).
  { unfold matchingRows. destruct (nonEmpty (dsFilter e)) eqn:Ef.
    - apply filterRows_filter, Em.
    - injection Em as <-. symmetry. apply filter_all. intros [i row] _.
      destruct (dsFilter e); [reflexivity|discriminate Ef]. }
  subst found. clear Em.
  change HARD_MAX with 80.
  remember (matchingRows (dsFilter e) arr) as matching eqn:Hmatching.
  remember (firstn 80 matching) as show eqn:Hshow.
  destruct (renderRows show) as [cs|err] eqn:Ec; cbn [bind]; [|discriminate].
  intros H. injection H as Hmeta Hcap Hcards. subst cs.
  pose proof (mapM_length _ _ _ Ec) as Hlen.
  split; [|split; [|split; [|split]]].
  - intros i row. rewrite Hmatching. unfold matchingRows.
    rewrite filter_In, indexedFrom_In, Nat.sub_0_r. cbn [snd].
    split; [intros [[_ H] Hrow]; now split|intros [H Hrow]; split; [split; [lia|exact H]|exact Hrow]].
  - rewrite Hlen, Hshow, length_firstn. reflexivity.
  - intros j i row Hnth.
    destruct (mapM_nth_error _ _ _ Ec j (i, row) Hnth) as [card [Hcard Hitem]].
    exists card. split; [exact Hcard|exact Hitem].
  - rewrite <- Hcap. apply Nat.ltb_lt.
  - rewrite <- Hmeta, Hlen. reflexivity.
Qed.

Lemma renderDatasetView_list_witness :
  exists meta cap cards,
    JsType_eqb (typeof (jumpIndex filterReview)) TyNumber = false /\
    renderDatasetView twoRows (Some filterReview) = Ok (ListView meta cap cards) /\
    List.length cards = Nat.min 80 (List.length (matchingRows (dsFilter filterReview) twoRows)) /\
    (cap = true <-> 80 < List.length (matchingRows (dsFilter filterReview) twoRows)).
Proof.
  eexists _, _, _. split; [reflexivity|]. split; [reflexivity|].
  destruct (renderDatasetView_list twoRows filterReview _ _ _ eq_refl eq_refl)
    as [_ [Hlen [_ [Hcap _]]]].
  split; [exact Hlen|exact Hcap].
Defined.

(** ** Section layout *)

Lemma renderFields_present (record : Value) (fields : list Value) :
  forall bodyParts,
  renderFields record fields = Ok bodyParts ->
  exists parts,
    mapM (renderTemplateField record) fields = Ok parts /\
    bodyParts = present parts.
Proof.
  induction fields as [|f rest IH]; intros bodyParts; cbn [renderFields mapM].
  - intros [= <-]. exists []. split; reflexivity.
  - destruct (renderTemplateField record f) as [part|e]; cbn [bind]; [|discriminate].
    destruct (renderFields record rest) as [parts'|e]; cbn [bind];
      [|destruct part; discriminate].
    destruct (IH parts' eq_refl) as [ps [-> ->]]. cbn [bind].
    intros H. exists (part :: ps). split; [reflexivity|].
    destruct part; injection H as <-; reflexivity.
Qed.

Lemma renderSections_cards (record : Value) (layout : list Value) :
  forall i cards, renderSections record i layout = Ok cards ->
  List.length cards = List.length layout /\
  forall j sec, nth_error layout j = Some sec ->
    exists title parts,
      nth_error cards j
      = Some (CollapsibleCard title (i + j =? 0)%nat (present parts)) /\
      sectionTitle sec (i + j) title /\
      nonEmpty title = true /\
      mapM (renderTemplateField record) (fieldsOfSection sec) = Ok parts.
Proof.
  induction layout as [|s rest IH]; intros i cards; cbn [renderSections].
  - intros [= <-]. split; [reflexivity|]. intros [|j] sec H; discriminate H.
  - destruct (get s "section") as [st|e] eqn:Es; cbn [bind]; [|discriminate].
    destruct (js_String (js_or st (VStr ""))) as [str|e] eqn:Estr; cbn [bind];
      [|discriminate].
    destruct (get s "fields") as [fs|e] eqn:Ef; cbn [bind]; [|discriminate].
    destruct (renderFields record match fs with VArr l => l | _ => [] end)
      as [bodyParts|e] eqn:Eb; cbn [bind]; [|discriminate].
    destruct (renderSections record (S i) rest) as [cs|e] eqn:Er; cbn [bind];
      [|discriminate].
    intros [= <-]. destruct (IH _ _ Er) as [Hlen Hnth].
    split; [cbn [List.length]; rewrite Hlen; reflexivity|].
    unfold get in Es, Ef. destruct (nullish s); [discriminate Es|].
    injection Es as <-. injection Ef as <-.
    intros [|j] sec H; cbn [nth_error] in *.
    + injection H as <-.
      destruct (renderFields_present _ _ _ Eb) as [parts [Hparts ->]].
      eexists _, parts. rewrite Nat.add_0_r.
      split; [reflexivity|]. split; [exists str; split; [exact Estr|reflexivity]|].
      split; [|exact Hparts].
      destruct (nonEmpty (trim str)) eqn:Et; [exact Et|reflexivity].
    + destruct (Hnth j sec H) as [title [parts [Hc [Ht [Hne Hp]]]]].
      exists title, parts. replace (i + S j) with (S i + j) by lia.
      split; [exact Hc|]. split; [exact Ht|]. split; [exact Hne|exact Hp].
Qed.

(** X25.  When the template view is rendered as sections, there is exactly
    one collapsible card per layout section, in layout order; only the
    first one is open; every card has a title that is not empty, the
    trimmed title of the section or [Section] and its position; and it
    holds the fields of the section that render to something, in the
    order the section declares them. *)
Theorem renderTemplateRecordView_sections (template record : Value)
    (sections : list Markup) :
  renderTemplateRecordView template record = Ok (Joined sections) ->
  exists layout,
    ownProperty template "layout" = VArr layout /\
    List.length sections = List.length layout /\
    forall j sec, nth_error layout j = Some sec ->
      exists title parts,
        nth_error sections j
        = Some (CollapsibleCard title (j =? 0)%nat (present parts)) /\
        sectionTitle sec j title /\
        nonEmpty title = true /\
        mapM (renderTemplateField record) (fieldsOfSection sec) = Ok parts.
Proof.
  unfold renderTemplateRecordView.
  destruct (isObjectLike template) eqn:Ho; cbn [negb].
  2:{ unfold renderGenericPrettyView.
      destruct (buildHighValueFieldRows record); cbn [bind]; [|discriminate].
      destruct (renderKV "Top-level type" _ false false); cbn [bind]; [|discriminate].
      destruct (renderKV "Record" record true false); cbn [bind]; discriminate. }
  rewrite (get_objectLike _ _ Ho). cbn [bind].
  destruct (ownProperty template "layout") as [| | | | |layout|];
    try (unfold renderGenericPrettyView;
         destruct (buildHighValueFieldRows record); cbn [bind]; [|discriminate];
         destruct (renderKV "Top-level type" _ false false); cbn [bind]; [|discriminate];
         destruct (renderKV "Record" record true false); cbn [bind]; discriminate).
  destruct (countTemplateFieldHits template record) as [hits|e]; cbn [bind]; [|discriminate].
  destruct (hits =? 0)%nat.
  - destruct (displayName template); cbn [bind]; [|discriminate].
    destruct (renderKV "Template" _ false false); cbn [bind]; [|discriminate].
    rewrite !renderKV_text by reflexivity. cbn [bind].
    destruct (renderKV "Record" record true false); cbn [bind]; discriminate.
  - destruct (renderSections record 0 layout) as [cards|e] eqn:Er; cbn [bind]; [|discriminate].
    intros [= <-]. exists layout. split; [reflexivity|].
    apply (renderSections_cards record layout 0 cards Er).
Qed.

Lemma renderTemplateRecordView_sections_witness :
  exists sections,
    renderTemplateRecordView broadTemplate ticket = Ok (Joined sections) /\
    exists layout,
      ownProperty broadTemplate "layout" = VArr layout /\
      List.length sections = List.length layout /\
      forall j sec, nth_error layout j = Some sec ->
        exists title parts,
          nth_error sections j
          = Some (CollapsibleCard title (j =? 0)%nat (present parts)) /\
          sectionTitle sec j title /\
          nonEmpty title = true /\
          mapM (renderTemplateField ticket) (fieldsOfSection sec) = Ok parts.
Proof.
  eexists. split; [reflexivity|].
  apply (renderTemplateRecordView_sections broadTemplate ticket). reflexivity.
Defined.

(** ** Rendered values and fields *)




Lemma total_renderBadgeField (label : string) (value : Value) :
  plain value = true -> total (renderBadgeField label value).
Proof.
  intros Hp. unfold renderBadgeField. apply total_bind.
  - destruct (nullish value); [apply total_Ok|].
    apply total_bind; [now apply total_js_String|].
    intros s. now apply total_safeOneLine.
  - intros badgeText. destruct (negb (nonEmpty badgeText)); apply total_Ok.
Qed.

Lemma total_renderDateField (label : string) (value : Value) :
  plain value = true -> total (renderDateField label value).
Proof.
  intros Hp. unfold renderDateField. destruct (negb (truthy value)); [apply total_Ok|].
  destruct value; try apply total_Ok;
    (apply total_bind; [now apply total_js_String|]);
    intros dt; now apply total_renderKV.
Qed.

Lemma total_renderTemplateField (record field : Value) :
  plain record = true -> plain field = true -> nullish field = false ->
  total (renderTemplateField record field).
Proof.
  intros Hr Hf Hn. unfold renderTemplateField. rewrite !(get_ok _ _ Hn). cbn [bind].
  apply total_bind.
  { apply total_js_String. apply plain_js_or; [now apply plain_ownProperty|reflexivity]. }
  intros ps. apply total_bind.
  { apply total_js_String. apply plain_js_or; [now apply plain_ownProperty|reflexivity]. }
  intros ls. apply total_bind.
  { apply total_js_String. apply plain_js_or; [now apply plain_ownProperty|reflexivity]. }
  intros fs.
  destruct (negb (nonEmpty (trim ps)) || negb (nonEmpty (trim ls))); [apply total_Ok|].
  destruct (total_getValueAtPath record (trim ps)) as [v Hv]. rewrite Hv. cbn [bind].
  pose proof (plain_getValueAtPath _ _ _ Hr Hv) as Hpv.
  assert (Hfmt : total
    (if String.eqb (toLowerCase (trim fs)) "badge" then renderBadgeField (trim ls) v
     else if String.eqb (toLowerCase (trim fs)) "date" then renderDateField (trim ls) v
     else if String.eqb (toLowerCase (trim fs)) "link" then
       match v with
       | VStr _ => renderKV (trim ls) v false true
       | _ => Ok None
       end
     else if String.eqb (toLowerCase (trim fs)) "multiline" then
       match v with
       | VStr _ => renderKV (trim ls) v false false
       | _ => Ok None
       end
     else if String.eqb (toLowerCase (trim fs)) "kvlist" then
       html <- renderKvListValue v field ;;
       match html with
       | Some m => Ok (Some (renderKVHtml (trim ls) m))
       | None => Ok None
       end
     else if String.eqb (toLowerCase (trim fs)) "json" then
       renderKV (trim ls) v (isObjectLike v) false
     else renderKV (trim ls) v false false)).
  { destruct (String.eqb _ "badge"); [now apply total_renderBadgeField|].
    destruct (String.eqb _ "date"); [now apply total_renderDateField|].
    destruct (String.eqb _ "link").
    { destruct v; try apply total_Ok. now apply total_renderKV. }
    destruct (String.eqb _ "multiline").
    { destruct v; try apply total_Ok. now apply total_renderKV. }
    destruct (String.eqb _ "kvlist").
    { apply total_bind; [now apply total_renderKvListValue|].
      intros html. destruct html; apply total_Ok. }
    destruct (String.eqb _ "json"); now apply total_renderKV. }
  destruct v; try exact Hfmt. apply total_Ok.
Qed.

(** X30.  What [renderTemplateField] makes of a field.  On a field that
    is [null] or [undefined] it raises; on any other field it returns
    whenever no object of the record or of the field has an own
    [toString] key.  What it returns is empty or a row under the trimmed
    label of the field, and a row only if path and label are not blank
    and the path resolves to something other than [undefined]. *)
Theorem renderTemplateField_outcome (record field : Value) :
  (nullish field = true -> renderTemplateField record field = Throw TypeError) /\
  (nullish field = false -> plain record = true -> plain field = true ->
   total (renderTemplateField record field)) /\
  (forall part,
     renderTemplateField record field = Ok (Some part) ->
     exists ps ls value inner,
       js_String (js_or (ownProperty field "path") (VStr EmptyString)) = Ok ps /\
       js_String (js_or (ownProperty field "label") (VStr EmptyString)) = Ok ls /\
       nonEmpty (trim ps) = true /\
       nonEmpty (trim ls) = true /\
       getValueAtPath record (trim ps) = Ok value /\
       value <> VUndefined /\
       part = KV (trim ls) inner).
Proof.
  split; [|split].
  - intros Hn. unfold renderTemplateField, get. rewrite Hn. reflexivity.
  - intros Hn Hr Hf. now apply total_renderTemplateField.
  - intros part. unfold renderTemplateField.
    destruct (nullish field) eqn:Hn; [unfold get; rewrite Hn; discriminate|].
    rewrite !(get_ok _ _ Hn). cbn [bind].
    destruct (js_String (js_or (ownProperty field "path") (VStr ""))) as [ps|e];
      cbn [bind]; [|discriminate].
    destruct (js_String (js_or (ownProperty field "label") (VStr ""))) as [ls|e];
      cbn [bind]; [|discriminate].
    destruct (js_String (js_or (ownProperty field "format") (VStr "text"))) as [fs|e];
      cbn [bind]; [|discriminate].
    destruct (nonEmpty (trim ps)) eqn:Ep; cbn [negb orb]; [|discriminate].
    destruct (nonEmpty (trim ls)) eqn:El; cbn [negb]; [|discriminate].
    destruct (getValueAtPath record (trim ps)) as [v|e] eqn:Ev; cbn [bind];
      [|discriminate].
    intros H.
    assert (Hrow : exists inner, part = KV (trim ls) inner).
    { assert (Hkv : forall x c l, renderKV (trim ls) x c l = Ok (Some part) ->
                                  exists inner, part = KV (trim ls) inner).
      { intros x c l. unfold renderKV, renderKVWith.
        destruct (renderValue c l x) as [[m|]|e]; cbn [bind]; try discriminate.
        intros [= <-]. now exists m. }
      assert (Hfmt :
        (if String.eqb (toLowerCase (trim fs)) "badge" then renderBadgeField (trim ls) v
         else if String.eqb (toLowerCase (trim fs)) "date" then renderDateField (trim ls) v
         else if String.eqb (toLowerCase (trim fs)) "link" then
           match v with
           | VStr _ => renderKV (trim ls) v false true
           | _ => Ok None
           end
         else if String.eqb (toLowerCase (trim fs)) "multiline" then
           match v with
           | VStr _ => renderKV (trim ls) v false false
           | _ => Ok None
           end
         else if String.eqb (toLowerCase (trim fs)) "kvlist" then
           html <- renderKvListValue v field ;;
           match html with
           | Some m => Ok (Some (renderKVHtml (trim ls) m))
           | None => Ok None
           end
         else if String.eqb (toLowerCase (trim fs)) "json" then
           renderKV (trim ls) v (isObjectLike v) false
         else renderKV (trim ls) v false false) = Ok (Some part)).
      { destruct v; try exact H. discriminate H. }
      clear H.
      destruct (String.eqb _ "badge").
      { unfold renderBadgeField in Hfmt.
        destruct (if nullish v then Ok "null" else _) as [badgeText|e]; cbn [bind] in Hfmt;
          [|discriminate Hfmt].
        destruct (negb (nonEmpty badgeText)); [discriminate Hfmt|].
        injection Hfmt as <-. eexists. reflexivity. }
      destruct (String.eqb _ "date").
      { unfold renderDateField in Hfmt.
        destruct (negb (truthy v)); [discriminate Hfmt|].
        destruct v as [| |b|n|s|items|props];
          try (injection Hfmt as <-; eexists; reflexivity);
          lazymatch type of Hfmt with
          | bind (js_String ?x) _ = _ =>
              destruct (js_String x) as [dt|e]; cbn [bind] in Hfmt;
              [apply (Hkv _ _ _ Hfmt)|discriminate Hfmt]
          end. }
      destruct (String.eqb _ "link").
      { destruct v; try discriminate Hfmt. apply (Hkv _ _ _ Hfmt). }
      destruct (String.eqb _ "multiline").
      { destruct v; try discriminate Hfmt. apply (Hkv _ _ _ Hfmt). }
      destruct (String.eqb _ "kvlist").
      { destruct (renderKvListValue v field) as [[m|]|e]; cbn [bind] in Hfmt;
          try discriminate Hfmt.
        injection Hfmt as <-. eexists. reflexivity. }
      destruct (String.eqb _ "json"); apply (Hkv _ _ _ Hfmt). }
    destruct Hrow as [inner ->].
    exists ps, ls, v, inner. repeat split; try assumption; try reflexivity.
    intros ->. discriminate H.
Qed.

Lemma renderTemplateField_outcome_witness :
  nullish (field "Title" "Title") = false /\
  plain ticket = true /\ plain (field "Title" "Title") = true /\
  total (renderTemplateField ticket (field "Title" "Title")) /\
  renderTemplateField ticket VNull = Throw TypeError.
Proof.
  split; [reflexivity|]. split; [reflexivity|]. split; [reflexivity|]. split.
  - apply (proj1 (proj2 (renderTemplateField_outcome ticket (field "Title" "Title"))));
      reflexivity.
  - apply (proj1 (renderTemplateField_outcome ticket VNull)). reflexivity.
Defined.
